(* ===== verification/_CoqProject ===== *)
-Q . S2P
Prelude.v
JsValue.v
Dom.v
DomFacts.v
Browser.v
Engine.v
Reconcile.v
Store.v
Page.v
App.v
AppFacts.v
AppTheorems.v
AppScroll.v
