(* ===== verification/Prelude.v ===== *)
(** * A verified model of the JSON-to-DOM engine of [src/native-app.js]

    The repository is one browser script, [src/native-app.js].  It holds

    - [class DOMGenerator] (lines 2-113): the engine.  [createElement]
      turns a JSON description of a page (strings, numbers, arrays,
      objects with [tag]/[props]/[children]/[ref]) into live DOM nodes,
      [updateElement] patches one live node against a new description,
      and [render] rebuilds a container from scratch.  The engine keeps a
      reference registry [this.refs] from ref names to live nodes.
    - [class AppState] (lines 254-277): a publish/subscribe store with a
      shallow-merge [setState], [subscribe] returning an unsubscribe
      closure, and [getState].
    - the page content: the [TABS] data set (lines 116-251), the tree
      generators [createEvent], [createHorizontalVirtualizedList] and
      [createMainComponent] (lines 279-666).
    - [class SmartHomeApp] (lines 670-713) and the bootstrap (lines
      715-722): the application, which reads the initial tab from the
      URL, subscribes a listener that re-renders, renders, and schedules
      a timer that shows or hides the scroll arrow.

    The parts interact as follows: the application builds a JSON tree from
    the store's state and hands it to [DOMGenerator.render]; event
    handlers inside the tree call [AppState.setState], which calls the
    subscribed listeners synchronously; the application's listener calls
    [render] again and schedules the scroll check.  The page is then
    driven by the browser: [DOMContentLoaded], clicks and changes
    dispatched to the listeners the engine installed, and timers.

    ** Files, in dependency order

    - [Prelude] (this file): JavaScript exceptions ([exn]), the
      state-and-exception monad [M S A := S -> (exn + A) * S] in which all
      stateful code is written (an exception keeps the state reached, as
      JavaScript does: no rollback), its notation in [js_scope], run
      lemmas and the tactic [run_inv]; the invariant calculus [preserves]
      with the hint database [js] and the tactic [preserves_tac]; the
      monadic [forEach] ([forM_]); ASCII string helpers ([toUpperCase],
      [startsWith], [slice]); association lists; list lemmas.
    - [JsValue]: JavaScript values [jval] (functions as opaque
      identities), the coercions the code uses (ToBoolean [truthy],
      [typeof], [String(v)] [to_string], property reads [get],
      [Object.entries] [entries], [===] [strict_eq]) and [classify], the
      shape dispatch of [createElement] (lines 10-27) as the variant
      [etree] of the spec's element-tree model.
    - [Dom]: the host DOM the code calls, as an arena [gmap nat node] with
      the operations and DOMExceptions of the WHATWG DOM standard
      ([document.createElement] with its name validation,
      [createTextNode], [createDocumentFragment], [appendChild] with
      fragment splicing and pre-insertion checks, [removeChild],
      [replaceChild], [setAttribute], [className], [Object.assign] on
      [style], [addEventListener], [innerHTML = ""]) and [view], the
      tree a user sees under a node.  This is the environment, not code
      of the repository.
    - [DomFacts]: run lemmas of the DOM operations, the freshness
      invariant [doc_fresh] of the arena (decidable), agreement of arenas
      on an identity range up to parent pointers ([agree_on], an
      [Equivalence]) and the robust reading [rview] built on it.
    - [Engine], Module [DOMGenerator]: the class's state ([generator],
      [this.refs] as a [gmap] of own entries plus the prototype slot
      that a [__proto__] ref writes), [createElement] ([createElement_fuel],
      with [create_prop] for the props loop, [children_items] for the
      children guard, [registerRef] for the ref), its specification
      [materialize] and the refinement proof.
    - [Reconcile], Module [Reconcile]: [updateElement] with every branch
      in the code's order and [render].
    - [Store], Module [AppState]: the store inside any program state
      through a lens, with the listener bodies as a parameter [call];
      [merge], [setState_fuel], [subscribe], [unsubscribe], [getState];
      and a program whose listeners log their calls.
    - [Page], Module [Page]: [TABS] (with the 64-fold multiplier),
      [TABS_KEYS], the handler closures as function identities with their
      [handler_action], and the generators [createEvent],
      [createHorizontalVirtualizedList], [createMainComponent].
    - [Browser], Module [Browser]: the other host interfaces the
      application calls: [URLSearchParams] (the urlencoded parser
      [form_parse] and [get]),
      [querySelector] on a class, the path and listener lists of event
      dispatch.  Environment, modelled after the URL and DOM standards.
    - [App], Module [SmartHomeApp]: the application state [app] (world,
      store, container, pending timers, scroll positions), the constructor
      [SmartHomeApp_new], [render_app] ([render()]),
      [updateScrollButton] and its callback [scrollCheck], the
      subscribed listener [app_call], the scroll arrow's handler
      [arrow_onclick] with [element.scrollTo]; event [dispatch]; the page over time
      as the step relation [step] on [sys] (waiting, started, failed),
      entered by [bootstrap].
    - [AppFacts], Module [AppFacts]: the invariant [app_inv] of the
      running page and the lemmas that every operation keeps it.
    - [AppTheorems], Module [AppTheorems]: the theorems about the
      application over time.
    - [AppScroll], Module [AppScroll]: the scroll arrow: clicks, the
      end of the list, and the scroll check's comparison.

    ** What the theorems show (claim ids C1-C32)

    - Creation ([Engine]): [createElement] refines [materialize] (C1),
      never runs out of its fuel (C2), only allocates and returns a fresh
      parentless node (C3), registers an element's ref after its children
      (C4), applies the boolean attribute policy (C5) and raises on
      [props: null] (C21).
    - Reconciliation ([Reconcile]): [render] refines [materialize] in its
      container (C6), builds before clearing so a failed render changes
      nothing (C7) and detaches every old child (C8); [updateElement] on a
      live node returns that node (C9), removes it against a falsy value
      with the parent's child count dropping by one (C10), always
      replaces a live node by a leaf (C11), patches only attributes when
      the tag matches (C12), and raises against a tagless object (C13).
    - Store ([Store]): shallow merge (C14), notification of every
      listener in order with the new state (C15), unsubscribe removing
      every occurrence (C16), and the order of a re-entrant [setState]:
      the nested round runs first and the later listeners see only the
      newer state (C17).
    - Page ([Page]): the page of every tab is created without raising
      (C18), exactly one tab is active (C19), an unknown tab gives an
      empty list (C20).
    - Application ([AppTheorems]): from the bootstrap every reachable page
      waits or runs with [app_inv] (C22): the constructor never raises,
      the document holds only the page's listeners, the store one tab
      that is a key of [TABS], and the container shows that tab's page up
      to the arrow's [display]; the constructor opens the URL's tab when
      it is a key (C23); the tab and select handlers select and re-render
      (C24, C25); the scroll check writes [display: block] exactly when
      [offsetWidth + scrollLeft < scrollWidth] (C26); pending timers
      drain (C27, liveness).
    - Scroll arrow ([AppScroll]): a click clamps [scrollLeft] to the
      scrolling area (C28) and enough clicks reach the end (C29,
      liveness); a click never updates the arrow, which stays shown at
      the end (C30); the check's use of [offsetWidth] hides the arrow
      early when the list has a border (C31) and is exact without one
      (C32).

    ** Bounds and fuel

    [createElement] and [materialize] recurse with fuel [S (depth j)],
    the nesting depth of the JSON value plus one: every recursive call is
    on a strictly smaller value, so this fuel is never exhausted (C2).
    [view] reads a result back
    with fuel [depth j + 2] (a fragment's root adds a level).
    [setState_fuel] takes as fuel the depth of nested [setState] calls a
    listener may make (the JavaScript call stack); a non-re-entrant
    listener needs fuel 1 (C15, C16), a listener that calls [setState]
    once from its first notification needs fuel 2 (C17), and fuel 1 is
    the fuel the application
    uses ([app_setState]): its listener never calls [setState].  The
    tree walks of [Browser] take one more than the number of nodes of the
    arena.  Scroll positions and widths are unbounded [Z] (CSS pixels
    as integers); the number of arrow clicks to the end is the ceiling
    [(scrollWidth - clientWidth - scrollLeft + 399) / 400].  Integers are unbounded [Z]: the
    code only writes small literals and list indices.

    ** Not modelled

    Layout is not modelled: the boxes [scrollWidth], [offsetWidth] and
    [clientWidth] of an element come from a parameter [layout] (a
    function of the document), while [scrollLeft] is state; a smooth
    [scrollTo] is taken at its end position.  [document.getElementById]
    is not modelled: the arena is the container's subtree, with the
    container as its parentless root (the rest of the document is not
    modelled), and the application is started with the container already
    found; a missing [#app] (a [null] container) is therefore out of the
    model.  Modelling [getElementById] faithfully needs the container
    inside a document, with ancestors; the creation and render proofs
    use that the container is parentless to discharge the pre-insertion
    check of [appendChild] ([check_insert_root]), and a container with
    ancestors needs an acyclicity invariant of the arena's parent
    pointers that the freshness invariant [doc_fresh] does not give.  Timers are a FIFO queue of the callbacks
    [setTimeout(cb, 0)] scheduled, run one per step; a change event
    carries one of the select's option values.  Strings
    are byte strings: JavaScript's UTF-16 code units and its integer-key
    ordering of object properties are not modelled (no key of the page is
    integer-like).  A [__proto__] ref replaces the prototype of the
    registry in JavaScript; the model keeps it in the prototype slot
    [refs_proto], apart from the own entries, and does not model that
    later refs named like the element's inherited accessors would then
    reach those accessors. *)

From stdpp Require Export base list strings gmap pretty.
From Stdlib Require Export ZArith Ascii.
From Stdlib Require String.

(** ** JavaScript exceptions *)

(** The DOMException names the engine can trigger. *)
Inductive dom_exception :=
| InvalidCharacterError
| HierarchyRequestError
| NotFoundError.

(** An exception raised by a call.  Two constructors are not JavaScript
    exceptions: [EOutOfFuel] marks a fuelled model that ran out of fuel
    (the termination theorems show it never happens with the fuel
    chosen), and [EUnmodelled] marks a run that reaches JavaScript the
    model leaves out: a call of a function value found in the data (an
    object with its own [forEach] or [toUpperCase]), or a property write
    on a plain object passed where a DOM node is expected. *)
Inductive exn :=
| ETypeError (what : string)
| EDOMException (e : dom_exception)
| EOutOfFuel
| EUnmodelled (what : string).

#[export] Instance dom_exception_eq_dec : EqDecision dom_exception.
Proof. solve_decision. Defined.
#[export] Instance exn_eq_dec : EqDecision exn.
Proof. solve_decision. Defined.

(** ** The state and exception monad *)

(** A computation on a state [S] returns a value or raises, and in both
    cases yields the state it reached.  There is no rollback: what was
    done before a raise stays done, as the DOM keeps the changes made
    before an exception. *)
Definition M (S A : Type) : Type := S -> (exn + A) * S.

#[export] Instance M_ret S : MRet (M S) := fun A a s => (inr a, s).
#[export] Instance M_bind S : MBind (M S) :=
  fun A B k m s => match m s with
                   | (inl e, s') => (inl e, s')
                   | (inr a, s') => k a s'
                   end.

Definition throw {S A} (e : exn) : M S A := fun s => (inl e, s).
Definition get_st {S} : M S S := fun s => (inr s, s).
Definition put_st {S} (s : S) : M S unit := fun _ => (inr tt, s).

Declare Scope js_scope.
Delimit Scope js_scope with js.

(** [o !? e] lifts an option into [M], raising [e] on [None]. *)
Definition from_opt {S A} (o : option A) (e : exn) : M S A :=
  match o with Some a => mret a | None => throw e end.
Notation "o !? e" := (from_opt o e) (at level 70, no associativity) : js_scope.

(** [lift_res r] raises the exception of [r] or returns its value. *)
Definition lift_res {S A} (r : exn + A) : M S A :=
  match r with inl e => throw e | inr a => mret a end.

Open Scope js_scope.

(** [forM_ f l] is [l.forEach(f)]: the calls in order, the first raise
    stops the loop. *)
Fixpoint forM_ {S A} (f : A -> M S unit) (l : list A) : M S unit :=
  match l with
  | [] => mret tt
  | x :: l' => f x ;; forM_ f l'
  end.

(** [m] run [n] times in a row: [n] user actions of the same kind. *)
Fixpoint repeatM {S} (n : nat) (m : M S unit) : M S unit :=
  match n with
  | 0 => mret tt
  | S n' => m ;; repeatM n' m
  end.

Section monad_laws.
Context {S : Type}.

Lemma bind_run {A B} (m : M S A) (k : A -> M S B) s :
  (m ≫= k) s = match m s with (inl e, s') => (inl e, s') | (inr a, s') => k a s' end.
Proof. reflexivity. Qed.

Lemma bind_ok {A B} (m : M S A) (k : A -> M S B) s a s' :
  m s = (inr a, s') -> (m ≫= k) s = k a s'.
Proof. intros H. by rewrite bind_run, H. Qed.

Lemma bind_err {A B} (m : M S A) (k : A -> M S B) s e s' :
  m s = (inl e, s') -> (m ≫= k) s = (inl e, s').
Proof. intros H. by rewrite bind_run, H. Qed.

(** Every run of [m ≫= k] is a run of [m] followed, on success, by a
    run of [k]. *)
Lemma bind_inv {A B} (m : M S A) (k : A -> M S B) s r s'' :
  (m ≫= k) s = (r, s'') ->
  (exists e, m s = (inl e, s'') /\ r = inl e) \/
  (exists a s', m s = (inr a, s') /\ k a s' = (r, s'')).
Proof.
  rewrite bind_run. destruct (m s) as [[e|a] s']; intros H.
  - left. injection H as <- <-. eauto.
  - right. eauto.
Qed.

Lemma lift_res_inr {A} (r : exn + A) s a s' :
  lift_res (S:=S) r s = (inr a, s') -> r = inr a /\ s' = s.
Proof. destruct r; simpl; intros [=]; by subst. Qed.

Lemma get_st_run s : (get_st : M S S) s = (inr s, s).
Proof. reflexivity. Qed.

Lemma ret_run {A} (a : A) s : (mret a : M S A) s = (inr a, s).
Proof. reflexivity. Qed.

Lemma forM_app {A} (f : A -> M S unit) l1 l2 s :
  forM_ f (l1 ++ l2) s = (forM_ f l1 ;; forM_ f l2) s.
Proof.
  revert s. induction l1 as [|x l1 IH]; intros s; simpl; [done|].
  rewrite !bind_run. destruct (f x s) as [[e|[]] s']; [done|].
  rewrite IH, bind_run. done.
Qed.

(** Two loops whose bodies agree on the elements of the list agree. *)
Lemma forM_ext {A} (f g : A -> M S unit) l :
  (forall x s, x ∈ l -> f x s = g x s) -> forall s, forM_ f l s = forM_ g l s.
Proof.
  induction l as [|x l IH]; intros Hfg s; simpl; [done|].
  rewrite !bind_run, Hfg by set_solver. destruct (g x s) as [[e|[]] s']; [done|].
  apply IH. intros y s1 Hy. apply Hfg. set_solver.
Qed.
End monad_laws.

(** ** Invariants of computations *)

(** [preserves P m]: every run of [m] from a state satisfying [P], raising
    or not, ends in a state satisfying [P]. *)
Definition preserves {S A} (P : S -> Prop) (m : M S A) : Prop :=
  forall s r s', P s -> m s = (r, s') -> P s'.

Create HintDb js discriminated.
Create Rewrite HintDb js_rw.

Section preserves_lemmas.
Context {S : Type} (P : S -> Prop).

Lemma preserves_ret {A} (a : A) : preserves P (mret a).
Proof. intros s b s' HP H. by injection H as <- <-. Qed.

Lemma preserves_throw {A} e : preserves P (throw (A:=A) e).
Proof. intros s b s' HP H. by injection H as <- <-. Qed.

Lemma preserves_get : preserves P get_st.
Proof. intros s b s' HP H. by injection H as <- <-. Qed.

Lemma preserves_from_opt {A} (o : option A) e : preserves P (o !? e).
Proof. destruct o; [apply preserves_ret|apply preserves_throw]. Qed.

Lemma preserves_lift_res {A} (r : exn + A) : preserves P (lift_res r).
Proof. destruct r; [apply preserves_throw|apply preserves_ret]. Qed.

Lemma preserves_bind {A B} (m : M S A) (k : A -> M S B) :
  preserves P m -> (forall a, preserves P (k a)) -> preserves P (m ≫= k).
Proof.
  intros Hm Hk s b s'' HP H. apply bind_inv in H as [(e & H1 & _)|(a & s' & H1 & H2)].
  - eapply Hm; eauto.
  - eapply Hk; [eapply Hm|]; eauto.
Qed.

Lemma preserves_forM {A} (f : A -> M S unit) l :
  (forall x, x ∈ l -> preserves P (f x)) -> preserves P (forM_ f l).
Proof.
  induction l as [|x l IH]; intros Hf; simpl.
  - apply preserves_ret.
  - apply preserves_bind; [apply Hf; set_solver|].
    intros _. apply IH. intros y Hy. apply Hf. set_solver.
Qed.

Lemma preserves_from_opt_bind {A B} (o : option A) e (k : A -> M S B) :
  (forall x, o = Some x -> preserves P (k x)) -> preserves P ((o !? e) ≫= k).
Proof.
  intros Hk s b s' HP' H. rewrite bind_run in H. destruct o as [x|]; cbn [from_opt] in H.
  - rewrite ret_run in H. cbn beta iota in H. by eapply Hk.
  - unfold throw in H. by simplify_eq.
Qed.

Lemma preserves_lift_res_bind {A B} (r : exn + A) (k : A -> M S B) :
  (forall x, r = inr x -> preserves P (k x)) -> preserves P (lift_res r ≫= k).
Proof.
  intros Hk s b s' HP' H. apply bind_inv in H as [(e & H1 & _)|(a & s1 & H1 & H2)].
  - destruct r; cbv [lift_res throw mret M_ret] in H1; simplify_eq; done.
  - apply lift_res_inr in H1 as [-> ->]. by eapply Hk.
Qed.

Lemma preserves_get_bind {B} (k : S -> M S B) :
  (forall s, P s -> preserves P (k s)) -> preserves P (get_st ≫= k).
Proof. intros Hk s b s' HP' H. rewrite bind_run, get_st_run in H. by eapply Hk. Qed.

Lemma preserves_if {A} (b : bool) (m1 m2 : M S A) :
  preserves P m1 -> preserves P m2 -> preserves P (if b then m1 else m2).
Proof. by destruct b. Qed.
End preserves_lemmas.

#[export] Hint Resolve preserves_ret preserves_throw preserves_get
  preserves_from_opt preserves_lift_res preserves_bind preserves_if : js.

(** [preserves_tac] splits a computation along its binds and branches and
    leaves the primitive steps. *)
Ltac preserves_tac :=
  repeat first
    [ apply preserves_ret | apply preserves_throw | apply preserves_get
    | apply preserves_from_opt | apply preserves_lift_res
    | apply preserves_from_opt_bind; intros ? ?
    | apply preserves_lift_res_bind; intros ? ?
    | apply preserves_bind; [|intro]
    | apply preserves_if
    | match goal with |- preserves _ (match ?x with _ => _ end) => destruct x end ].

(** [run_inv H], for [H : m s = (inr a, s')]: follows [m] along its binds
    and tests, the failing branches being impossible, and keeps the
    equation of each intermediate run. *)
Ltac run_inv H :=
  repeat first
    [ rewrite ret_run in H
    | rewrite bind_run in H; rewrite ret_run in H; cbn beta iota in H
    | rewrite bind_run in H; lazymatch type of H with
      | (match ?y with _ => _ end) = _ =>
          let E := fresh "E" in destruct y as [[?|?] ?] eqn:E; [discriminate|]
      end
    | lazymatch type of H with
      | (if ?b then _ else _) _ = _ => destruct b eqn:?; try discriminate
      end ];
  try (injection H as <- <-).

(** ** ASCII strings *)

(** JavaScript strings are UTF-16; the model keeps the byte string of the
    source text (UTF-8).  Case mapping is ASCII case mapping, which is what
    the DOM does for tag and attribute names; [String.prototype.
    toUpperCase]/[toLowerCase] also map non-ASCII letters, which the model
    does not (the page only uses ASCII tag and property names). *)
Definition ascii_upper (c : ascii) : ascii :=
  let n := nat_of_ascii c in
  if (97 <=? n) && (n <=? 122) then ascii_of_nat (n - 32) else c.
Definition ascii_lower (c : ascii) : ascii :=
  let n := nat_of_ascii c in
  if (65 <=? n) && (n <=? 90) then ascii_of_nat (n + 32) else c.

Fixpoint str_map (f : ascii -> ascii) (s : string) : string :=
  match s with
  | EmptyString => EmptyString
  | String c s' => String (f c) (str_map f s')
  end.

(** [s.toUpperCase()] and [s.toLowerCase()] on ASCII. *)
Definition toUpperCase : string -> string := str_map ascii_upper.
Definition toLowerCase : string -> string := str_map ascii_lower.

(** [s.startsWith(p)] and [s.slice(n)] for [n >= 0]. *)
Definition startsWith (s p : string) : bool := String.prefix p s.
Fixpoint slice (s : string) (n : nat) {struct n} : string :=
  match n, s with
  | 0, _ => s
  | S n', String _ s' => slice s' n'
  | S _, EmptyString => EmptyString
  end.

Definition ascii_in (c : ascii) (lo hi : nat) : bool :=
  (lo <=? nat_of_ascii c) && (nat_of_ascii c <=? hi).
Definition is_ascii_alpha (c : ascii) : bool :=
  ascii_in c 65 90 || ascii_in c 97 122.
Definition is_ascii_digit (c : ascii) : bool := ascii_in c 48 57.
(** ASCII whitespace of the Infra standard: TAB, LF, FF, CR, SPACE. *)
Definition is_ascii_whitespace (c : ascii) : bool :=
  let n := nat_of_ascii c in
  (n =? 9) || (n =? 10) || (n =? 12) || (n =? 13) || (n =? 32).

Fixpoint str_forallb (p : ascii -> bool) (s : string) : bool :=
  match s with
  | EmptyString => true
  | String c s' => p c && str_forallb p s'
  end.

Lemma str_map_app f s1 s2 : str_map f (s1 +:+ s2) = str_map f s1 +:+ str_map f s2.
Proof. induction s1 as [|c s1 IH]; simpl; [done|by rewrite IH]. Qed.

Lemma str_map_length f s : String.length (str_map f s) = String.length s.
Proof. induction s as [|c s IH]; simpl; [done|by rewrite IH]. Qed.

Lemma slice_app p s : slice (p +:+ s) (String.length p) = s.
Proof. induction p as [|c p IH]; [done|exact IH]. Qed.

#[export] Hint Rewrite str_map_app str_map_length slice_app : js_rw.

(** ** Association lists *)

(** [assoc k l]: the value of the first binding of [k] in [l]. *)
Fixpoint assoc {A} (k : string) (l : list (string * A)) : option A :=
  match l with
  | [] => None
  | (k', v) :: l' => if String.eqb k k' then Some v else assoc k l'
  end.

Lemma assoc_elem_of {A} k (l : list (string * A)) v :
  assoc k l = Some v -> (k, v) ∈ l.
Proof.
  induction l as [|[k' v'] l IH]; simpl; [done|].
  destruct (String.eqb_spec k k') as [->|]; [intros [= ->]; set_solver|].
  intros H. apply IH in H. set_solver.
Qed.

Lemma assoc_None {A} k (l : list (string * A)) :
  assoc k l = None <-> k ∉ l.*1.
Proof.
  induction l as [|[k' v'] l IH]; simpl; [set_solver|].
  destruct (String.eqb_spec k k') as [->|Hne]; [split; [done|set_solver]|].
  rewrite IH. set_solver.
Qed.

(** [assoc_set k v l]: the binding of [k] changed in place, or appended
    (the order of a JavaScript object's keys under assignment). *)
Fixpoint assoc_set {A} (k : string) (v : A) (l : list (string * A)) : list (string * A) :=
  match l with
  | [] => [(k, v)]
  | (k', v') :: l' => if String.eqb k' k then (k', v) :: l' else (k', v') :: assoc_set k v l'
  end.

Lemma assoc_assoc_set {A} k k' (v : A) l :
  assoc k (assoc_set k' v l) = if String.eqb k k' then Some v else assoc k l.
Proof.
  induction l as [|[j w] l IH]; simpl.
  - by destruct (String.eqb k k').
  - destruct (String.eqb_spec j k') as [->|Hj]; simpl.
    + destruct (String.eqb_spec k k'); done.
    + rewrite IH. destruct (String.eqb_spec k j), (String.eqb_spec k k'); congruence.
Qed.

Lemma assoc_app {A} k (l1 l2 : list (string * A)) :
  assoc k (l1 ++ l2) = match assoc k l1 with Some v => Some v | None => assoc k l2 end.
Proof. induction l1 as [|[k' v'] l1 IH]; simpl; [done|]. by destruct (String.eqb k k'). Qed.

(** ** Results *)

(** [map_res g l]: [g] on each element in order, the first error wins. *)
Fixpoint map_res {A B} (g : A -> exn + B) (l : list A) : exn + list B :=
  match l with
  | [] => inr []
  | x :: l' => match g x with
               | inl e => inl e
               | inr b => match map_res g l' with inl e => inl e | inr bs => inr (b :: bs) end
               end
  end.

(** [fold_res g l b]: [g] folded over [l] from [b], the first error wins. *)
Fixpoint fold_res {A B} (g : A -> B -> exn + B) (l : list A) (b : B) : exn + B :=
  match l with
  | [] => inr b
  | x :: l' => match g x b with inl e => inl e | inr b' => fold_res g l' b' end
  end.

Lemma map_res_inl {A B} (g : A -> exn + B) l e :
  map_res g l = inl e -> exists x, x ∈ l /\ g x = inl e.
Proof.
  induction l as [|x l IH]; simpl; [done|].
  destruct (g x) eqn:Hg; intros H; [simplify_eq; exists x; split; [left|done]|].
  destruct (map_res g l) eqn:Hm; simplify_eq.
  destruct (IH eq_refl) as (y & Hy & Hgy). exists y. split; [by right|done].
Qed.

Lemma fold_res_inl {A B} (g : A -> B -> exn + B) l b e :
  fold_res g l b = inl e -> exists x b', x ∈ l /\ g x b' = inl e.
Proof.
  revert b. induction l as [|x l IH]; intros b; simpl; [done|].
  destruct (g x b) eqn:Hg; intros H; [simplify_eq; exists x, b; split; [left|done]|].
  destruct (IH _ H) as (y & b' & Hy & Hgy). exists y, b'. split; [by right|done].
Qed.

Lemma filter_neq_notin (l : list nat) x : x ∉ l -> filter (fun y => y <> x) l = l.
Proof.
  induction l as [|y l IH]; intros Hx; [done|]. rewrite filter_cons_True by set_solver.
  f_equal. apply IH. set_solver.
Qed.

Lemma length_filter_neq_NoDup (l : list nat) x :
  NoDup l -> x ∈ l -> length (filter (fun y => y <> x) l) = length l - 1.
Proof.
  induction l as [|y l IH]; intros Hnd Hx; [set_solver|]. apply NoDup_cons in Hnd as [Hy Hnd].
  destruct (decide (y = x)) as [->|Hyx].
  - rewrite filter_cons_False by tauto. rewrite filter_neq_notin by done. simpl. lia.
  - rewrite filter_cons_True by done. apply elem_of_cons in Hx as [->|Hx]; [done|].
    simpl. rewrite IH by done. destruct l; [set_solver|simpl; lia].
Qed.
