(* ===== verification/JsValue.v ===== *)
(** * JavaScript values and the element-tree model

    The engine of [src/native-app.js] receives plain JavaScript data: the
    JSON-like trees built by the page generators.  [jval] is that data.
    Objects are lists of own properties in JavaScript's enumeration order
    (integer-like keys first, then insertion order), so [Object.entries]
    is the list itself; functions are opaque and carry their identity,
    which is all the engine observes of them ([addEventListener] and [===]).

    This file holds the coercions the engine uses ([!v], [typeof v],
    [String(v)], [v.key], [Object.entries(v)]) and [classify], the
    dispatch at the head of [DOMGenerator.createElement] (lines 10-27):
    the closed variant [etree] the permissive JavaScript shape-sniffing
    amounts to (spec sections 3 and 9). *)

From S2P Require Import Prelude.

Inductive jval :=
| JUndefined
| JNull
| JBool (b : bool)
| JNum (n : Z)
| JStr (s : string)
| JArr (xs : list jval)
| JObj (fields : list (string * jval))
| JFun (id : nat).

(** ** Induction and size *)

(** The nested induction principle: the hypothesis holds of every element
    of an array and of every property value of an object. *)
Section jval_induction.
Variable P : jval -> Prop.
Hypothesis HUndefined : P JUndefined.
Hypothesis HNull : P JNull.
Hypothesis HBool : forall b, P (JBool b).
Hypothesis HNum : forall n, P (JNum n).
Hypothesis HStr : forall s, P (JStr s).
Hypothesis HArr : forall xs, Forall P xs -> P (JArr xs).
Hypothesis HObj : forall fs, Forall (fun kv => P kv.2) fs -> P (JObj fs).
Hypothesis HFun : forall i, P (JFun i).

Fixpoint jval_ind' (v : jval) : P v :=
  match v with
  | JUndefined => HUndefined
  | JNull => HNull
  | JBool b => HBool b
  | JNum n => HNum n
  | JStr s => HStr s
  | JArr xs => HArr xs
      ((fix go (l : list jval) : Forall P l :=
          match l with
          | [] => @List.Forall_nil _ P
          | x :: l' => @List.Forall_cons _ P x l' (jval_ind' x) (go l')
          end) xs)
  | JObj fs => HObj fs
      ((fix go (l : list (string * jval)) : Forall (fun kv => P kv.2) l :=
          match l with
          | [] => @List.Forall_nil _ (fun kv => P kv.2)
          | kv :: l' => @List.Forall_cons _ (fun kv => P kv.2) kv l' (jval_ind' kv.2) (go l')
          end) fs)
  | JFun i => HFun i
  end.
End jval_induction.

(** Nesting depth: the fuel of the recursive engine functions. *)
Fixpoint depth (v : jval) : nat :=
  match v with
  | JArr xs => S (fold_right (fun x m => depth x `max` m) 0 xs)
  | JObj fs => S (fold_right (fun kv m => depth kv.2 `max` m) 0 fs)
  | _ => 0
  end.

Fixpoint jval_eqb (x y : jval) : bool :=
  match x, y with
  | JUndefined, JUndefined | JNull, JNull => true
  | JBool a, JBool b => Bool.eqb a b
  | JNum a, JNum b => Z.eqb a b
  | JStr a, JStr b => String.eqb a b
  | JFun a, JFun b => Nat.eqb a b
  | JArr xs, JArr ys =>
      (fix go xs ys := match xs, ys with
         | [], [] => true
         | x :: xs, y :: ys => jval_eqb x y && go xs ys
         | _, _ => false end) xs ys
  | JObj fs, JObj gs =>
      (fix go fs gs := match fs, gs with
         | [], [] => true
         | (k, x) :: fs, (l, y) :: gs => String.eqb k l && jval_eqb x y && go fs gs
         | _, _ => false end) fs gs
  | _, _ => false
  end.

(** ** Coercions *)

(** [!!v]: ToBoolean. *)
Definition truthy (v : jval) : bool :=
  match v with
  | JUndefined | JNull => false
  | JBool b => b
  | JNum n => negb (Z.eqb n 0)
  | JStr s => negb (String.eqb s "")
  | JArr _ | JObj _ | JFun _ => true
  end.

Inductive js_type := TUndefined | TObject | TBoolean | TNumber | TString | TFunction.

(** [typeof v]; [typeof null === "object"]. *)
Definition typeof (v : jval) : js_type :=
  match v with
  | JUndefined => TUndefined
  | JNull | JArr _ | JObj _ => TObject
  | JBool _ => TBoolean
  | JNum _ => TNumber
  | JStr _ => TString
  | JFun _ => TFunction
  end.

(** Number-to-string for the integers the model keeps (exact for
    magnitudes below 10^21, where JavaScript switches to exponents). *)
Definition number_to_string (n : Z) : string := pretty n.

(** [String(v)].  Arrays join their elements with commas, [null] and
    [undefined] elements giving the empty string; plain objects give
    ["[object Object]"].  The source text a function prints is not
    modelled: every function prints as a native function. *)
Fixpoint to_string (v : jval) : string :=
  match v with
  | JUndefined => "undefined"
  | JNull => "null"
  | JBool true => "true"
  | JBool false => "false"
  | JNum n => number_to_string n
  | JStr s => s
  | JArr xs =>
      (fix join (l : list jval) : string :=
         match l with
         | [] => ""
         | [x] => match x with JUndefined | JNull => "" | _ => to_string x end
         | x :: l' =>
             (match x with JUndefined | JNull => "" | _ => to_string x end)
               +:+ "," +:+ join l'
         end) xs
  | JObj _ => "[object Object]"
  | JFun _ => "function () { [native code] }"
  end.

(** [v[k]] for the reads the code makes: own properties of objects
    (absent ones read [undefined]: no object of the page has an inherited
    property the engine reads) and the [length] of arrays and strings. *)
Definition get (v : jval) (k : string) : jval :=
  match v with
  | JObj fs => default JUndefined (assoc k fs)
  | JArr xs => if String.eqb k "length" then JNum (Z.of_nat (length xs)) else JUndefined
  | JStr s => if String.eqb k "length" then JNum (Z.of_nat (String.length s)) else JUndefined
  | _ => JUndefined
  end.

Fixpoint string_chars (s : string) : list string :=
  match s with
  | EmptyString => []
  | String c s' => String c EmptyString :: string_chars s'
  end.

(** [Object.entries(v)], [None] where it throws (on [null] and
    [undefined]).  A string's entries are its characters, an array's its
    elements, keyed by their index. *)
Definition entries (v : jval) : option (list (string * jval)) :=
  match v with
  | JUndefined | JNull => None
  | JObj fs => Some fs
  | JArr xs => Some (imap (fun i x => (pretty (N.of_nat i), x)) xs)
  | JStr s => Some (imap (fun i c => (pretty (N.of_nat i), JStr c)) (string_chars s))
  | JBool _ | JNum _ | JFun _ => Some []
  end.

(** [a === b].  Objects and arrays are compared by reference in
    JavaScript; the engine only compares them against primitives
    (strings, numbers, [undefined]), where they are never equal, so
    the model answers [false] for two of them. *)
Definition strict_eq (a b : jval) : bool :=
  match a, b with
  | JUndefined, JUndefined | JNull, JNull => true
  | JBool x, JBool y => Bool.eqb x y
  | JNum x, JNum y => Z.eqb x y
  | JStr x, JStr y => String.eqb x y
  | JFun x, JFun y => Nat.eqb x y
  | _, _ => false
  end.

(** A JavaScript object's own properties are distinct, recursively. *)
Fixpoint jval_wf (v : jval) : bool :=
  match v with
  | JArr xs => forallb jval_wf xs
  | JObj fs => bool_decide (NoDup fs.*1) && forallb (fun kv => jval_wf kv.2) fs
  | _ => true
  end.

(** ** The element-tree model *)

(** What [createElement] makes of a value, read off its first lines:
    a string or number is a text leaf; an array is a fragment; an object
    with a truthy [tag] is a tagged element, destructured with
    [props = {}] and [children = []] as defaults for [undefined]; anything
    else ([null], [undefined], booleans, functions, objects with a falsy
    [tag]) is absent. *)
Inductive etree :=
| ETText (text : string)
| ETFragment (items : list jval)
| ETTagged (tag props children ref : jval)
| ETAbsent.

Definition default_undefined (v d : jval) : jval :=
  match v with JUndefined => d | _ => v end.

Definition classify (v : jval) : etree :=
  match v with
  | JStr s => ETText s
  | JNum n => ETText (number_to_string n)
  | JArr xs => ETFragment xs
  | JObj _ =>
      if truthy (get v "tag") then
        ETTagged (get v "tag")
                 (default_undefined (get v "props") (JObj []))
                 (default_undefined (get v "children") (JArr []))
                 (get v "ref")
      else ETAbsent
  | JUndefined | JNull | JBool _ | JFun _ => ETAbsent
  end.

(** ** Lemmas *)

Lemma depth_arr_elem x xs : x ∈ xs -> depth x < depth (JArr xs).
Proof.
  simpl. induction xs as [|y xs IH]; intros Hx; [set_solver|].
  simpl. apply elem_of_cons in Hx as [->|Hx]; [lia|]. specialize (IH Hx). lia.
Qed.


Lemma depth_obj_field k v fs : (k, v) ∈ fs -> depth v < depth (JObj fs).
Proof.
  simpl. induction fs as [|[k' v'] fs IH]; intros Hx; [set_solver|].
  simpl. apply elem_of_cons in Hx as [Heq|Hx]; [simplify_eq/=; lia|].
  specialize (IH Hx). lia.
Qed.

(** ** Decidable equality *)


Lemma jval_eqb_eq x y : jval_eqb x y = true <-> x = y.
Proof.
  revert y. induction x as [| | b | n | s | xs IH | fs IH | i] using jval_ind';
    intros [| | b' | n' | s' | ys | gs | i']; simpl; try (split; congruence).
  - rewrite Bool.eqb_true_iff. split; congruence.
  - rewrite Z.eqb_eq. split; congruence.
  - rewrite String.eqb_eq. split; congruence.
  - revert ys. induction IH as [|x xs Hx _ IHxs]; intros [|y ys]; try (split; congruence).
    rewrite andb_true_iff, Hx, IHxs. split; [intros [-> [=->]]|intros [=-> ->]]; done.
  - revert gs. induction IH as [|[k x] fs Hx _ IHfs]; intros [|[l y] gs]; try (split; congruence).
    simpl in Hx. rewrite !andb_true_iff, String.eqb_eq, Hx, IHfs.
    split; [intros [[-> ->] [=->]]|intros [=-> -> ->]]; done.
  - rewrite Nat.eqb_eq. split; congruence.
Qed.


#[export] Instance jval_eq_dec : EqDecision jval.
Proof.
  intros x y. destruct (jval_eqb x y) eqn:E.
  - left. by apply jval_eqb_eq.
  - right. intros ->. assert (jval_eqb y y = true) by by apply jval_eqb_eq. congruence.
Defined.

#[export] Instance js_type_eq_dec : EqDecision js_type.
Proof. solve_decision. Defined.


Lemma get_obj_depth fs k : depth (get (JObj fs) k) < depth (JObj fs).
Proof.
  unfold get. destruct (assoc k fs) as [v|] eqn:E; simpl.
  - apply assoc_elem_of, depth_obj_field in E. done.
  - lia.
Qed.


Lemma classify_tagged_depth v tag props children ref :
  classify v = ETTagged tag props children ref ->
  depth children < depth v \/ children = JArr [].
Proof.
  destruct v as [| | | | | |fs|]; cbn [classify]; try discriminate.
  destruct (truthy _); [|discriminate]. intros [= _ _ <- _].
  pose proof (get_obj_depth fs "children") as Hd.
  unfold get in Hd. destruct (default JUndefined (assoc "children" fs)); cbn [default_undefined];

    first [right; reflexivity | left; exact Hd].
Qed.


Lemma classify_fragment v items : classify v = ETFragment items -> v = JArr items.
Proof. destruct v; simpl; repeat case_match; congruence. Qed.


