(* ===== verification/Dom.v ===== *)
(** * The host rendering surface: a DOM arena

    The engine only talks to the browser through a handful of DOM calls
    (spec section 6).  This file models them after the WHATWG DOM standard
    as operations of the monad [M doc] on an arena of nodes: a [gmap] from
    node identities to node records, and the next free identity.  A node
    is an element (its local name, attribute list, inline style, event
    listeners), a text node or a document fragment; every node has a child
    list and a parent pointer.  The operations raise the DOMExceptions of
    the standard ([InvalidCharacterError] for bad names,
    [HierarchyRequestError] for impossible insertions, [NotFoundError] for
    a missing child).

    The abstract reading of a live subtree is [view]: the tree of
    [vnode]s below a node, which is what the engine's refinement theorem
    compares with the denotation of a JSON tree.  This part is not code of
    the repository; it is the environment the repository's code calls.

    Not modelled: documents other than one HTML document, namespaces,
    mutation observers, live ranges, custom elements, the CSS parser (a
    style property keeps the string it is given). *)

From S2P Require Import Prelude JsValue.

Inductive node_kind :=
| NElement (localName : string)
| NText (data : string)
| NFragment.

Record node := mkNode {
  kind : node_kind;
  attrs : list (string * string);
  style : list (string * string);
  listeners : list (string * jval);
  children : list nat;
  parent : option nat
}.

Record doc := mkDoc {
  nodes : gmap nat node;
  next_id : nat
}.

#[export] Instance node_kind_eq_dec : EqDecision node_kind.
Proof. solve_decision. Defined.

Definition blank (k : node_kind) : node := mkNode k [] [] [] [] None.

(** [element.tagName]: the qualified name in ASCII upper case (HTML
    element of an HTML document). *)
Definition tagName (nd : node) : jval :=
  match kind nd with
  | NElement ln => JStr (toUpperCase ln)
  | _ => JUndefined
  end.

(** ** Node access *)

Definition get_node (i : nat) : M doc node :=
  fun d => match nodes d !! i with
           | Some nd => (inr nd, d)
           | None => (inl (ETypeError "not a node"), d)
           end.

Definition put_node (i : nat) (nd : node) : M doc unit :=
  fun d => (inr tt, mkDoc (<[i := nd]> (nodes d)) (next_id d)).

(** Apply a change that may raise to one node. *)
Definition update_node (i : nat) (f : node -> exn + node) : M doc unit :=
  nd ← get_node i;
  match f nd with
  | inl e => throw e
  | inr nd' => put_node i nd'
  end.

Definition alloc (nd : node) : M doc nat :=
  fun d => (inr (next_id d), mkDoc (<[next_id d := nd]> (nodes d)) (S (next_id d))).

Definition set_parent (p : option nat) (nd : node) : node :=
  mkNode (kind nd) (attrs nd) (style nd) (listeners nd) (children nd) p.
Definition set_children (cs : list nat) (nd : node) : node :=
  mkNode (kind nd) (attrs nd) (style nd) (listeners nd) cs (parent nd).
Definition set_attrs (a : list (string * string)) (nd : node) : node :=
  mkNode (kind nd) a (style nd) (listeners nd) (children nd) (parent nd).
Definition set_style (s : list (string * string)) (nd : node) : node :=
  mkNode (kind nd) (attrs nd) s (listeners nd) (children nd) (parent nd).
Definition set_listeners (l : list (string * jval)) (nd : node) : node :=
  mkNode (kind nd) (attrs nd) (style nd) l (children nd) (parent nd).

(** ** Names *)

(** "Valid element local name" (DOM standard): an ASCII letter followed by
    anything but ASCII whitespace, NULL, [/] and [>]; or a [:], [_] or
    non-ASCII first character followed by ASCII alphanumerics, [-], [.],
    [:], [_] and non-ASCII characters. *)
Definition not_in_name (c : ascii) : bool :=
  is_ascii_whitespace c || (nat_of_ascii c =? 0) || (nat_of_ascii c =? 47)
  || (nat_of_ascii c =? 62).

Definition valid_element_local_name (s : string) : bool :=
  match s with
  | EmptyString => false
  | String c rest =>
      if is_ascii_alpha c then str_forallb (fun c => negb (not_in_name c)) rest
      else ((nat_of_ascii c =? 58) || (nat_of_ascii c =? 95) || (128 <=? nat_of_ascii c))
           && str_forallb (fun c => is_ascii_alpha c || is_ascii_digit c
                || (nat_of_ascii c =? 45) || (nat_of_ascii c =? 46) || (nat_of_ascii c =? 58)
                || (nat_of_ascii c =? 95) || (128 <=? nat_of_ascii c)) rest
  end.

(** "Valid attribute local name": non-empty, without ASCII whitespace,
    NULL, [/], [=] or [>]. *)
Definition valid_attribute_local_name (s : string) : bool :=
  negb (String.eqb s "") &&
  str_forallb (fun c => negb (not_in_name c || (nat_of_ascii c =? 61))) s.

(** ** Node creation *)

(** [document.createElement(localName)] on an HTML document: the name is
    validated, then lower-cased. *)
Definition doc_createElement (localName : string) : M doc nat :=
  if valid_element_local_name localName
  then alloc (blank (NElement (toLowerCase localName)))
  else throw (EDOMException InvalidCharacterError).

Definition doc_createTextNode (data : string) : M doc nat :=
  alloc (blank (NText data)).

Definition doc_createDocumentFragment : M doc nat :=
  alloc (blank NFragment).

(** ** Attributes, style, listeners (changes of one node) *)

Fixpoint attr_set (name value : string) (a : list (string * string)) :=
  match a with
  | [] => [(name, value)]
  | (n, v) :: a' => if String.eqb n name then (n, value) :: a' else (n, v) :: attr_set name value a'
  end.

(** [el.setAttribute(name, value)] on an element: validate, lower-case,
    change the value in place or append a new attribute.  On a text node
    or a fragment, [setAttribute] is not a function. *)
Definition node_setAttribute (name value : string) (nd : node) : exn + node :=
  match kind nd with
  | NElement _ =>
      if valid_attribute_local_name name
      then inr (set_attrs (attr_set (toLowerCase name) value (attrs nd)) nd)
      else inl (EDOMException InvalidCharacterError)
  | _ => inl (ETypeError "setAttribute is not a function")
  end.

(** [el.className = value]: reflects the [class] attribute.  On a node
    that is not an element the assignment creates an ordinary JavaScript
    property, invisible to the DOM. *)
Definition node_setClassName (value : string) (nd : node) : exn + node :=
  match kind nd with
  | NElement _ => inr (set_attrs (attr_set "class" value (attrs nd)) nd)
  | _ => inr nd
  end.

(** A canonical array index: digits, without a leading zero. *)
Definition is_array_index (k : string) : bool :=
  match k with
  | EmptyString => false
  | String c rest =>
      str_forallb is_ascii_digit k && (negb (nat_of_ascii c =? 48) || String.eqb rest "")
  end.

(** [Object.assign(el.style, value)] for the entries of [value]: each
    becomes a style property holding [String(v)]; an array-index key
    throws, since a [CSSStyleDeclaration]'s indexed properties are
    read-only.  [Object.assign] skips a [null] or [undefined] source.
    [el.style] of a non-element is [undefined]: a TypeError. *)
Definition node_assignStyle (es : list (string * jval)) (nd : node) : exn + node :=
  match kind nd with
  | NElement _ =>
      fold_left (fun acc kv =>
        match acc with
        | inl e => inl e
        | inr nd =>
            if is_array_index kv.1 then inl (ETypeError "Cannot assign to read only property")
            else inr (set_style (attr_set kv.1 (to_string kv.2) (style nd)) nd)
        end) es (inr nd)
  | _ => inl (ETypeError "Cannot convert undefined or null to object")
  end.

(** [target.addEventListener(type, callback)]: a [null] or [undefined]
    callback is ignored; a primitive is not an [EventListener]; an entry
    with the same type and the same callback is not added twice. *)
Definition node_addEventListener (type : string) (cb : jval) (nd : node) : exn + node :=
  match cb with
  | JUndefined | JNull => inr nd
  | JFun _ | JObj _ | JArr _ =>
      if existsb (fun tl => String.eqb tl.1 type && strict_eq tl.2 cb) (listeners nd)
      then inr nd
      else inr (set_listeners (listeners nd ++ [(type, cb)]) nd)
  | _ => inl (ETypeError "parameter 2 is not of type 'Object'")
  end.

Definition setAttribute i name value := update_node i (node_setAttribute name value).
Definition setClassName i value := update_node i (node_setClassName value).
Definition assignStyle i es := update_node i (node_assignStyle es).
Definition addEventListener i type cb := update_node i (node_addEventListener type cb).

(** ** Tree mutation *)

(** The ancestors of a node, nearest first; the fuel is the number of
    nodes, which bounds every parent chain of an acyclic arena. *)
Fixpoint ancestors_fuel (fuel : nat) (ns : gmap nat node) (i : nat) : list nat :=
  match fuel with
  | 0 => []
  | S f =>
      match ns !! i with
      | Some nd => match parent nd with
                   | Some p => p :: ancestors_fuel f ns p
                   | None => []
                   end
      | None => []
      end
  end.

Definition ancestors (d : doc) (i : nat) : list nat :=
  ancestors_fuel (S (size (nodes d))) (nodes d) i.

(** [node] is an inclusive ancestor of [p]. *)
Definition inclusive_ancestor (d : doc) (node p : nat) : bool :=
  (node =? p) || bool_decide (node ∈ ancestors d p).

(** Change one node. *)
Definition modify_node (i : nat) (f : node -> node) : M doc unit :=
  nd ← get_node i; put_node i (f nd).

(** Set the parent pointer of each of [cs]. *)
Definition set_parents (p : option nat) (cs : list nat) : M doc unit :=
  forM_ (fun c => modify_node c (set_parent p)) cs.

(** Remove [c] from its parent, if it has one. *)
Definition detach (c : nat) : M doc unit :=
  cn ← get_node c;
  match parent cn with
  | None => mret tt
  | Some p =>
      modify_node p (fun pn => set_children (filter (fun x => x <> c) (children pn)) pn) ;;
      modify_node c (set_parent None)
  end.

(** The position of [ref] in [cs], or the end. *)
Definition insert_pos (cs : list nat) (ref : option nat) : nat :=
  match ref with
  | None => length cs
  | Some r => default (length cs) ((fun ix => ix.1) <$> list_find (fun x => x = r) cs)
  end.

(** Insert the nodes [ns] (all parentless) into [p] before [ref], or at
    the end when [ref] is [None]. *)
Definition insert_nodes (p : nat) (ns : list nat) (ref : option nat) : M doc unit :=
  modify_node p (fun pn => let k := insert_pos (children pn) ref in
                           set_children (take k (children pn) ++ ns ++ drop k (children pn)) pn) ;;
  set_parents (Some p) ns.

(** The nodes an insertion of [node] brings: a fragment's children (which
    leave the fragment), or [node] itself (which leaves its parent). *)
Definition take_nodes (node : nat) : M doc (list nat) :=
  nd ← get_node node;
  match kind nd with
  | NFragment =>
      modify_node node (set_children []) ;;
      set_parents None (children nd) ;;
      mret (children nd)
  | _ => detach node ;; mret [node]
  end.

(** Steps 1-2 of "ensure pre-insert validity": the parent must be able
    to have children, and the node must not be an inclusive ancestor of
    the parent. *)
Definition check_insert (p node : nat) : M doc unit :=
  pn ← get_node p;
  d ← get_st;
  match kind pn with
  | NText _ => throw (EDOMException HierarchyRequestError)
  | _ => if inclusive_ancestor d node p
         then throw (EDOMException HierarchyRequestError)
         else mret tt
  end.

(** [p.appendChild(node)]: returns [node]. *)
Definition appendChild (p node : nat) : M doc nat :=
  check_insert p node ;;
  ns ← take_nodes node;
  insert_nodes p ns None ;;
  mret node.

(** [p.removeChild(child)]: [NotFoundError] unless [child] is a child of
    [p]; returns [child]. *)
Definition removeChild (p child : nat) : M doc nat :=
  cn ← get_node child;
  if decide (parent cn = Some p) then detach child ;; mret child
  else throw (EDOMException NotFoundError).

Definition next_sibling (cs : list nat) (c : nat) : option nat :=
  match list_find (fun x => x = c) cs with
  | Some (ix, _) => cs !! S ix
  | None => None
  end.

(** [p.replaceChild(node, child)] ("replace" of the DOM standard):
    returns [child]. *)
Definition replaceChild (p node child : nat) : M doc nat :=
  check_insert p node ;;
  cn ← get_node child;
  if decide (parent cn = Some p) then
    pn ← get_node p;
    let r := next_sibling (children pn) child in
    let r' := if decide (r = Some node) then next_sibling (children pn) node else r in
    detach child ;;
    ns ← take_nodes node;
    insert_nodes p ns r' ;;
    mret child
  else throw (EDOMException NotFoundError).

(** [container.innerHTML = ""]: every child leaves the container. *)
Definition clearChildren (p : nat) : M doc unit :=
  pn ← get_node p;
  set_parents None (children pn) ;;
  modify_node p (set_children []).

(** ** Reading a live subtree back *)

(** What a user of the page sees of a subtree: text leaves and elements
    with their name, attributes, style, listeners and children. *)
Inductive vnode :=
| VText (data : string)
| VElement (localName : string) (attrs style : list (string * string))
           (listeners : list (string * jval)) (kids : list vnode).

Fixpoint view (fuel : nat) (ns : gmap nat node) (i : nat) : option (list vnode) :=
  match fuel with
  | 0 => None
  | S f =>
      nd ← ns !! i;
      let kids := mapM (view f ns) (children nd) in
      match kind nd with
      | NText s => Some [VText s]
      | NElement ln => ks ← kids; Some [VElement ln (attrs nd) (style nd) (listeners nd) (concat ks)]
      | NFragment => ks ← kids; Some (concat ks)
      end
  end.

(** The reading of what [createElement] returns: nothing for [null], the
    children of a fragment, or the node. *)
Definition view_result (fuel : nat) (ns : gmap nat node) (r : option nat) : option (list vnode) :=
  match r with
  | None => Some []
  | Some i => view fuel ns i
  end.
