(* ===== verification/DomFacts.v ===== *)
(** * Facts about the DOM arena

    Run lemmas for the DOM operations of [Dom] on the states where they
    succeed, the freshness invariant of the arena, and the robust reading
    of live subtrees: [agree_on lo hi] relates two arenas that hold the
    same nodes in the identity range [lo, hi) up to parent pointers, and
    [rview lo hi f ns i v] says that node [i] reads back as [v] in every
    arena that agrees with [ns] on that range.  The engine's refinement
    proof builds subtrees in disjoint ranges of fresh identities, and
    these lemmas carry their readings across the later steps. *)

From S2P Require Import Prelude JsValue Dom.

(** Every allocated identity is below [next_id]. *)
Definition doc_fresh (d : doc) : Prop :=
  forall i, is_Some (nodes d !! i) -> i < next_id d.

#[export] Instance doc_fresh_dec d : Decision (doc_fresh d).
Proof.
  destruct (decide (map_Forall (fun i (_ : node) => i < next_id d) (nodes d))) as [H|H]; [left|right].
  - intros i [x Hx]. by apply (H i x).
  - intros Hf. apply H. intros i x Hx. apply Hf. by eexists.
Defined.

(** ** Runs of the primitive operations *)

Section runs.
Implicit Types (d : doc) (nd : node).

Lemma get_node_run d i nd : nodes d !! i = Some nd -> get_node i d = (inr nd, d).
Proof. intros H. unfold get_node. by rewrite H. Qed.

Lemma modify_node_run d i nd f :
  nodes d !! i = Some nd ->
  modify_node i f d = (inr tt, mkDoc (<[i := f nd]> (nodes d)) (next_id d)).
Proof. intros H. unfold modify_node. by rewrite (bind_ok _ _ _ _ _ (get_node_run _ _ _ H)). Qed.

Lemma update_node_run d i nd f nd' :
  nodes d !! i = Some nd -> f nd = inr nd' ->
  update_node i f d = (inr tt, mkDoc (<[i := nd']> (nodes d)) (next_id d)).
Proof.
  intros H Hf. unfold update_node. rewrite (bind_ok _ _ _ _ _ (get_node_run _ _ _ H)), Hf.
  done.
Qed.

Lemma update_node_err d i nd f e :
  nodes d !! i = Some nd -> f nd = inl e -> update_node i f d = (inl e, d).
Proof.
  intros H Hf. unfold update_node. by rewrite (bind_ok _ _ _ _ _ (get_node_run _ _ _ H)), Hf.
Qed.

Lemma alloc_run d nd :
  alloc nd d = (inr (next_id d), mkDoc (<[next_id d := nd]> (nodes d)) (S (next_id d))).
Proof. reflexivity. Qed.

Lemma set_parent_idem x y nd : set_parent x (set_parent y nd) = set_parent x nd.
Proof. by destruct nd. Qed.

(** [set_parents x cs] changes the parent pointer of [cs] and nothing
    else. *)
Lemma set_parents_run d x cs :
  Forall (fun c => is_Some (nodes d !! c)) cs ->
  exists ns', set_parents x cs d = (inr tt, mkDoc ns' (next_id d)) /\
    forall i, ns' !! i = if bool_decide (i ∈ cs) then set_parent x <$> nodes d !! i
                         else nodes d !! i.
Proof.
  revert d. induction cs as [|c cs IH]; intros d Hex.
  - exists (nodes d). split; [by destruct d|]. intros i. by rewrite bool_decide_false by set_solver.
  - apply Forall_cons in Hex as [[nd Hc] Hex].
    unfold set_parents. simpl. rewrite (bind_ok _ _ _ _ _ (modify_node_run _ _ _ _ Hc)).
    destruct (IH (mkDoc (<[c := set_parent x nd]> (nodes d)) (next_id d))) as (ns' & Hrun & Hns').
    { eapply Forall_impl; [exact Hex|]. intros y [v Hy]. simpl.
      destruct (decide (y = c)) as [->|]; [by rewrite lookup_insert_eq|by rewrite lookup_insert_ne]. }
    exists ns'. split; [exact Hrun|]. intros i. rewrite Hns'. simpl.
    destruct (decide (i = c)) as [->|Hne].
    + rewrite lookup_insert_eq, Hc, (bool_decide_true (c ∈ c :: cs)) by set_solver.
      case_bool_decide; simpl; by rewrite ?set_parent_idem.
    + rewrite lookup_insert_ne by done.
      case_bool_decide; case_bool_decide; set_solver.
Qed.
End runs.

(** ** Agreement of arenas on a range, up to parent pointers *)

Definition strip (nd : node) : node := set_parent None nd.

Definition agree_on (lo hi : nat) (ns ns' : gmap nat node) : Prop :=
  forall i, lo <= i < hi -> strip <$> ns !! i = strip <$> ns' !! i.

#[export] Instance agree_on_equiv lo hi : Equivalence (agree_on lo hi).
Proof.
  split.
  - intros ns i _. done.
  - intros ns ns' H i Hi. by rewrite H.
  - intros ns1 ns2 ns3 H12 H23 i Hi. by rewrite H12, H23.
Qed.

Definition rview (lo hi f : nat) (ns : gmap nat node) (i : nat) (v : list vnode) : Prop :=
  forall ns', agree_on lo hi ns ns' -> view f ns' i = Some v.

Definition inserted (n : nat) (nn : node) : list nat :=
  match kind nn with NFragment => children nn | _ => [n] end.

Lemma agree_on_mono lo hi lo' hi' ns ns' :
  lo <= lo' -> hi' <= hi -> agree_on lo hi ns ns' -> agree_on lo' hi' ns ns'.
Proof. intros ?? H i Hi. apply H. lia. Qed.

Lemma agree_on_insert_out lo hi ns i nd :
  ~ (lo <= i < hi) -> agree_on lo hi ns (<[i := nd]> ns).
Proof. intros Hi j Hj. rewrite lookup_insert_ne; [done|]. intros ->. lia. Qed.

Lemma agree_on_insert_parent lo hi ns i nd x :
  ns !! i = Some nd -> agree_on lo hi ns (<[i := set_parent x nd]> ns).
Proof.
  intros Hi j Hj. destruct (decide (i = j)) as [->|Hne].
  - rewrite lookup_insert_eq, Hi. simpl. unfold strip. by rewrite set_parent_idem.
  - by rewrite lookup_insert_ne.
Qed.

Lemma strip_fields nd nd' :
  strip nd' = strip nd ->
  kind nd' = kind nd /\ attrs nd' = attrs nd /\ style nd' = style nd /\
  listeners nd' = listeners nd /\ children nd' = children nd.
Proof. destruct nd, nd'. unfold strip, set_parent. simpl. intros [=]. subst. done. Qed.

Lemma agree_on_lookup lo hi ns ns' i nd :
  agree_on lo hi ns ns' -> lo <= i < hi -> ns !! i = Some nd ->
  exists nd', ns' !! i = Some nd' /\ strip nd' = strip nd.
Proof.
  intros Hag Hi Hl. specialize (Hag i Hi). rewrite Hl in Hag.
  destruct (ns' !! i) as [nd'|]; [|done]. exists nd'. split; [done|]. cbv [fmap option_fmap option_map] in Hag. congruence.
Qed.

(** ** Robust reading of a live subtree *)

Lemma view_unfold f ns i :
  view (S f) ns i =
    nd ← ns !! i;
    match kind nd with
    | NText s => Some [VText s]
    | NElement ln => ks ← mapM (view f ns) (children nd);
                     Some [VElement ln (attrs nd) (style nd) (listeners nd) (concat ks)]
    | NFragment => ks ← mapM (view f ns) (children nd); Some (concat ks)
    end.
Proof. reflexivity. Qed.

Lemma view_S f ns i v : view f ns i = Some v -> view (S f) ns i = Some v.
Proof.
  revert i v. induction f as [|f IH]; intros i v; [done|].
  rewrite !view_unfold. destruct (ns !! i) as [nd|]; [|done]. cbn [mbind option_bind].
  destruct (mapM (view f ns) (children nd)) as [vs|] eqn:E.
  - assert (Hm : mapM (view (S f) ns) (children nd) = Some vs).
    { apply mapM_Some_2. apply mapM_Some_1 in E.
      eapply Forall2_impl; [exact E|]. intros x y. apply IH. }
    by rewrite Hm.
  - by destruct (kind nd).
Qed.

Lemma rview_S lo hi f ns i v : rview lo hi f ns i v -> rview lo hi (S f) ns i v.
Proof. intros H ns' Hag. by apply view_S, H. Qed.

Lemma rview_range lo hi lo' hi' f ns i v :
  lo <= lo' -> hi' <= hi -> rview lo' hi' f ns i v -> rview lo hi f ns i v.
Proof. intros ?? H ns' Hag. apply H. by eapply agree_on_mono. Qed.

Lemma rview_transport lo hi f ns ns2 i v :
  agree_on lo hi ns ns2 -> rview lo hi f ns i v -> rview lo hi f ns2 i v.
Proof. intros H12 H ns' Hag. apply H. by rewrite H12. Qed.

Lemma rview_exists lo hi f ns i v : rview lo hi f ns i v -> is_Some (ns !! i).
Proof.
  intros H. specialize (H ns (reflexivity _)). destruct f; [done|].
  rewrite view_unfold in H. destruct (ns !! i); [by eexists|done].
Qed.

Lemma rview_kids lo hi f ns ns' cs vss :
  agree_on lo hi ns ns' -> Forall2 (rview lo hi f ns) cs vss ->
  mapM (view f ns') cs = Some vss.
Proof.
  intros Hag H. apply mapM_Some_2. eapply Forall2_impl; [exact H|]. intros c vs Hc. by apply Hc.
Qed.

Section rview_nodes.
Context (lo hi f : nat) (ns : gmap nat node) (i : nat) (nd : node).
Hypothesis Hrange : lo <= i < hi.
Hypothesis Hnode : ns !! i = Some nd.

Lemma rview_text s : kind nd = NText s -> rview lo hi (S f) ns i [VText s].
Proof.
  intros Hk ns' Hag. destruct (agree_on_lookup _ _ _ _ _ _ Hag Hrange Hnode) as (nd' & H' & Hs).
  apply strip_fields in Hs as (Hk' & _). rewrite view_unfold, H'. simpl. by rewrite Hk', Hk.
Qed.

Lemma rview_element ln vss :
  kind nd = NElement ln -> Forall2 (rview lo hi f ns) (children nd) vss ->
  rview lo hi (S f) ns i [VElement ln (attrs nd) (style nd) (listeners nd) (concat vss)].
Proof.
  intros Hk Hkids ns' Hag. destruct (agree_on_lookup _ _ _ _ _ _ Hag Hrange Hnode) as (nd' & H' & Hs).
  apply strip_fields in Hs as (Hk' & Ha & Hst & Hl & Hc). rewrite view_unfold, H'. simpl.
  rewrite Hk', Hk, Hc, (rview_kids _ _ _ _ _ _ _ Hag Hkids). simpl. by rewrite Ha, Hst, Hl.
Qed.

Lemma rview_fragment vss :
  kind nd = NFragment -> Forall2 (rview lo hi f ns) (children nd) vss ->
  rview lo hi (S f) ns i (concat vss).
Proof.
  intros Hk Hkids ns' Hag. destruct (agree_on_lookup _ _ _ _ _ _ Hag Hrange Hnode) as (nd' & H' & Hs).
  apply strip_fields in Hs as (Hk' & _ & _ & _ & Hc). rewrite view_unfold, H'. simpl.
  rewrite Hk', Hk, Hc, (rview_kids _ _ _ _ _ _ _ Hag Hkids). done.
Qed.
End rview_nodes.


(** ** Appending a parentless node to a parentless node *)

Lemma strip_set_parent x nd : strip (set_parent x nd) = strip nd.
Proof. unfold strip. by rewrite set_parent_idem. Qed.

Lemma ancestors_root d p pn :
  nodes d !! p = Some pn -> parent pn = None -> ancestors d p = [].
Proof. intros H Hp. unfold ancestors. simpl. by rewrite H, Hp. Qed.

Lemma check_insert_root d p n pn :
  nodes d !! p = Some pn -> (forall s, kind pn <> NText s) -> parent pn = None -> n <> p ->
  check_insert p n d = (inr tt, d).
Proof.
  intros Hp Hpk Hpp Hnp. unfold check_insert.
  rewrite (bind_ok _ _ _ _ _ (get_node_run _ _ _ Hp)), (bind_ok _ _ _ _ _ (get_st_run d)).
  unfold inclusive_ancestor. rewrite (ancestors_root _ _ _ Hp Hpp), (proj2 (Nat.eqb_neq n p) Hnp).
  destruct (kind pn) eqn:Hk; [done| by destruct (Hpk data)|done].
Qed.

Lemma take_nodes_fragment d n nn :
  nodes d !! n = Some nn -> kind nn = NFragment ->
  Forall (fun c => is_Some (nodes d !! c) /\ c <> n) (children nn) ->
  exists ns1, take_nodes n d = (inr (children nn), mkDoc ns1 (next_id d)) /\
    forall i, ns1 !! i = if bool_decide (i ∈ children nn) then set_parent None <$> nodes d !! i
                         else if decide (i = n) then Some (set_children [] nn) else nodes d !! i.
Proof.
  intros Hn Hk Hkids. unfold take_nodes. rewrite (bind_ok _ _ _ _ _ (get_node_run _ _ _ Hn)), Hk.
  rewrite (bind_ok _ _ _ _ _ (modify_node_run _ _ _ _ Hn)).
  destruct (set_parents_run (mkDoc (<[n := set_children [] nn]> (nodes d)) (next_id d)) None (children nn))
    as (ns1 & Hrun & Hns1).
  { eapply Forall_impl; [exact Hkids|]. intros c [Hc Hcn]. simpl. by rewrite lookup_insert_ne by done. }
  rewrite (bind_ok _ _ _ _ _ Hrun). exists ns1. split; [done|]. intros i. rewrite Hns1. simpl.
  case_bool_decide as Hi.
  - assert (i <> n). { eapply Forall_forall in Hkids; [|exact Hi]. naive_solver. }
    by rewrite lookup_insert_ne.
  - destruct (decide (i = n)) as [->|]; [by rewrite lookup_insert_eq|by rewrite lookup_insert_ne].
Qed.

Lemma take_nodes_single d n nn :
  nodes d !! n = Some nn -> kind nn <> NFragment -> parent nn = None ->
  take_nodes n d = (inr [n], d).
Proof.
  intros Hn Hk Hpar. unfold take_nodes. rewrite (bind_ok _ _ _ _ _ (get_node_run _ _ _ Hn)).
  assert (Hd : detach n d = (inr tt, d)).
  { unfold detach. by rewrite (bind_ok _ _ _ _ _ (get_node_run _ _ _ Hn)), Hpar. }
  destruct (kind nn); try done; by rewrite (bind_ok _ _ _ _ _ Hd).
Qed.

Lemma insert_nodes_end d p pn its :
  nodes d !! p = Some pn -> p ∉ its -> Forall (fun c => is_Some (nodes d !! c)) its ->
  exists ns', insert_nodes p its None d = (inr tt, mkDoc ns' (next_id d)) /\
    forall i, ns' !! i = if decide (i = p) then Some (set_children (children pn ++ its) pn)
                         else if bool_decide (i ∈ its) then set_parent (Some p) <$> nodes d !! i
                         else nodes d !! i.
Proof.
  intros Hp Hpits Hex. unfold insert_nodes. rewrite (bind_ok _ _ _ _ _ (modify_node_run _ _ _ _ Hp)).
  cbn [insert_pos]. rewrite take_ge, drop_ge, app_nil_r by done.
  destruct (set_parents_run (mkDoc (<[p := set_children (children pn ++ its) pn]> (nodes d)) (next_id d))
    (Some p) its) as (ns' & Hrun & Hns').
  { eapply Forall_impl; [exact Hex|]. intros c Hc. simpl.
    destruct (decide (c = p)) as [->|]; [by rewrite lookup_insert_eq|by rewrite lookup_insert_ne]. }
  exists ns'. split; [exact Hrun|]. intros i. rewrite Hns'. simpl.
  destruct (decide (i = p)) as [->|Hne].
  - rewrite bool_decide_false by done. by rewrite lookup_insert_eq.
  - by rewrite lookup_insert_ne.
Qed.

Section append_root.
Context (d : doc) (p n : nat) (pn nn : node).
Hypothesis Hp : nodes d !! p = Some pn.
Hypothesis Hpk : forall s, kind pn <> NText s.
Hypothesis Hpp : parent pn = None.
Hypothesis Hn : nodes d !! n = Some nn.
Hypothesis Hnp : n <> p.
Hypothesis Hkids : kind nn = NFragment ->
  Forall (fun c => is_Some (nodes d !! c) /\ c <> p /\ c <> n) (children nn).
Hypothesis Hroot : kind nn <> NFragment -> parent nn = None.

Definition appended (i : nat) : option node :=
  if decide (i = p) then Some (set_children (children pn ++ inserted n nn) pn)
  else if bool_decide (i ∈ inserted n nn) then set_parent (Some p) <$> nodes d !! i
  else if decide (i = n) then Some (set_children [] nn)
  else nodes d !! i.

Lemma appendChild_root :
  exists ns', appendChild p n d = (inr n, mkDoc ns' (next_id d)) /\ forall i, ns' !! i = appended i.
Proof.
  unfold appendChild, appended, inserted.
  rewrite (bind_ok _ _ _ _ _ (check_insert_root _ _ _ _ Hp Hpk Hpp Hnp)).
  destruct (decide (kind nn = NFragment)) as [Hf|Hf].
  - specialize (Hkids Hf).
    destruct (take_nodes_fragment d n nn Hn Hf) as (ns1 & Hrun1 & Hns1).
    { eapply Forall_impl; [exact Hkids|]. naive_solver. }
    assert (Hpk' : p ∉ children nn).
    { intros Hin. eapply Forall_forall in Hkids; [|exact Hin]. naive_solver. }
    destruct (insert_nodes_end (mkDoc ns1 (next_id d)) p pn (children nn)) as (ns2 & Hrun2 & Hns2).
    { simpl. rewrite Hns1, bool_decide_false, decide_False by done. exact Hp. }
    { done. }
    { eapply Forall_impl; [exact Hkids|]. intros c (Hc & _ & Hcn). simpl. rewrite Hns1.
      case_bool_decide; [destruct Hc as [? ->]; by eexists|]. by rewrite decide_False. }
    rewrite Hf, (bind_ok _ _ _ _ _ Hrun1), (bind_ok _ _ _ _ _ Hrun2). exists ns2. split; [done|].
    intros i. rewrite Hns2. simpl. rewrite Hns1. destruct (decide (i = p)); [done|].
    case_bool_decide; [|done]. destruct (nodes d !! i); simpl; [by rewrite set_parent_idem|done].
  - rewrite (bind_ok _ _ _ _ _ (take_nodes_single _ _ _ Hn Hf (Hroot Hf))).
    destruct (insert_nodes_end d p pn [n]) as (ns2 & Hrun2 & Hns2); [done|set_solver|by constructor; eauto|].
    rewrite (bind_ok _ _ _ _ _ Hrun2). exists ns2. split; [done|].
    intros i. rewrite Hns2. destruct (kind nn); try done;
      destruct (decide (i = p)); try done; case_bool_decide; try done;
      rewrite decide_False by set_solver; done.
Qed.

Lemma appended_frame i : i <> p -> i <> n -> i ∉ inserted n nn -> appended i = nodes d !! i.
Proof. intros ???. unfold appended. by rewrite decide_False, bool_decide_false, decide_False. Qed.

Lemma appended_agree lo hi :
  ~ (lo <= p < hi) -> (kind nn = NFragment -> ~ (lo <= n < hi)) ->
  forall ns', (forall i, ns' !! i = appended i) -> agree_on lo hi (nodes d) ns'.
Proof.
  intros Hpr Hnr ns' Hns' i Hi. rewrite Hns'. unfold appended.
  rewrite decide_False by (intros ->; lia).
  case_bool_decide.
  - destruct (nodes d !! i); simpl; [by rewrite strip_set_parent|done].
  - destruct (decide (i = n)) as [->|]; [|done].
    unfold inserted in *. destruct (kind nn) eqn:Hk; first [set_solver | exfalso; by apply Hnr].
Qed.

Lemma appended_dom i : is_Some (appended i) <-> is_Some (nodes d !! i).
Proof.
  unfold appended. destruct (decide (i = p)) as [->|].
  - rewrite Hp. split; intros; by eexists.
  - case_bool_decide.
    + destruct (nodes d !! i); simpl; split; intros [? ?]; try done; by eexists.
    + destruct (decide (i = n)) as [->|]; [rewrite Hn; split; intros; by eexists|done].
Qed.
End append_root.

(** ** Emptying a parentless container *)

Lemma set_parent_none nd : parent nd = None -> set_parent None nd = nd.
Proof. destruct nd; simpl; intros ->; done. Qed.

Lemma clearChildren_run d p pn :
  nodes d !! p = Some pn -> parent pn = None ->
  Forall (fun c => is_Some (nodes d !! c)) (children pn) ->
  exists ns', clearChildren p d = (inr tt, mkDoc ns' (next_id d)) /\
    ns' !! p = Some (set_children [] pn) /\
    forall i, i <> p -> ns' !! i = if bool_decide (i ∈ children pn) then set_parent None <$> nodes d !! i
                                  else nodes d !! i.
Proof.
  intros Hp Hpp Hkids. unfold clearChildren. rewrite (bind_ok _ _ _ _ _ (get_node_run _ _ _ Hp)).
  destruct (set_parents_run d None _ Hkids) as (ns1 & Hrun & Hns1).
  rewrite (bind_ok _ _ _ _ _ Hrun).
  assert (Hp1 : ns1 !! p = Some pn) by (rewrite Hns1, Hp; case_bool_decide; simpl; [by rewrite set_parent_none|done]).
  rewrite (modify_node_run (mkDoc ns1 (next_id d)) p pn _ Hp1). simpl.
  eexists. split; [done|]. split; [apply lookup_insert_eq|].
  intros i Hi. rewrite lookup_insert_ne by congruence. apply Hns1.
Qed.

(** ** Removing and replacing a child *)

Lemma removeChild_ret p c d x d' : removeChild p c d = (inr x, d') -> x = c.
Proof. unfold removeChild. intros H. run_inv H. done. Qed.

Lemma replaceChild_ret p n c d x d' : replaceChild p n c d = (inr x, d') -> x = c.
Proof. unfold replaceChild. intros H. run_inv H. done. Qed.

(** [p.removeChild(i)] of a child [i] of [p]: [i] leaves the children of
    [p] and loses its parent; nothing else changes. *)
Lemma removeChild_run d p i nd pn :
  nodes d !! i = Some nd -> parent nd = Some p -> nodes d !! p = Some pn -> i <> p ->
  removeChild p i d =
    (inr i, mkDoc (<[i := set_parent None nd]>
                     (<[p := set_children (filter (fun x => x <> i) (children pn)) pn]> (nodes d)))
                  (next_id d)).
Proof.
  intros Hi Hpar Hp Hip. unfold removeChild. rewrite (bind_ok _ _ _ _ _ (get_node_run _ _ _ Hi)).
  rewrite decide_True by done. unfold detach. rewrite bind_run, (bind_ok _ _ _ _ _ (get_node_run _ _ _ Hi)), Hpar.
  rewrite (bind_ok _ _ _ _ _ (modify_node_run _ _ _ _ Hp)).
  rewrite (modify_node_run (mkDoc _ _) i nd); [done|]. simpl. by rewrite lookup_insert_ne by congruence.
Qed.

(** ** The listeners of the arena *)

(** A property of every node's listener list that the empty list has is
    kept by every tree operation: they change parents, children, style
    and attributes, never listeners. *)
Section listener_invariant.
Context (P : list (string * jval) -> Prop) (HP : P []).

Definition listeners_inv (d : doc) : Prop := map_Forall (fun _ nd => P (listeners nd)) (nodes d).

Lemma preserves_get_node i : preserves listeners_inv (get_node i).
Proof. intros d r d' H Hrun. unfold get_node in Hrun. destruct (nodes d !! i); by simplify_eq. Qed.

Lemma preserves_put_node i nd : P (listeners nd) -> preserves listeners_inv (put_node i nd).
Proof. intros Hnd d r d' H Hrun. unfold put_node in Hrun. injection Hrun as <- <-. by apply map_Forall_insert_2. Qed.

Lemma preserves_modify_node i f :
  (forall nd, listeners (f nd) = listeners nd) -> preserves listeners_inv (modify_node i f).
Proof.
  intros Hf d r d' H Hrun. unfold modify_node in Hrun. rewrite bind_run in Hrun. unfold get_node in Hrun.
  destruct (nodes d !! i) as [nd|] eqn:Hi; [|by simplify_eq].
  unfold put_node in Hrun. injection Hrun as <- <-.
  apply map_Forall_insert_2; [|done]. rewrite Hf. exact (H i nd Hi).
Qed.

Lemma preserves_update_node i f :
  (forall nd nd', f nd = inr nd' -> P (listeners nd) -> P (listeners nd')) ->
  preserves listeners_inv (update_node i f).
Proof.
  intros Hf d r d' H Hrun. unfold update_node in Hrun. rewrite bind_run in Hrun. unfold get_node in Hrun.
  destruct (nodes d !! i) as [nd|] eqn:Hi; [|by simplify_eq].
  destruct (f nd) as [e|nd'] eqn:Hfe; [unfold throw in Hrun; by simplify_eq|].
  unfold put_node in Hrun. injection Hrun as <- <-.
  apply map_Forall_insert_2; [|done]. eapply Hf; [exact Hfe|exact (H i nd Hi)].
Qed.

Lemma preserves_alloc k : preserves listeners_inv (alloc (blank k)).
Proof. intros d r d' H Hrun. unfold alloc in Hrun. injection Hrun as <- <-. by apply map_Forall_insert_2. Qed.

Lemma preserves_set_parents x cs : preserves listeners_inv (set_parents x cs).
Proof. apply preserves_forM. intros. by apply preserves_modify_node. Qed.

Ltac listeners_tac :=
  repeat first
    [ apply preserves_modify_node; intros []; done
    | apply preserves_set_parents | apply preserves_get_node | apply preserves_alloc
    | apply preserves_ret | apply preserves_throw | apply preserves_get
    | apply preserves_bind; [|intro]
    | apply preserves_if
    | match goal with |- preserves _ (match ?x with _ => _ end) => destruct x end ].

Lemma preserves_detach c : preserves listeners_inv (detach c).
Proof. unfold detach. listeners_tac. Qed.

Lemma preserves_take_nodes n : preserves listeners_inv (take_nodes n).
Proof. unfold take_nodes. listeners_tac. Qed.

Lemma preserves_insert_nodes p cs r : preserves listeners_inv (insert_nodes p cs r).
Proof. unfold insert_nodes. listeners_tac. Qed.

Lemma preserves_check_insert p n : preserves listeners_inv (check_insert p n).
Proof. unfold check_insert. listeners_tac. Qed.

Lemma preserves_appendChild p n : preserves listeners_inv (appendChild p n).
Proof.
  unfold appendChild. apply preserves_bind; [apply preserves_check_insert|intros _].
  apply preserves_bind; [apply preserves_take_nodes|intros ns].
  apply preserves_bind; [apply preserves_insert_nodes|intros _]. apply preserves_ret.
Qed.

Lemma preserves_clearChildren p : preserves listeners_inv (clearChildren p).
Proof. unfold clearChildren. listeners_tac. Qed.

Lemma preserves_doc_createElement s : preserves listeners_inv (doc_createElement s).
Proof. unfold doc_createElement. listeners_tac. Qed.

Lemma preserves_doc_createTextNode s : preserves listeners_inv (doc_createTextNode s).
Proof. unfold doc_createTextNode. listeners_tac. Qed.

Lemma preserves_doc_createDocumentFragment : preserves listeners_inv doc_createDocumentFragment.
Proof. unfold doc_createDocumentFragment. listeners_tac. Qed.
End listener_invariant.

#[export] Hint Resolve preserves_appendChild preserves_clearChildren preserves_doc_createElement
  preserves_doc_createTextNode preserves_doc_createDocumentFragment : js.

