(* ===== verification/Browser.v ===== *)
(** * Host APIs of the application: URL parameters, selectors, event paths

    [SmartHomeApp] (src/native-app.js, lines 669-721) reaches the browser
    through three more host interfaces than the engine does.  They are the
    environment, not code of the repository, and are modelled after their
    standards:

    - [new URLSearchParams(location.search).get("tab")] (lines 676-677):
      the [application/x-www-form-urlencoded] parser of the URL standard
      ([form_parse]: split on [&], split each part at its first [=],
      [+] to space, percent-decoding) and [get], the value of the first
      pair with that name.  Strings are byte strings: the final UTF-8
      decoding (with replacement characters for invalid sequences) is the
      identity on the bytes.
    - [container.querySelector(".section__arrow")] (line 703):
      [querySelector_class], the first descendant of a node in tree order
      (preorder) that is an element whose [class] attribute has the class
      among its ASCII-whitespace-separated tokens.
    - the path of a dispatched event ([event_path]): the target and its
      ancestors, computed before any listener runs (DOM standard,
      "dispatch", steps 5-14, without shadow trees).

    The tree walks take as fuel one more than the number of nodes of the
    arena, which bounds the depth of any acyclic tree. *)

From S2P Require Import Prelude JsValue Dom.

Module Browser.

(** ** URLSearchParams *)

(** Splitting on a byte: [split_on "&" "a&&b" = ["a"; ""; "b"]]. *)
Fixpoint split_on (sep : ascii) (s : string) : list string :=
  match s with
  | EmptyString => [EmptyString]
  | String c s' =>
      let rest := split_on sep s' in
      if ascii_dec c sep then EmptyString :: rest
      else match rest with
           | r :: rs => String c r :: rs
           | [] => [String c EmptyString]
           end
  end.

(** The bytes before and after the first [sep], if [s] has one. *)
Fixpoint break_at (sep : ascii) (s : string) : option (string * string) :=
  match s with
  | EmptyString => None
  | String c s' =>
      if ascii_dec c sep then Some (EmptyString, s')
      else match break_at sep s' with
           | Some (a, b) => Some (String c a, b)
           | None => None
           end
  end.

Definition hex_val (c : ascii) : option nat :=
  let n := nat_of_ascii c in
  if ascii_in c 48 57 then Some (n - 48)
  else if ascii_in c 65 70 then Some (n - 55)
  else if ascii_in c 97 102 then Some (n - 87)
  else None.

(** Percent-decoding of the URL standard: [%] followed by two hex digits
    is the byte they denote; any other [%] stays. *)
Fixpoint percent_decode (s : string) : string :=
  match s with
  | EmptyString => EmptyString
  | String c s1 =>
      if ascii_dec c "%" then
        match s1 with
        | String h1 (String h2 s3) =>
            match hex_val h1, hex_val h2 with
            | Some a, Some b => String (ascii_of_nat (16 * a + b)) (percent_decode s3)
            | _, _ => String c (percent_decode s1)
            end
        | _ => String c (percent_decode s1)
        end
      else String c (percent_decode s1)
  end.

Definition plus_to_space : string -> string :=
  str_map (fun c => if ascii_dec c "+" then " "%char else c).

Definition form_decode (s : string) : string := percent_decode (plus_to_space s).

(** One [&]-separated part: skipped when empty, otherwise split at its
    first [=] (the whole part is the name when it has none). *)
Definition parse_part (bytes : string) : option (string * string) :=
  match bytes with
  | EmptyString => None
  | _ => let '(name, value) := default (bytes, EmptyString) (break_at "=" bytes) in
         Some (form_decode name, form_decode value)
  end.

(** The [application/x-www-form-urlencoded] parser. *)
Definition form_parse (input : string) : list (string * string) :=
  omap parse_part (split_on "&" input).

(** [new URLSearchParams(init)] for a string [init]: a leading [?] is
    removed. *)
Definition url_search_params (init : string) : list (string * string) :=
  form_parse (if startsWith init "?" then slice init 1 else init).

(** [params.get(name)]: [None] is [null]. *)
Definition params_get (ps : list (string * string)) (name : string) : option string :=
  assoc name ps.

(** ** Selectors *)

(** ASCII-whitespace-separated tokens, empty tokens dropped. *)
Fixpoint split_ws_acc (acc : string) (s : string) : list string :=
  match s with
  | EmptyString => match acc with EmptyString => [] | _ => [acc] end
  | String c s' =>
      if is_ascii_whitespace c then
        match acc with EmptyString => split_ws_acc EmptyString s' | _ => acc :: split_ws_acc EmptyString s' end
      else split_ws_acc (acc +:+ String c EmptyString) s'
  end.

Definition split_ws (s : string) : list string := split_ws_acc EmptyString s.

(** An element whose class list contains [cls]. *)
Definition has_class (nd : node) (cls : string) : bool :=
  match kind nd with
  | NElement _ => existsb (String.eqb cls) (split_ws (default "" (assoc "class" (attrs nd))))
  | _ => false
  end.

(** The descendants of [i] in tree order. *)
Fixpoint descendants_fuel (fuel : nat) (ns : gmap nat node) (i : nat) : list nat :=
  match fuel with
  | 0 => []
  | S f =>
      match ns !! i with
      | Some nd => concat (map (fun c => c :: descendants_fuel f ns c) (children nd))
      | None => []
      end
  end.

Definition descendants (d : doc) (i : nat) : list nat :=
  descendants_fuel (S (size (nodes d))) (nodes d) i.

Fixpoint find_first {A} (p : A -> bool) (l : list A) : option A :=
  match l with
  | [] => None
  | x :: l' => if p x then Some x else find_first p l'
  end.

(** [root.querySelector("." + cls)]: [None] is [null]. *)
Definition querySelector_class (d : doc) (root : nat) (cls : string) : option nat :=
  find_first (fun i => match nodes d !! i with Some nd => has_class nd cls | None => false end)
                  (descendants d root).

(** ** Event dispatch *)

(** The path of an event dispatched at [target]. *)
Definition event_path (d : doc) (target : nat) : list nat := target :: ancestors d target.

(** The listeners of [type] a node holds when the event reaches it. *)
Definition listeners_of (d : doc) (type : string) (i : nat) : list jval :=
  match nodes d !! i with
  | Some nd => (filter (fun tl => tl.1 = type) (listeners nd)).*2
  | None => []
  end.

(** ** Selector facts *)

Lemma find_first_some {A} (p : A -> bool) l x : find_first p l = Some x -> p x = true /\ x ∈ l.
Proof.
  induction l as [|y l IH]; [done|]. simpl. destruct (p y) eqn:Hy.
  - intros [= <-]. split; [done|]. apply elem_of_cons. by left.
  - intros H. destruct (IH H) as [Hp Hx]. split; [done|]. apply elem_of_cons. by right.
Qed.

(** [querySelector] returns an element of the document that has the
    class. *)
Lemma querySelector_class_some d r cls i :
  querySelector_class d r cls = Some i ->
  exists nd ln, nodes d !! i = Some nd /\ kind nd = NElement ln /\ has_class nd cls = true.
Proof.
  unfold querySelector_class. intros [Hp _]%find_first_some.
  destruct (nodes d !! i) as [nd|]; [|done]. exists nd.
  unfold has_class in *. destruct (kind nd) as [ln| |] eqn:Hk; try done; eauto.
Qed.

End Browser.
