(* ===== verification/Engine.v ===== *)
(** * The engine: [class DOMGenerator] (src/native-app.js, lines 2-113)

    Module [DOMGenerator] models the class.  Its instance state is the
    record [generator] ([this.state], never used, and [this.refs], the
    reference registry); an engine operation runs in [M world], on the
    document and the generator together.

    - [createElement_fuel]/[createElement] is [createElement(jsonElement)]:
      the dispatch of [classify] (lines 10-27), the properties applied by
      [create_prop] in [Object.entries] order (lines 31-44), the children
      created and appended in order, skipping [null] results (lines
      47-52), and the ref registered last (lines 55-57).  The unused
      [parent] argument is dropped.  The fuel is the nesting depth of the
      JSON value plus one: every recursive call is on a smaller value,
      so this fuel is never exhausted ([createElement_total]).
    - [updateElement] and [render] are in [Reconcile].

    The abstract specification is [materialize]: the list of [vnode]s a
    JSON value denotes (what the user sees), or the exception its
    creation raises.  [createElement_refines] shows that [createElement]
    implements it: on success the live subtree it returns reads back as
    the denotation, on failure the denotation is the same exception.  The
    proof is the induction [createElement_fuel_ok] on the invariant
    [ce_spec]: the arena stays fresh, nothing below the first new
    identity changes ([frame_at]), and the new nodes read back robustly
    ([ce_ok], with [rview] from [DomFacts]).  The registry is treated by
    [createElement_tagged_run] and the [preserves] calculus. *)

From S2P Require Import Prelude JsValue Dom DomFacts.

Module DOMGenerator.

(** ** State *)

(** [this.refs] is a plain object: its own entries [refs], and its
    prototype, [Object.prototype] ([None]) until an element is assigned
    to [refs.__proto__] ([refs_proto]). *)
Record generator := mkGenerator {
  gen_state : jval;
  refs : gmap string nat;
  refs_proto : option nat
}.

(** [constructor() { this.state = {}; this.refs = {}; }] *)
Definition constructor : generator := mkGenerator (JObj []) ∅ None.

Record world := mkWorld {
  w_doc : doc;
  w_gen : generator
}.

(** A DOM call inside an engine operation. *)
Definition dom {A} (m : M doc A) : M world A :=
  fun w => let '(r, d) := m (w_doc w) in (r, mkWorld d (w_gen w)).

(** [this.refs[key] = element].  The key ["__proto__"] hits the
    [Object.prototype.__proto__] setter: the element becomes the prototype
    of [this.refs] (and [this.refs.__proto__] reads it back) instead of an
    own entry.  Any other key creates or overwrites an own entry; once the
    prototype is an element, a key naming an accessor of elements would
    reach that accessor instead, which the model does not cover (no ref
    of the page is named so). *)
Definition set_ref (key : string) (el : nat) (g : generator) : generator :=
  if String.eqb key "__proto__" then mkGenerator (gen_state g) (refs g) (Some el)
  else mkGenerator (gen_state g) (<[key := el]> (refs g)) (refs_proto g).

Definition registerRef (key : string) (el : nat) : M world unit :=
  fun w => (inr tt, mkWorld (w_doc w) (set_ref key el (w_gen w))).

(** ** [createElement] *)

(** One iteration of the [Object.entries(props).forEach] of lines 31-44,
    as its change of the new element. *)
Definition create_prop (kv : string * jval) (nd : node) : exn + node :=
  let '(key, value) := kv in
  if String.eqb key "className" then node_setClassName (to_string value) nd
  else if String.eqb key "onclick" || startsWith key "on" then
    node_addEventListener (toLowerCase (slice key 2)) value nd
  else if String.eqb key "style" && bool_decide (typeof value = TObject) then
    match entries value with
    | None => inr nd
    | Some es => node_assignStyle es nd
    end
  else match value with
       | JBool true => node_setAttribute key key nd
       | JBool false => inr nd
       | _ => node_setAttribute key (to_string value) nd
       end.

(** The children [if (children.length > 0) children.forEach(...)]
    visits (lines 47-52), or what the test raises.  [undefined > 0] and
    [null > 0] are false; a string has no [forEach]. *)
Definition children_items (children : jval) : exn + list jval :=
  match children with
  | JUndefined => inl (ETypeError "Cannot read properties of undefined (reading 'length')")
  | JNull => inl (ETypeError "Cannot read properties of null (reading 'length')")
  | JArr xs => inr xs
  | JStr s => if String.eqb s "" then inr [] else inl (ETypeError "children.forEach is not a function")
  | JNum _ | JBool _ => inr []
  | JFun _ => inl (EUnmodelled "length of a function")
  | JObj fs =>
      let positive :=
        match get children "length" with
        | JUndefined | JNull => Some false
        | JNum n => Some (Z.ltb 0 n)
        | JBool b => Some b
        | _ => None
        end in
      match positive with
      | Some false => inr []
      | Some true =>
          if truthy (get children "forEach") then inl (EUnmodelled "forEach of a plain object")
          else inl (ETypeError "children.forEach is not a function")
      | None => inl (EUnmodelled "comparison of a non-primitive length")
      end
  end.

Definition appendChild_opt (p : nat) (r : option nat) : M world unit :=
  match r with
  | Some e => dom (appendChild p e) ;; mret tt
  | None => mret tt
  end.

Fixpoint createElement_fuel (fuel : nat) (jsonElement : jval) : M world (option nat) :=
  match fuel with
  | 0 => throw EOutOfFuel
  | S f =>
      match classify jsonElement with
      | ETText s =>
          t ← dom (doc_createTextNode s); mret (Some t)
      | ETFragment items =>
          fragment ← dom doc_createDocumentFragment;
          forM_ (fun child => r ← createElement_fuel f child; appendChild_opt fragment r) items ;;
          mret (Some fragment)
      | ETAbsent => mret None
      | ETTagged tag props children ref =>
          element ← dom (doc_createElement (to_string tag));
          es ← entries props !? ETypeError "Cannot convert undefined or null to object";
          forM_ (fun kv => dom (update_node element (create_prop kv))) es ;;
          kids ← lift_res (children_items children);
          forM_ (fun child => r ← createElement_fuel f child; appendChild_opt element r) kids ;;
          (if truthy ref then registerRef (to_string ref) element else mret tt) ;;
          mret (Some element)
      end
  end.

Definition createElement (jsonElement : jval) : M world (option nat) :=
  createElement_fuel (S (depth jsonElement)) jsonElement.

(** ** The abstract specification *)

(** [materialize_fuel f j]: the nodes a user sees for the JSON value [j]
    (a text leaf, the splice of a fragment's items, one element with the
    attributes, style and listeners its properties give), or the exception
    its creation raises: an invalid tag name, [null] props, a property the
    DOM rejects, children that cannot be iterated. *)
Fixpoint materialize_fuel (fuel : nat) (j : jval) : exn + list vnode :=
  match fuel with
  | 0 => inl EOutOfFuel
  | S f =>
      match classify j with
      | ETText s => inr [VText s]
      | ETAbsent => inr []
      | ETFragment items =>
          match map_res (materialize_fuel f) items with
          | inl e => inl e
          | inr vss => inr (concat vss)
          end
      | ETTagged tag props children ref =>
          let ln := toLowerCase (to_string tag) in
          if valid_element_local_name (to_string tag) then
            match entries props with
            | None => inl (ETypeError "Cannot convert undefined or null to object")
            | Some es =>
                match fold_res create_prop es (blank (NElement ln)) with
                | inl e => inl e
                | inr nd =>
                    match children_items children with
                    | inl e => inl e
                    | inr kids =>
                        match map_res (materialize_fuel f) kids with
                        | inl e => inl e
                        | inr vss => inr [VElement ln (attrs nd) (style nd) (listeners nd) (concat vss)]
                        end
                    end
                end
            end
          else inl (EDOMException InvalidCharacterError)
      end
  end.

Definition materialize (j : jval) : exn + list vnode := materialize_fuel (S (depth j)) j.

(** Every property of every element of a JSON tree, as [createElement]
    visits them, satisfies [r]. *)
Fixpoint json_propsb (r : string * jval -> bool) (fuel : nat) (j : jval) : bool :=
  match fuel with
  | 0 => true
  | S f =>
      match classify j with
      | ETFragment items => forallb (json_propsb r f) items
      | ETTagged tag props children ref =>
          forallb r (default [] (entries props)) &&
          match children_items children with
          | inr kids => forallb (json_propsb r f) kids
          | inl _ => true
          end
      | _ => true
      end
  end.

(** ** Invariants of a run *)

(** Nothing below [b] changed, and identities were only allocated. *)
Definition frame_at (b : nat) (d d' : doc) : Prop :=
  next_id d <= next_id d' /\ forall i, i < b -> nodes d' !! i = nodes d !! i.

(** What a successful [createElement] from identity [lo] leaves in [d']:
    a parentless result of identity at least [lo], whose inserted nodes
    (the fragment's children, or the node itself) are allocated after it
    and read back, robustly, as the views [vss] that make up [vs]. *)
Definition ce_ok (F lo : nat) (d' : doc) (r : option nat) (vs : list vnode) : Prop :=
  match r with
  | None => vs = []
  | Some n =>
      exists nd, nodes d' !! n = Some nd /\ lo <= n /\ parent nd = None /\
        let lo' := match kind nd with NFragment => S n | _ => n end in
        Forall (fun c => lo' <= c < next_id d') (inserted n nd) /\
        exists vss, Forall2 (rview lo' (next_id d') F (nodes d')) (inserted n nd) vss /\
                    vs = concat vss
  end.


(** Property changes keep a node's kind, children and parent. *)
Definition same_shape (nd nd' : node) : Prop :=
  kind nd' = kind nd /\ children nd' = children nd /\ parent nd' = parent nd.

(** The refinement invariant of [createElement_fuel F j]: from a fresh
    arena, a run keeps the arena fresh, changes nothing below the first
    new identity, and agrees with [materialize_fuel F j]: the same
    exception, or a result that reads back as the denotation. *)
Definition ce_spec (F : nat) (j : jval) : Prop :=
  forall w r w', doc_fresh (w_doc w) -> createElement_fuel F j w = (r, w') ->
  doc_fresh (w_doc w') /\ frame_at (next_id (w_doc w)) (w_doc w) (w_doc w') /\
  match r with
  | inl e => materialize_fuel F j = inl e
  | inr res => exists vs, materialize_fuel F j = inr vs /\ ce_ok F (next_id (w_doc w)) (w_doc w') res vs
  end.

(** ** Fuel *)


Definition empty_world : world := mkWorld (mkDoc ∅ 0) constructor.

Definition sample : jval :=
  JObj [("tag", JStr "div");
        ("props", JObj [("className", JStr "card"); ("disabled", JBool false);
                        ("onClick", JFun 7); ("style", JObj [("color", JStr "red")])]);
        ("children", JArr [JStr "hi"; JArr [JNum 0; JNull];
                           JObj [("tag", JStr "span"); ("ref", JStr "root")]]);
        ("ref", JStr "root")].


Definition null_props_sample : jval := JObj [("tag", JStr "div"); ("props", JNull)].

Lemma children_items_depth children kids x :
  children_items children = inr kids -> x ∈ kids -> depth x < depth children.
Proof.
  intros H Hx. destruct children as [| | | | s | xs | fs |]; cbn [children_items] in H;
    repeat case_match; simplify_eq; try set_solver.
  by apply depth_arr_elem.
Qed.

(** ** The refinement proof *)

Lemma dom_run {A} (m : M doc A) w r d :
  m (w_doc w) = (r, d) -> dom m w = (r, mkWorld d (w_gen w)).
Proof. intros H. unfold dom. by rewrite H. Qed.

Lemma dom_inv {A} (m : M doc A) w r w' :
  dom m w = (r, w') -> m (w_doc w) = (r, w_doc w') /\ w_gen w' = w_gen w.
Proof. unfold dom. destruct (m (w_doc w)). intros [= <- <-]. done. Qed.

Lemma frame_at_refl b d : frame_at b d d.
Proof. split; [lia|done]. Qed.

Lemma frame_at_trans b d1 d2 d3 : frame_at b d1 d2 -> frame_at b d2 d3 -> frame_at b d1 d3.
Proof. intros [? H12] [? H23]. split; [lia|]. intros i Hi. by rewrite H23, H12. Qed.

Lemma frame_at_mono b b' d d' : b' <= b -> frame_at b d d' -> frame_at b' d d'.
Proof. intros ? [? H]. split; [done|]. intros i Hi. apply H. lia. Qed.

Lemma frame_at_agree b lo hi d d' : hi <= b -> frame_at b d d' -> agree_on lo hi (nodes d) (nodes d').
Proof. intros ? [_ H] i Hi. by rewrite H by lia. Qed.

Lemma set_children_idem cs cs' nd : set_children cs (set_children cs' nd) = set_children cs nd.
Proof. by destruct nd. Qed.

Lemma rview_move lo hi lo' hi' f ns ns' i v :
  lo <= lo' -> hi' <= hi -> agree_on lo' hi' ns ns' -> rview lo' hi' f ns i v -> rview lo hi f ns' i v.
Proof. intros ?? Hag H. eapply rview_range; [done|done|]. by eapply rview_transport. Qed.

Lemma Forall2_rview_move lo hi lo' hi' f ns ns' cs vss :
  lo <= lo' -> hi' <= hi -> agree_on lo' hi' ns ns' ->
  Forall2 (rview lo' hi' f ns) cs vss -> Forall2 (rview lo hi f ns') cs vss.
Proof. intros ??? H. eapply Forall2_impl; [exact H|]. intros. by eapply rview_move. Qed.

Lemma append_step f p pn cs ivs0 lo w1 res vs :
  doc_fresh (w_doc w1) -> (forall s, kind pn <> NText s) -> parent pn = None ->
  nodes (w_doc w1) !! p = Some (set_children cs pn) -> p < lo ->
  Forall (fun c => S p <= c < lo) cs ->
  Forall2 (rview (S p) lo f (nodes (w_doc w1))) cs ivs0 ->
  lo <= next_id (w_doc w1) -> ce_ok f lo (w_doc w1) res vs ->
  exists w2 ins vss, appendChild_opt p res w1 = (inr tt, w2) /\
    doc_fresh (w_doc w2) /\ frame_at p (w_doc w1) (w_doc w2) /\
    next_id (w_doc w2) = next_id (w_doc w1) /\ vs = concat vss /\
    nodes (w_doc w2) !! p = Some (set_children (cs ++ ins) pn) /\
    Forall (fun c => S p <= c < next_id (w_doc w2)) (cs ++ ins) /\
    Forall2 (rview (S p) (next_id (w_doc w2)) f (nodes (w_doc w2))) (cs ++ ins) (ivs0 ++ vss) /\
    (forall i, i <> p -> i < lo -> nodes (w_doc w2) !! i = nodes (w_doc w1) !! i) /\
    Forall (fun c => lo <= c) ins.
Proof.
  intros Hfr Hpk Hpp Hp Hplo Hcs Hiv Hlo Hok.
  destruct res as [n|]; simpl in Hok.
  2: { subst vs. exists w1, [], []. rewrite !app_nil_r. split; [done|]. split; [done|].
       split; [apply frame_at_refl|]. split; [done|]. split; [done|]. split; [done|]. split.
       - eapply Forall_impl; [exact Hcs|]. intros c Hc; simpl in *; lia.
       - split; [|split; [done|constructor]].
         apply (Forall2_rview_move (S p) _ (S p) lo f (nodes (w_doc w1))); [lia|exact Hlo|reflexivity|exact Hiv]. }
  destruct Hok as (nd & Hn & Hlon & Hpar & Hrange & vss & Hviews & ->).
  assert (Hlo' : forall c, c ∈ inserted n nd -> n <= c /\ (kind nd = NFragment -> n < c) /\ c < next_id (w_doc w1)).
  { intros c Hc. eapply Forall_forall in Hrange; [|exact Hc]. simpl in Hrange.
    destruct (kind nd); split_and!; try lia; intros ?; (discriminate || lia). }
  assert (Hkids : kind nd = NFragment ->
    Forall (fun c => is_Some (nodes (w_doc w1) !! c) /\ c <> p /\ c <> n) (children nd)).
  { intros Hf. apply Forall_forall. intros c Hc.
    assert (Hc' : c ∈ inserted n nd) by (unfold inserted; by rewrite Hf).
    destruct (Hlo' c Hc') as (_ & Hlt & _). specialize (Hlt Hf).
    split; [|split; lia].
    apply list_elem_of_lookup_1 in Hc' as [k Hk].
    destruct (Forall2_lookup_l _ _ _ _ _ Hviews Hk) as (v & _ & Hv). by eapply rview_exists. }
  assert (Hp' : forall s, kind (set_children cs pn) <> NText s) by (simpl; apply Hpk).
  assert (Hnp : n <> p) by lia.
  destruct (appendChild_root (w_doc w1) p n (set_children cs pn) nd Hp Hp' Hpp Hn Hnp Hkids
              (fun _ => Hpar)) as (ns' & Hrun & Hns').
  set (w2 := mkWorld (mkDoc ns' (next_id (w_doc w1))) (w_gen w1)).
  assert (Hag : forall lo1 hi1, ~ (lo1 <= p < hi1) -> (kind nd = NFragment -> ~ (lo1 <= n < hi1)) ->
            agree_on lo1 hi1 (nodes (w_doc w1)) ns').
  { intros lo1 hi1 H1 H2. exact (appended_agree _ _ _ _ _ Hp Hp' Hpp Hn Hnp Hkids (fun _ => Hpar) lo1 hi1 H1 H2 ns' Hns'). }
  exists w2, (inserted n nd), vss. split.
  { unfold appendChild_opt. by rewrite (bind_ok _ _ _ _ _ (dom_run _ _ _ _ Hrun)). }
  split; [|split; [|split; [done|split; [done|split; [|split; [|split; [|split]]]]]]].
  - intros i Hi. simpl in *. apply Hfr. rewrite <- (appended_dom _ p n _ _ Hp Hn). by rewrite <- Hns'.
  - split; [simpl; lia|]. intros i Hi. simpl. rewrite Hns'.
    apply appended_frame; [lia|lia|]. intros Hin. destruct (Hlo' i Hin). lia.
  - simpl. rewrite Hns'. unfold appended. rewrite decide_True by done. simpl. by rewrite set_children_idem.
  - apply Forall_app. split.
    + eapply Forall_impl; [exact Hcs|]. intros c Hc; simpl in *; lia.
    + apply Forall_forall. intros c Hc. destruct (Hlo' c Hc). simpl. lia.
  - apply Forall2_app.
    + apply (Forall2_rview_move (S p) _ (S p) lo f (nodes (w_doc w1))); [lia|simpl; lia| |exact Hiv].
      apply Hag; [lia|]. intros _. lia.
    + set (lo' := match kind nd with NFragment => S n | _ => n end) in *.
      apply (Forall2_rview_move (S p) _ lo' (next_id (w_doc w1)) f (nodes (w_doc w1))); [unfold lo'; destruct (kind nd); lia|done| |exact Hviews].
      apply Hag; [unfold lo'; destruct (kind nd); lia|]. intros Hf. unfold lo'. rewrite Hf. lia.
  - intros i Hip Hilo. simpl. rewrite Hns'.
    apply appended_frame; [done|lia|]. intros Hin. destruct (Hlo' i Hin). lia.
  - apply Forall_forall. intros c Hc. destruct (Hlo' c Hc). lia.
Qed.


Lemma same_shape_refl nd : same_shape nd nd.
Proof. done. Qed.

Lemma same_shape_trans a b c : same_shape a b -> same_shape b c -> same_shape a c.
Proof. intros (?&?&?) (?&?&?). split_and!; congruence. Qed.

Lemma assignStyle_fold_shape es (acc : exn + node) nd nd' :
  (forall x, acc = inr x -> same_shape nd x) ->
  fold_left (fun acc kv => match acc with
        | inl e => inl e
        | inr nd => if is_array_index kv.1 then inl (ETypeError "Cannot assign to read only property")
                    else inr (set_style (attr_set kv.1 (to_string kv.2) (style nd)) nd) end) es acc = inr nd' ->
  same_shape nd nd'.
Proof.
  revert acc. induction es as [|kv es IH]; intros acc Hacc; simpl; [by apply Hacc|].
  apply IH. intros x Hx. destruct acc as [e|y]; [done|].
  destruct (is_array_index kv.1); [done|]. injection Hx as <-. eapply same_shape_trans; [by apply Hacc|by unfold same_shape].
Qed.

Lemma create_prop_shape kv nd nd' : create_prop kv nd = inr nd' -> same_shape nd nd'.
Proof.
  destruct kv as [key value]. unfold create_prop.
  unfold node_setClassName, node_addEventListener, node_assignStyle, node_setAttribute.
  intros Hcp. repeat case_match; simplify_eq; try (by unfold same_shape).
  all: eapply assignStyle_fold_shape; [|exact Hcp]; intros x [= <-]; done.
Qed.

Lemma assignStyle_fold_listeners es (acc : exn + node) nd nd' :
  (forall x, acc = inr x -> listeners x = listeners nd) ->
  fold_left (fun acc kv => match acc with
        | inl e => inl e
        | inr nd => if is_array_index kv.1 then inl (ETypeError "Cannot assign to read only property")
                    else inr (set_style (attr_set kv.1 (to_string kv.2) (style nd)) nd) end) es acc = inr nd' ->
  listeners nd' = listeners nd.
Proof.
  revert acc. induction es as [|kv es IH]; intros acc Hacc; simpl; [by apply Hacc|].
  apply IH. intros x Hx. destruct acc as [e|y]; [done|].
  destruct (is_array_index kv.1); [done|]. injection Hx as <-. cbn [listeners set_style]. by apply Hacc.
Qed.

(** A property either keeps the listeners, or appends the one its [on*]
    key names, when its value is a function or an object. *)
Lemma create_prop_listeners key value nd nd' :
  create_prop (key, value) nd = inr nd' ->
  listeners nd' = listeners nd \/
  (String.eqb key "className" = false /\ (String.eqb key "onclick" || startsWith key "on") = true /\
   listeners nd' = listeners nd ++ [(toLowerCase (slice key 2), value)] /\
   match value with JFun _ | JObj _ | JArr _ => True | _ => False end).
Proof.
  unfold create_prop. intros Hc.
  destruct (String.eqb key "className") eqn:Hcl.
  { left. unfold node_setClassName in Hc. destruct (kind nd); by simplify_eq. }
  destruct (String.eqb key "onclick" || startsWith key "on") eqn:Hon.
  - unfold node_addEventListener in Hc.
    destruct value; simplify_eq; try (by left); case_match; simplify_eq; try (by left); by right.
  - left. destruct (String.eqb key "style" && _); [destruct (entries value)|].
    all: unfold node_assignStyle, node_setAttribute in Hc; repeat case_match; simplify_eq; try done.
    all: eapply assignStyle_fold_listeners; [|exact Hc]; by intros x [= <-].
Qed.

Lemma props_loop el es :
  forall w nd r w', nodes (w_doc w) !! el = Some nd ->
  forM_ (fun kv => dom (update_node el (create_prop kv))) es w = (r, w') ->
  next_id (w_doc w') = next_id (w_doc w) /\ w_gen w' = w_gen w /\
  exists nd', nodes (w_doc w') = <[el := nd']> (nodes (w_doc w)) /\ same_shape nd nd' /\
    match r with
    | inl e => fold_res create_prop es nd = inl e
    | inr _ => fold_res create_prop es nd = inr nd'
    end.
Proof.
  induction es as [|kv es IH]; intros w nd r w' Hel Hrun; simpl in Hrun.
  - injection Hrun as <- <-. split_and!; [done|done|]. exists nd. by rewrite insert_id.
  - rewrite bind_run in Hrun. simpl.
    destruct (create_prop kv nd) as [e|nd1] eqn:Hp.
    + rewrite (dom_run _ _ _ _ (update_node_err _ _ _ _ _ Hel Hp)) in Hrun. injection Hrun as <- <-.
      simpl. split_and!; [done|done|]. exists nd. by rewrite insert_id by (by destruct w as [[]]).
    + rewrite (dom_run _ _ _ _ (update_node_run _ _ _ _ _ Hel Hp)) in Hrun.
      destruct (IH _ nd1 _ _ (lookup_insert_eq _ _ _) Hrun) as (Hid & Hg & nd' & Hns & Hsh & Hr).
      simpl in *. split_and!; [done|done|]. exists nd'. split; [by rewrite Hns, insert_insert_eq|].
      split; [eapply same_shape_trans; [by apply (create_prop_shape kv)|done]|done].
Qed.


Lemma fresh_lookup d i nd : doc_fresh d -> nodes d !! i = Some nd -> i < next_id d.
Proof. intros Hf H. apply Hf. by eexists. Qed.

Lemma kids_loop f p pn kids :
  (forall x, x ∈ kids -> ce_spec f x) -> (forall s, kind pn <> NText s) -> parent pn = None ->
  forall w r w' cs ivs0,
  forM_ (fun child => r ← createElement_fuel f child; appendChild_opt p r) kids w = (r, w') ->
  doc_fresh (w_doc w) -> nodes (w_doc w) !! p = Some (set_children cs pn) ->
  Forall (fun c => S p <= c < next_id (w_doc w)) cs ->
  Forall2 (rview (S p) (next_id (w_doc w)) f (nodes (w_doc w))) cs ivs0 ->
  doc_fresh (w_doc w') /\ frame_at p (w_doc w) (w_doc w') /\
  match r with
  | inl e => map_res (materialize_fuel f) kids = inl e
  | inr _ => exists ins ivs vss, map_res (materialize_fuel f) kids = inr vss /\ concat vss = concat ivs /\
      nodes (w_doc w') !! p = Some (set_children (cs ++ ins) pn) /\
      Forall (fun c => S p <= c < next_id (w_doc w')) (cs ++ ins) /\
      Forall2 (rview (S p) (next_id (w_doc w')) f (nodes (w_doc w'))) (cs ++ ins) (ivs0 ++ ivs)
  end.
Proof.
  intros Hce Hpk Hpp. induction kids as [|x kids IH]; intros w r w' cs ivs0 Hrun Hfr Hp Hcs Hiv.
  { simpl in Hrun. injection Hrun as <- <-. split_and!; [done|apply frame_at_refl|].
    exists [], [], []. rewrite !app_nil_r. done. }
  assert (Hplt : p < next_id (w_doc w)) by (eapply fresh_lookup; eauto).
  simpl in Hrun. rewrite !bind_run in Hrun.
  destruct (createElement_fuel f x w) as [[e|res] w1] eqn:Hc.
  - injection Hrun as <- <-.
    destruct (Hce x ltac:(set_solver) w _ _ Hfr Hc) as (Hfr1 & Hfm1 & Hm).
    split_and!; [done|by eapply frame_at_mono; [|exact Hfm1]; lia|]. simpl. by rewrite Hm.
  - destruct (Hce x ltac:(set_solver) w _ _ Hfr Hc) as (Hfr1 & Hfm1 & vs & Hm & Hok).
    pose proof Hfm1 as [Hid1 Hfm1'].
    destruct (append_step f p pn cs ivs0 (next_id (w_doc w)) w1 res vs) as
      (w2 & ins & vss & Happ & Hfr2 & Hfm2 & Hid2 & Hvs & Hp2 & Hcs2 & Hiv2 & _ & _); try done.
    { by rewrite Hfm1'. }
    { apply (Forall2_rview_move (S p) _ (S p) (next_id (w_doc w)) f (nodes (w_doc w))); [lia|lia| |done].
      eapply frame_at_agree; [|exact Hfm1]. lia. }
    rewrite Happ in Hrun.
    destruct (IH ltac:(intros; apply Hce; set_solver) w2 r w' (cs ++ ins) (ivs0 ++ vss)
                Hrun Hfr2 Hp2 Hcs2 Hiv2) as (Hfr3 & Hfm3 & Hres).
    split_and!; [done| |].
    { eapply frame_at_trans; [eapply frame_at_mono; [|exact Hfm1]; lia|].
      by eapply frame_at_trans. }
    simpl. rewrite Hm. destruct r as [e|u].
    + by rewrite Hres.
    + destruct Hres as (ins' & ivs & vss' & Hm' & Hc' & Hp3 & Hcs3 & Hiv3).
      rewrite Hm'. exists (ins ++ ins'), (vss ++ ivs), (vs :: vss'). rewrite !app_assoc.
      split_and!; try done. simpl. rewrite Hc', Hvs. by rewrite concat_app.
Qed.

Lemma alloc_fresh d nd : doc_fresh d ->
  doc_fresh (mkDoc (<[next_id d := nd]> (nodes d)) (S (next_id d))).
Proof.
  intros Hf i Hi. simpl in *. destruct (decide (i = next_id d)) as [->|Hne]; [lia|].
  rewrite lookup_insert_ne in Hi by done. specialize (Hf i Hi). lia.
Qed.

Lemma alloc_frame d nd : doc_fresh d ->
  frame_at (next_id d) d (mkDoc (<[next_id d := nd]> (nodes d)) (S (next_id d))).
Proof. intros Hf. split; [simpl; lia|]. intros i Hi. simpl. rewrite lookup_insert_ne; [done|lia]. Qed.

Lemma insert_fresh d i x : doc_fresh d -> i < next_id d ->
  doc_fresh (mkDoc (<[i := x]> (nodes d)) (next_id d)).
Proof.
  intros Hf Hi k Hk. simpl in *. destruct (decide (k = i)) as [->|Hne]; [done|].
  rewrite lookup_insert_ne in Hk by done. by apply Hf.
Qed.

Lemma set_children_nil nd : children nd = [] -> set_children [] nd = nd.
Proof. destruct nd; simpl; intros ->; done. Qed.

Lemma createElement_fuel_ok F : forall j, ce_spec F j.
Proof.
  induction F as [|f IH]; intros j w r w' Hfr Hrun.
  { injection Hrun as <- <-. split_and!; [done|apply frame_at_refl|done]. }
  cbn [createElement_fuel materialize_fuel] in *.
  destruct (classify j) as [s|items|tag props children ref|] eqn:Hcl.
  - (* text *)
    rewrite bind_run in Hrun. unfold doc_createTextNode in Hrun.
    rewrite (dom_run _ _ _ _ (alloc_run _ _)) in Hrun. injection Hrun as <- <-. simpl.
    split_and!; [by apply alloc_fresh|by apply alloc_frame|].
    eexists; split; [done|]. simpl. eexists. split_and!; [by rewrite lookup_insert_eq|lia|done| |].
    { simpl. constructor; [lia|constructor]. }
    exists [[VText s]]. split; [|done]. constructor; [|constructor].
    eapply rview_text; [simpl; lia|apply lookup_insert_eq|done].
  - (* fragment *)
    rewrite bind_run in Hrun. unfold doc_createDocumentFragment in Hrun.
    rewrite (dom_run _ _ _ _ (alloc_run _ _)) in Hrun. rewrite bind_run in Hrun.
    set (w1 := mkWorld _ (w_gen w)) in Hrun.
    destruct (forM_ _ items w1) as [[e|u] w2] eqn:Hloop; injection Hrun as <- <-.
    all: destruct (kids_loop f (next_id (w_doc w)) (blank NFragment) items
             ltac:(intros; apply IH) ltac:(done) ltac:(done) w1 _ _ [] [] Hloop) as (Hfr2 & Hfm2 & Hres);
      [by apply alloc_fresh|by simpl; rewrite lookup_insert_eq|constructor|constructor|].
    all: split_and!; [done|eapply frame_at_trans; [by apply alloc_frame|exact Hfm2]|].
    + by rewrite Hres.
    + destruct Hres as (ins & ivs & vss & Hm & Hc & Hp & Hcs & Hiv). rewrite Hm.
      eexists; split; [done|]. simpl. eexists. split_and!; [exact Hp|lia|done| |].
      { simpl. exact Hcs. }
      exists ivs. split; [|done]. simpl. eapply Forall2_impl; [exact Hiv|]. intros. by apply rview_S.
  - (* tagged *)
    set (n0 := next_id (w_doc w)). rewrite bind_run in Hrun. unfold doc_createElement in Hrun.
    destruct (valid_element_local_name (to_string tag)) eqn:Hv.
    2: { cbn in Hrun. injection Hrun as <- <-. split_and!; [done|apply frame_at_refl|done]. }
    rewrite (dom_run _ _ _ _ (alloc_run _ _)) in Hrun.
    set (w1 := mkWorld _ (w_gen w)) in Hrun.
    assert (Hfr1 : doc_fresh (w_doc w1)) by (by apply alloc_fresh).
    assert (Hfm1 : frame_at n0 (w_doc w) (w_doc w1)) by (by apply alloc_frame).
    assert (Hel : nodes (w_doc w1) !! n0 = Some (blank (NElement (toLowerCase (to_string tag))))).
    { apply lookup_insert_eq. }
    rewrite bind_run in Hrun. destruct (entries props) as [es|] eqn:He; cbn [from_opt] in Hrun.
    2: { injection Hrun as <- <-. split_and!; [done|done|done]. }
    rewrite ret_run, bind_run in Hrun.
    destruct (forM_ _ es w1) as [[e|u] w2] eqn:Hpl;
      destruct (props_loop _ _ _ _ _ _ Hel Hpl) as (Hid2 & Hg2 & nd' & Hns2 & Hsh & Hfold).
    all: assert (Hfr2 : doc_fresh (w_doc w2)) by
      (replace (w_doc w2) with (mkDoc (<[n0 := nd']> (nodes (w_doc w1))) (next_id (w_doc w1)))
         by (destruct (w_doc w2); simpl in *; by subst); apply insert_fresh; [done|simpl; lia]).
    all: assert (Hfm2 : frame_at n0 (w_doc w) (w_doc w2)) by
      (eapply frame_at_trans; [exact Hfm1|]; split; [lia|]; intros i Hi; rewrite Hns2;
       by rewrite lookup_insert_ne by lia).
    { injection Hrun as <- <-. split_and!; [done|done|]. by rewrite Hfold. }
    rewrite bind_run in Hrun. destruct (children_items children) as [e|kids] eqn:Hch; cbn [lift_res] in Hrun.
    { injection Hrun as <- <-. split_and!; [done|done|]. by rewrite Hfold. }
    rewrite ret_run, bind_run in Hrun.
    destruct Hsh as (Hk' & Hc' & Hp').
    destruct (forM_ _ kids w2) as [[e|u'] w3] eqn:Hloop;
      destruct (kids_loop f n0 nd' kids ltac:(intros; apply IH) ltac:(intros; by rewrite Hk')
                 ltac:(done) w2 _ _ [] [] Hloop Hfr2) as (Hfr3 & Hfm3 & Hres);
      [rewrite Hns2, lookup_insert_eq, set_children_nil by done; done|constructor|constructor| |
       rewrite Hns2, lookup_insert_eq, set_children_nil by done; done|constructor|constructor|].
    { injection Hrun as <- <-. split_and!; [done|by eapply frame_at_trans|]. by rewrite Hfold, Hres. }
    destruct Hres as (ins & ivs & vss & Hm & Hcc & Hp3 & Hcs3 & Hiv3).
    rewrite Hfold, Hm. rewrite bind_run in Hrun.
    assert (Hw4 : exists g, (if truthy ref then registerRef (to_string ref) (next_id (w_doc w)) else mret ()) w3
                            = (inr tt, mkWorld (w_doc w3) g)).
    { destruct (truthy ref); [by eexists|exists (w_gen w3); by destruct w3]. }
    destruct Hw4 as [g Hw4]. rewrite Hw4 in Hrun. injection Hrun as <- <-. simpl.
    split_and!; [done|by eapply frame_at_trans|].
    eexists; split; [done|]. simpl. eexists. split_and!; [exact Hp3|lia|done| |].
    { unfold inserted. simpl. rewrite Hk'. simpl. constructor; [|constructor].
      pose proof (fresh_lookup _ _ _ Hfr3 Hp3). lia. }
    eexists. split.
    + unfold inserted. simpl. rewrite Hk'. simpl. constructor; [|constructor].
      apply (rview_element (next_id (w_doc w)) (next_id (w_doc w3)) f (nodes (w_doc w3))
               (next_id (w_doc w)) (set_children ins nd')); [|exact Hp3|by simpl; rewrite Hk'|].
      { pose proof (fresh_lookup _ _ _ Hfr3 Hp3). lia. }
      simpl. eapply Forall2_impl; [exact Hiv3|]. intros c v Hcv.
      eapply rview_range; [|done|exact Hcv]. lia.
    + simpl. by rewrite Hcc.
  - (* absent *)
    injection Hrun as <- <-. split_and!; [done|apply frame_at_refl|]. by eexists.
Qed.


(** ** Consequences of the refinement *)

Lemma ce_ok_view F lo d r vs :
  doc_fresh d -> ce_ok F lo d r vs -> view_result (S F) (nodes d) r = Some vs.
Proof.
  intros Hfr. destruct r as [n|]; simpl; [|by intros ->].
  intros (nd & Hn & _ & _ & Hin & vss & Hv & ->).
  pose proof (fresh_lookup _ _ _ Hfr Hn) as Hlt. unfold inserted in *.
  destruct (kind nd) eqn:Hk.
  1,2: inversion Hv as [|? v ? ? Hv1 Hnil]; subst; inversion Hnil; subst;
       simpl; rewrite app_nil_r; apply view_S, Hv1; reflexivity.
  apply (rview_fragment n (next_id d) F (nodes d) n nd); [lia|done|done| |reflexivity].
  eapply Forall2_impl; [exact Hv|]. intros c v Hc. eapply rview_range; [| |exact Hc]; lia.
Qed.

Lemma assignStyle_fold_err es (acc : exn + node) e :
  (forall e0, acc = inl e0 -> e0 <> EOutOfFuel) ->
  fold_left (fun acc kv => match acc with
        | inl e => inl e
        | inr nd => if is_array_index kv.1 then inl (ETypeError "Cannot assign to read only property")
                    else inr (set_style (attr_set kv.1 (to_string kv.2) (style nd)) nd) end) es acc = inl e ->
  e <> EOutOfFuel.
Proof.
  revert acc. induction es as [|kv es IH]; intros acc Hacc; simpl; [by apply Hacc|].
  apply IH. intros e0 He0. destruct acc as [e1|y]; [by simplify_eq; apply Hacc|].
  destruct (is_array_index kv.1); simplify_eq; done.
Qed.

Lemma create_prop_err kv nd e : create_prop kv nd = inl e -> e <> EOutOfFuel.
Proof.
  destruct kv as [key value]. unfold create_prop.
  unfold node_setClassName, node_addEventListener, node_assignStyle, node_setAttribute.
  intros Hcp. repeat case_match; simplify_eq; try done.
  all: eapply assignStyle_fold_err; [|exact Hcp]; done.
Qed.

Lemma children_items_err children e : children_items children = inl e -> e <> EOutOfFuel.
Proof. destruct children; cbn [children_items]; repeat case_match; intros; simplify_eq; done. Qed.

(** With fuel above the depth, the specification never runs out. *)
Lemma materialize_fuel_total F j : depth j < F -> materialize_fuel F j <> inl EOutOfFuel.
Proof.
  revert j. induction F as [|f IH]; intros j Hd; [lia|]. cbn [materialize_fuel].
  destruct (classify j) as [s|items|tag props children ref|] eqn:Hc; try done.
  - apply classify_fragment in Hc as ->.
    destruct (map_res _ items) as [e|] eqn:Hm; [|done]. intros Heq; injection Heq as Heq; subst e.
    destruct (map_res_inl _ _ _ Hm) as (x & Hx & Hfx).
    apply (IH x); [|done]. pose proof (depth_arr_elem _ _ Hx). lia.
  - repeat case_match; try done; intros Heq; injection Heq as Heq; subst.
    + match goal with H : fold_res _ _ _ = inl _ |- _ =>
        destruct (fold_res_inl _ _ _ _ H) as (x & b & _ & Hx) end. by eapply create_prop_err.
    + match goal with H : children_items _ = inl _ |- _ => by eapply children_items_err end.
    + match goal with Hm : map_res _ _ = inl _ |- _ => destruct (map_res_inl _ _ _ Hm) as (x & Hx & Hfx) end.
      apply (IH x); [|done].
      match goal with Hk : children_items _ = inr _ |- _ => pose proof (children_items_depth _ _ _ Hk Hx) end.
      destruct (classify_tagged_depth _ _ _ _ _ Hc) as [Hd' | Hnil]; [lia|subst; simplify_eq/=; set_solver].
Qed.


(** ** The registry of refs *)

Ltac run_step H :=
  rewrite bind_run in H;
  lazymatch type of H with
  | (match ?x with _ => _ end) = _ => let E := fresh "E" in destruct x as [[?|?] ?] eqn:E; [discriminate|]
  end.

(** A successful tagged creation returns the element it allocated first,
    and its last change of the world is the registration of its own ref. *)
Lemma createElement_tagged_run f j tag props children ref w n w' :
  classify j = ETTagged tag props children ref ->
  createElement_fuel (S f) j w = (inr (Some n), w') ->
  n = next_id (w_doc w) /\
  exists w3, w' = if truthy ref then mkWorld (w_doc w3) (set_ref (to_string ref) n (w_gen w3)) else w3.
Proof.
  intros Hc H. cbn [createElement_fuel] in H. rewrite Hc in H.
  rewrite bind_run in H. unfold doc_createElement in H.
  destruct (valid_element_local_name (to_string tag)); [|discriminate].
  rewrite (dom_run _ _ _ _ (alloc_run _ _)) in H.
  do 4 run_step H. rewrite bind_run in H.
  destruct (truthy ref); cbn in H; rewrite ret_run in H; simplify_eq; (split; [done|eexists; reflexivity]).
Qed.

(** ** The listeners a creation installs *)

Section listeners.
Context (P : list (string * jval) -> Prop) (HP : P []) (r : string * jval -> bool).
Hypothesis Hr : forall kv nd nd', r kv = true -> create_prop kv nd = inr nd' ->
  P (listeners nd) -> P (listeners nd').

Lemma preserves_dom_doc {A} (m : M doc A) :
  preserves (listeners_inv P) m -> preserves (fun w => listeners_inv P (w_doc w)) (dom m).
Proof. intros Hm w res w' H Hrun. apply dom_inv in Hrun as [Hrun _]. eapply Hm; eauto. Qed.

Lemma preserves_registerRef_doc key el : preserves (fun w => listeners_inv P (w_doc w)) (registerRef key el).
Proof. intros w res w' H Hrun. unfold registerRef in Hrun. by simplify_eq. Qed.

Lemma preserves_appendChild_opt_doc p res :
  preserves (fun w => listeners_inv P (w_doc w)) (appendChild_opt p res).
Proof.
  destruct res; simpl; preserves_tac. apply preserves_dom_doc. by apply preserves_appendChild.
Qed.

(** A creation only installs listeners its JSON's properties ask for. *)
Lemma createElement_fuel_listeners F : forall j, json_propsb r F j = true ->
  preserves (fun w => listeners_inv P (w_doc w)) (createElement_fuel F j).
Proof.
  induction F as [|f IH]; intros j Hj; cbn [createElement_fuel]; [apply preserves_throw|].
  cbn [json_propsb] in Hj. destruct (classify j) as [s|items|tag props children ref|]; preserves_tac.
  all: try (apply preserves_dom_doc; eauto with js; fail).
  all: try apply preserves_registerRef_doc.
  - apply preserves_forM. intros x Hx. preserves_tac; [apply IH|apply preserves_appendChild_opt_doc].
    eapply forallb_forall in Hj; [exact Hj|by apply list_elem_of_In].
  - apply preserves_forM. intros kv Hkv. apply preserves_dom_doc, preserves_update_node.
    intros nd nd' Hc. apply (Hr kv); [|done].
    match goal with H : entries props = Some _ |- _ => rewrite H in Hj end.
    apply andb_true_iff in Hj as [Hps _].
    eapply forallb_forall in Hps; [exact Hps|by apply list_elem_of_In].
  - apply preserves_forM. intros y Hy. preserves_tac; [apply IH|apply preserves_appendChild_opt_doc].
    match goal with H : children_items children = inr _ |- _ => rewrite H in Hj end.
    apply andb_true_iff in Hj as [_ Hks].
    eapply forallb_forall in Hks; [exact Hks|by apply list_elem_of_In].
Qed.
End listeners.

(** ** Main theorems *)

(** C1. Refinement of the creation: from a fresh arena, [createElement j]
    raises exactly the exception the specification [materialize j] gives,
    or returns what reads back as [materialize j]: nothing for an absent
    value, the spliced children of a fragment, a text leaf, or one element
    with the attributes, style, listeners and children its JSON gives. *)
Theorem createElement_refines j w :
  doc_fresh (w_doc w) ->
  match createElement j w with
  | (inl e, _) => materialize j = inl e
  | (inr r, w') => exists vs, materialize j = inr vs /\
                     view_result (S (S (depth j))) (nodes (w_doc w')) r = Some vs
  end.
Proof.
  intros Hfr. unfold createElement, materialize.
  destruct (createElement_fuel _ j w) as [[e|r] w'] eqn:Hrun;
    destruct (createElement_fuel_ok _ j w _ _ Hfr Hrun) as (Hfr' & _ & Hr); [done|].
  destruct Hr as (vs & Hm & Hok). exists vs. split; [done|]. by eapply ce_ok_view.
Qed.

(** C2. Termination: the recursion of [createElement] is bounded by the
    nesting depth of its argument, so on every JSON value the fuel
    [S (depth j)] never runs out: the run of the model is never cut
    short, it returns a node or raises.  (The exceptions it raises are
    the code's own, or [EUnmodelled] for the few host behaviours the model
    leaves out, such as the [length] of a function passed as children.) *)
Theorem createElement_total j w :
  doc_fresh (w_doc w) -> (createElement j w).1 <> inl EOutOfFuel.
Proof.
  intros Hfr. unfold createElement.
  destruct (createElement_fuel _ j w) as [[e|r] w'] eqn:Hrun;
    destruct (createElement_fuel_ok _ j w _ _ Hfr Hrun) as (_ & _ & Hr); [|done].
  simpl. intros [= ->]. eapply materialize_fuel_total; [|exact Hr]. lia.
Qed.

(** C3. Frame: a creation, successful or not, only allocates; the nodes
    that existed before are unchanged, the arena stays well-formed, and a
    returned node is new and has no parent, ready to be inserted. *)
Theorem createElement_frame j w r w' :
  doc_fresh (w_doc w) -> createElement j w = (r, w') ->
  doc_fresh (w_doc w') /\ next_id (w_doc w) <= next_id (w_doc w') /\
  (forall i, i < next_id (w_doc w) -> nodes (w_doc w') !! i = nodes (w_doc w) !! i) /\
  (forall n, r = inr (Some n) ->
     next_id (w_doc w) <= n /\ exists nd, nodes (w_doc w') !! n = Some nd /\ parent nd = None).
Proof.
  intros Hfr Hrun. unfold createElement in Hrun.
  destruct (createElement_fuel_ok _ j w _ _ Hfr Hrun) as (Hfr' & [Hid Hfm] & Hr).
  split_and!; [done|done|done|]. intros n ->.
  destruct Hr as (vs & _ & nd & Hn & Hlo & Hp & _). split; [done|]. by exists nd.
Qed.

(** C4. The element's own ref is registered after its children were
    created, so when an element and one of its descendants carry the same
    ref the outer element wins; every ref but [__proto__] is recorded. *)
Theorem createElement_ref_registered j w n w' tag props children ref :
  classify j = ETTagged tag props children ref -> truthy ref = true ->
  to_string ref <> "__proto__" ->
  createElement j w = (inr (Some n), w') -> refs (w_gen w') !! to_string ref = Some n.
Proof.
  intros Hc Ht Hk Hrun. unfold createElement in Hrun.
  destruct (createElement_tagged_run _ _ _ _ _ _ _ _ _ Hc Hrun) as (-> & w3 & ->).
  rewrite Ht. simpl. unfold set_ref. destruct (String.eqb_spec (to_string ref) "__proto__"); [done|].
  apply lookup_insert_eq.
Qed.

(** C5. Boolean properties: a property other than [className] and the
    [on*] handlers whose value is [true] becomes an attribute whose value
    is its own name, and one whose value is [false] leaves the element
    unchanged (no attribute ["false"]). *)
Theorem create_prop_boolean key b nd :
  key <> "className" -> startsWith key "on" = false ->
  create_prop (key, JBool b) nd = if b then node_setAttribute key key nd else inr nd.
Proof.
  intros Hc Ho. unfold create_prop.
  destruct (String.eqb_spec key "className"); [done|].
  destruct (String.eqb_spec key "onclick") as [->|]; [done|]. rewrite Ho. simpl.
  by rewrite andb_false_r.
Qed.


(** C21. Malformed props raise: an element whose [props] is [null] (the
    default [{}] only replaces [undefined]) makes [Object.entries] throw a
    TypeError once the element is allocated; the spec's "malformed nodes
    never raise" does not hold. *)
Theorem createElement_null_props_raises j w tag children ref :
  classify j = ETTagged tag JNull children ref -> valid_element_local_name (to_string tag) = true ->
  (createElement j w).1 = inl (ETypeError "Cannot convert undefined or null to object").
Proof.
  intros Hc Hv. unfold createElement. cbn [createElement_fuel]. rewrite Hc, bind_run.
  unfold doc_createElement. rewrite Hv, (dom_run _ _ _ _ (alloc_run _ _)). reflexivity.
Qed.

(** ** Witnesses *)

Lemma createElement_refines_witness :
  match createElement sample empty_world with
  | (inl e, _) => materialize sample = inl e
  | (inr r, w') => exists vs, materialize sample = inr vs /\
                     view_result (S (S (depth sample))) (nodes (w_doc w')) r = Some vs
  end.
Proof. apply createElement_refines. intros i [x Hx]. vm_compute in Hx. discriminate. Defined.

Lemma createElement_total_witness : (createElement sample empty_world).1 <> inl EOutOfFuel.
Proof. apply createElement_total. intros i [x Hx]. vm_compute in Hx. discriminate. Defined.

Lemma createElement_frame_witness :
  doc_fresh (w_doc (createElement sample empty_world).2) /\
  (forall n, (createElement sample empty_world).1 = inr (Some n) -> 0 <= n /\
     exists nd, nodes (w_doc (createElement sample empty_world).2) !! n = Some nd /\ parent nd = None).
Proof.
  destruct (createElement_frame sample empty_world (createElement sample empty_world).1
              (createElement sample empty_world).2) as (H1 & _ & _ & H4).
  - intros i [x Hx]. vm_compute in Hx. discriminate.
  - by destruct (createElement sample empty_world).
  - split; [exact H1|exact H4].
Defined.

Lemma createElement_ref_registered_witness :
  refs (w_gen (createElement sample empty_world).2) !! "root" = Some 0.
Proof.
  apply (createElement_ref_registered sample empty_world 0 _ (JStr "div") (get sample "props")
           (get sample "children") (JStr "root")); [reflexivity|reflexivity|discriminate|].
  vm_compute. reflexivity.
Defined.

Lemma createElement_null_props_raises_witness :
  (createElement null_props_sample empty_world).1 =
  inl (ETypeError "Cannot convert undefined or null to object").
Proof.
  apply (createElement_null_props_raises _ _ (JStr "div") (JArr []) JUndefined); reflexivity.
Defined.

Lemma create_prop_boolean_witness :
  create_prop ("disabled", JBool true) (blank (NElement "button")) =
  node_setAttribute "disabled" "disabled" (blank (NElement "button")).
Proof. apply (create_prop_boolean "disabled" true); [discriminate|reflexivity]. Defined.

End DOMGenerator.
