(* ===== verification/Reconcile.v ===== *)
(** * Reconciliation: [updateElement] and [render] (src/native-app.js, lines 63-112)

    The two remaining methods of [class DOMGenerator], on the engine state
    of [Engine] ([DOMGenerator.world]).

    - [updateElement] is [updateElement(oldElement, newJsonElement,
      parent)] (lines 63-105).  [oldElement] is a live node or a plain
      JavaScript value ([old_arg]), as the [typeof] tests of the code
      allow.  The branches are taken in the order of the code: a falsy old
      value appends a new subtree; a falsy new value removes the old node;
      a string or number on either side that is not [===] the other
      replaces; a [tagName] different from the upper-cased [tag] replaces;
      otherwise the properties of the new value are written onto the old
      node (class and attributes only, handlers skipped) and the old node
      is returned unchanged otherwise.
    - [render] is [render(jsonElement, container)] (lines 108-112): build,
      then empty the container, then append.

    [render_run] follows a render into a parentless container step by
    step, reusing the refinement invariant of [Engine]; the theorems on
    [updateElement] follow each branch with the run lemmas of [DomFacts]
    and, for the property patch, the invariant [attrs_patched] of the
    [preserves] calculus.  [demo_world] is a small page used by the
    witnesses. *)

From S2P Require Import Prelude JsValue Dom DomFacts Engine.
Import DOMGenerator.

Module Reconcile.

(** ** [updateElement] *)

(** The first argument of [updateElement]: a live node, or whatever
    JavaScript value the caller passes (the code tests it with [!] and
    [typeof]). *)
Inductive old_arg :=
| OldNode (i : nat)
| OldValue (v : jval).

Definition old_truthy (o : old_arg) : bool :=
  match o with OldNode _ => true | OldValue v => truthy v end.

Definition old_typeof (o : old_arg) : js_type :=
  match o with OldNode _ => TObject | OldValue v => typeof v end.

(** [oldElement !== newJsonElement]: a DOM node is never a JSON value. *)
Definition old_strict_neq (o : old_arg) (v : jval) : bool :=
  match o with OldNode _ => true | OldValue u => negb (strict_eq u v) end.

(** [oldElement.tagName]. *)
Definition old_tagName (o : old_arg) : M world jval :=
  match o with
  | OldNode i => nd ← dom (get_node i); mret (tagName nd)
  | OldValue v => mret (get v "tagName")
  end.

(** [t?.toUpperCase()]: [undefined] for [null] and [undefined]; a value
    without a [toUpperCase] method raises. *)
Definition tag_upper (t : jval) : exn + jval :=
  match t with
  | JUndefined | JNull => inr JUndefined
  | JStr s => inr (JStr (toUpperCase s))
  | JObj _ => if truthy (get t "toUpperCase") then inl (EUnmodelled "toUpperCase of a plain object")
              else inl (ETypeError "toUpperCase is not a function")
  | _ => inl (ETypeError "toUpperCase is not a function")
  end.

(** A DOM method's [Node] argument. *)
Definition as_node (o : old_arg) : M world nat :=
  match o with
  | OldNode i => mret i
  | OldValue _ => throw (ETypeError "parameter is not of type 'Node'")
  end.

(** [parent.replaceChild(this.createElement(newJsonElement, parent),
    oldElement)]: the new subtree is built first, then the arguments are
    checked, then the DOM replaces; the call returns the replaced child. *)
Definition replaceWith (parent : nat) (newJsonElement : jval) (oldElement : old_arg)
  : M world old_arg :=
  r ← createElement newJsonElement;
  n ← r !? ETypeError "parameter 1 is not of type 'Node'";
  old ← as_node oldElement;
  c ← dom (replaceChild parent n old);
  mret (OldNode c).

(** One iteration of the property loop of lines 95-101: [className] is
    assigned, a key starting with ["on"] is skipped, anything else goes
    to [setAttribute(key, value)], whatever the type of [value]. *)
Definition patch_prop (oldElement : old_arg) (kv : string * jval) : M world unit :=
  let '(key, value) := kv in
  if String.eqb key "className" then
    match oldElement with
    | OldNode i => dom (update_node i (node_setClassName (to_string value)))
    | OldValue (JObj _ | JArr _ | JFun _) => throw (EUnmodelled "property write on a plain object")
    | OldValue _ => throw (ETypeError "Cannot create property 'className' on a primitive")
    end
  else if negb (startsWith key "on") then
    match oldElement with
    | OldNode i => dom (update_node i (node_setAttribute key (to_string value)))
    | OldValue v => if truthy (get v "setAttribute")
                    then throw (EUnmodelled "setAttribute of a plain object")
                    else throw (ETypeError "setAttribute is not a function")
    end
  else mret tt.

Definition updateElement (oldElement : old_arg) (newJsonElement : jval) (parent : nat)
  : M world old_arg :=
  if negb (old_truthy oldElement) then
    r ← createElement newJsonElement;
    n ← r !? ETypeError "parameter 1 is not of type 'Node'";
    c ← dom (appendChild parent n);
    mret (OldNode c)
  else if negb (truthy newJsonElement) then
    old ← as_node oldElement;
    c ← dom (removeChild parent old);
    mret (OldNode c)
  else if (bool_decide (old_typeof oldElement = TString)
           || bool_decide (typeof newJsonElement = TString)
           || bool_decide (old_typeof oldElement = TNumber)
           || bool_decide (typeof newJsonElement = TNumber))
          && old_strict_neq oldElement newJsonElement then
    replaceWith parent newJsonElement oldElement
  else
    tn ← old_tagName oldElement;
    up ← lift_res (tag_upper (get newJsonElement "tag"));
    if negb (strict_eq tn up) then replaceWith parent newJsonElement oldElement
    else
      (let props := get newJsonElement "props" in
       if truthy props then
         es ← entries props !? ETypeError "Cannot convert undefined or null to object";
         forM_ (patch_prop oldElement) es
       else mret tt) ;;
      mret oldElement.

(** ** [render] *)

(** [render(jsonElement, container)]: the new subtree is built before the
    container is emptied, then appended. *)
Definition render (jsonElement : jval) (container : nat) : M world unit :=
  element ← createElement jsonElement;
  dom (clearChildren container) ;;
  appendChild_opt container element.



(** ** Sample documents *)

Definition demo_container : node := mkNode (NElement "div") [] [] [] [1; 2] None.
Definition demo_text : node := mkNode (NText "old") [] [] [] [] (Some 0).
Definition demo_span : node := mkNode (NElement "span") [] [] [] [] (Some 0).

(** A container [0] holding a text node [1] and an element [2]. *)
Definition demo_world : world :=
  mkWorld (mkDoc (<[0 := demo_container]> (<[1 := demo_text]> (<[2 := demo_span]> ∅))) 3) constructor.

(** ** Facts about [render] *)

(** The state after a property patch of node [i]: only the attributes of
    [i] differ from the state [w0]. *)
Definition attrs_patched (i : nat) (w0 w : world) : Prop :=
  next_id (w_doc w) = next_id (w_doc w0) /\ w_gen w = w_gen w0 /\
  (forall k, k <> i -> nodes (w_doc w) !! k = nodes (w_doc w0) !! k) /\
  exists nd0 a, nodes (w_doc w0) !! i = Some nd0 /\ nodes (w_doc w) !! i = Some (set_attrs a nd0).

Definition same_tag_sample : list (string * jval) :=
  [("tag", JStr "span"); ("props", JObj [("title", JStr "x"); ("onclick", JFun 3)])].

(** A created subtree is described only by the nodes from its first
    identity on: a change below leaves its description valid. *)
Lemma ce_ok_transport F lo d d' r vs :
  ce_ok F lo d r vs -> next_id d' = next_id d ->
  (forall i, lo <= i -> nodes d' !! i = nodes d !! i) -> ce_ok F lo d' r vs.
Proof.
  destruct r as [n|]; [|done]. intros Hok Hid Heq. simpl in Hok |- *.
  destruct Hok as (nd & Hn & Hlo & Hp & Hin & vss & Hv & ->).
  exists nd. rewrite Heq, Hid by lia. split_and!; try done. exists vss. split; [|done].
  eapply Forall2_impl; [exact Hv|]. intros c v Hc. eapply rview_transport; [|exact Hc].
  intros i Hi. rewrite Heq; [done|]. destruct (kind nd); lia.
Qed.

(** [render] into a parentless container [p] whose children exist: the
    run of the code, against the specification. *)
Section render_facts.
Context (j : jval) (p : nat) (pn : node) (w : world).
Hypothesis Hfr : doc_fresh (w_doc w).
Hypothesis Hp : nodes (w_doc w) !! p = Some pn.
Hypothesis Hpk : forall s, kind pn <> NText s.
Hypothesis Hpp : parent pn = None.
Hypothesis Hkids : Forall (fun c => is_Some (nodes (w_doc w) !! c)) (children pn).

Lemma render_run :
  match render j p w with
  | (inl e, w') => materialize j = inl e /\
      forall i, i < next_id (w_doc w) -> nodes (w_doc w') !! i = nodes (w_doc w) !! i
  | (inr _, w') => exists vs ins vss, materialize j = inr vs /\ doc_fresh (w_doc w') /\
      nodes (w_doc w') !! p = Some (set_children ins pn) /\
      mapM (view (S (depth j)) (nodes (w_doc w'))) ins = Some vss /\ vs = concat vss /\
      Forall (fun c => next_id (w_doc w) <= c) ins /\
      (forall c, c <> p -> c < next_id (w_doc w) ->
         nodes (w_doc w') !! c = if bool_decide (c ∈ children pn)
                                 then set_parent None <$> nodes (w_doc w) !! c
                                 else nodes (w_doc w) !! c)
  end.
Proof.
  unfold render. rewrite bind_run.
  destruct (createElement j w) as [[e|res] w1] eqn:Hc;
    pose proof Hc as Hc'; unfold createElement in Hc';
    destruct (createElement_fuel_ok _ j w _ _ Hfr Hc') as (Hfr1 & [Hid1 Hfm1] & Hr).
  { split; [done|exact Hfm1]. }
  destruct Hr as (vs & Hm & Hok).
  assert (Hplt : p < next_id (w_doc w)) by (eapply fresh_lookup; eauto).
  assert (Hp1 : nodes (w_doc w1) !! p = Some pn) by (rewrite Hfm1; done).
  assert (Hlow : forall c, c ∈ children pn -> c < next_id (w_doc w)).
  { intros c Hc0. apply Hfr. by apply (proj1 (Forall_forall _ _) Hkids). }
  assert (Hk1 : Forall (fun c => is_Some (nodes (w_doc w1) !! c)) (children pn)).
  { apply Forall_forall. intros c Hc0. rewrite Hfm1 by (by apply Hlow).
    by apply (proj1 (Forall_forall _ _) Hkids). }
  destruct (clearChildren_run _ _ _ Hp1 Hpp Hk1) as (ns2 & Hrun2 & Hp2 & Hns2).
  rewrite bind_run, (dom_run _ _ _ _ Hrun2).
  set (w2 := mkWorld (mkDoc ns2 (next_id (w_doc w1))) (w_gen w1)).
  assert (Hhigh : forall i, next_id (w_doc w) <= i -> ns2 !! i = nodes (w_doc w1) !! i).
  { intros i Hi. rewrite Hns2 by lia. case_bool_decide as Hin; [|done]. specialize (Hlow _ Hin). lia. }
  assert (Hfr2 : doc_fresh (w_doc w2)).
  { intros i Hi. simpl in *. apply Hfr1. destruct (decide (i = p)) as [->|Hne]; [by rewrite Hp1|].
    rewrite Hns2 in Hi by done. case_bool_decide; [|done]. by apply fmap_is_Some in Hi. }
  assert (Hok2 : ce_ok (S (depth j)) (next_id (w_doc w)) (w_doc w2) res vs)
    by (eapply ce_ok_transport; [exact Hok|done|exact Hhigh]).
  destruct (append_step (S (depth j)) p pn [] [] (next_id (w_doc w)) w2 res vs)
    as (w3 & ins & vss & Happ & Hfr3 & _ & _ & Hvs & Hp3 & _ & Hiv3 & Hfm3 & Hins);
    [done|done|done|exact Hp2|done|constructor|constructor|simpl; lia|done|].
  rewrite Happ. exists vs, ins, vss. split_and!; try done.
  - eapply rview_kids; [reflexivity|exact Hiv3].
  - intros c Hcp Hclt. rewrite Hfm3 by done. simpl. rewrite Hns2 by done. by rewrite !Hfm1 by lia.
Qed.
End render_facts.


(** ** Facts about [updateElement] *)

Lemma set_attrs_idem a b nd : set_attrs a (set_attrs b nd) = set_attrs a nd.
Proof. by destruct nd. Qed.

Lemma preserves_update_attrs i w0 f :
  (forall nd nd', f nd = inr nd' -> exists a, nd' = set_attrs a nd) ->
  preserves (attrs_patched i w0) (dom (update_node i f)).
Proof.
  intros Hf w r w' (Hid & Hg & Hk & nd0 & a & H0 & Hi) Hrun.
  destruct (f (set_attrs a nd0)) as [e|nd'] eqn:Hfe.
  - rewrite (dom_run _ _ _ _ (update_node_err _ _ _ _ _ Hi Hfe)) in Hrun. simplify_eq.
    split_and!; try done. by exists nd0, a.
  - rewrite (dom_run _ _ _ _ (update_node_run _ _ _ _ _ Hi Hfe)) in Hrun. simplify_eq. cbn [w_doc w_gen nodes next_id] in *.
    destruct (Hf _ _ Hfe) as [b ->]. split_and!; try done.
    + intros k Hki. cbn [w_doc nodes]. rewrite lookup_insert_ne by congruence. by apply Hk.
    + exists nd0, b. split; [done|]. cbn [w_doc nodes]. by rewrite lookup_insert_eq, set_attrs_idem.
Qed.

Lemma setClassName_attrs v nd nd' : node_setClassName v nd = inr nd' -> exists a, nd' = set_attrs a nd.
Proof.
  unfold node_setClassName. destruct (kind nd); intros [= <-]; [by eexists| |];
    exists (attrs nd); by destruct nd.
Qed.

Lemma setAttribute_attrs k v nd nd' : node_setAttribute k v nd = inr nd' -> exists a, nd' = set_attrs a nd.
Proof. unfold node_setAttribute. repeat case_match; intros; simplify_eq; by eexists. Qed.

Lemma preserves_patch_prop i w0 kv : preserves (attrs_patched i w0) (patch_prop (OldNode i) kv).
Proof.
  destruct kv as [key value]. unfold patch_prop.
  destruct (String.eqb key "className"); [apply preserves_update_attrs, setClassName_attrs|].
  destruct (negb (startsWith key "on")); [apply preserves_update_attrs, setAttribute_attrs|].
  apply preserves_ret.
Qed.

(** The branch of a live element whose [tagName] matches the new [tag]. *)
Lemma updateElement_same_tag_run i nd ln j fs t p w :
  nodes (w_doc w) !! i = Some nd -> kind nd = NElement ln -> j = JObj fs ->
  get j "tag" = JStr t -> toUpperCase t = toUpperCase ln ->
  updateElement (OldNode i) j p w =
    ((if truthy (get j "props") then
        es ← entries (get j "props") !? ETypeError "Cannot convert undefined or null to object";
        forM_ (patch_prop (OldNode i)) es
      else mret tt) ;; mret (OldNode i)) w.
Proof.
  intros Hi Hk -> Ht Hu. unfold updateElement. cbn [old_truthy truthy negb old_typeof typeof old_strict_neq].
  rewrite !bool_decide_false by done. cbn [orb andb].
  rewrite bind_run. cbn [old_tagName]. rewrite bind_run, (dom_run _ _ _ _ (get_node_run _ _ _ Hi)).
  rewrite ret_run, bind_run, Ht. cbn [tag_upper lift_res]. rewrite ret_run.
  unfold tagName. rewrite Hk. cbn [strict_eq]. rewrite Hu, String.eqb_refl. destruct w; reflexivity.
Qed.


Lemma attrs_patched_refl i w nd : nodes (w_doc w) !! i = Some nd -> attrs_patched i w w.
Proof. intros Hi. split_and!; try done. exists nd, (attrs nd). split; [done|]. rewrite Hi. by destruct nd. Qed.

Lemma classify_no_tag fs : assoc "tag" fs = None -> classify (JObj fs) = ETAbsent.
Proof. intros H. unfold classify, get. by rewrite H. Qed.

Lemma createElement_absent_run f j w : classify j = ETAbsent -> createElement_fuel (S f) j w = (inr None, w).
Proof. intros H. cbn [createElement_fuel]. by rewrite H. Qed.

(** ** Main theorems *)

(** C6. [render] refines the specification: into a parentless container
    whose children exist, a render raises exactly the exception of
    [materialize j], or leaves the container's children reading back as
    [materialize j] (a full rebuild, whatever the container held). *)
Theorem render_refines j p pn w :
  doc_fresh (w_doc w) -> nodes (w_doc w) !! p = Some pn -> (forall s, kind pn <> NText s) ->
  parent pn = None -> Forall (fun c => is_Some (nodes (w_doc w) !! c)) (children pn) ->
  match render j p w with
  | (inl e, _) => materialize j = inl e
  | (inr _, w') => exists vs ins vss, materialize j = inr vs /\
      nodes (w_doc w') !! p = Some (set_children ins pn) /\
      mapM (view (S (depth j)) (nodes (w_doc w'))) ins = Some vss /\ vs = concat vss
  end.
Proof.
  intros Hfr Hp Hpk Hpp Hkids. pose proof (render_run j p pn w Hfr Hp Hpk Hpp Hkids) as H.
  destruct (render j p w) as [[e|u] w']; [by destruct H|].
  destruct H as (vs & ins & vss & Hm & _ & Hp' & Hv & Hc & _). by exists vs, ins, vss.
Qed.

(** C7. [render] builds before it clears: when the creation raises, the
    exception propagates and every node that existed, the container and
    its old children included, is left as it was. *)
Theorem render_error_atomic j p pn w e w' :
  doc_fresh (w_doc w) -> nodes (w_doc w) !! p = Some pn -> (forall s, kind pn <> NText s) ->
  parent pn = None -> Forall (fun c => is_Some (nodes (w_doc w) !! c)) (children pn) ->
  render j p w = (inl e, w') ->
  materialize j = inl e /\ forall i, i < next_id (w_doc w) -> nodes (w_doc w') !! i = nodes (w_doc w) !! i.
Proof.
  intros Hfr Hp Hpk Hpp Hkids Hr. pose proof (render_run j p pn w Hfr Hp Hpk Hpp Hkids) as H.
  by rewrite Hr in H.
Qed.

(** C8. Full rebuild: after a successful render no old child of the
    container is still in it; each one is detached (its parent pointer
    cleared, nothing else changed), and every child of the container is
    a node created by this render. *)
Theorem render_detaches_old_children j p pn w u w' :
  doc_fresh (w_doc w) -> nodes (w_doc w) !! p = Some pn -> (forall s, kind pn <> NText s) ->
  parent pn = None -> Forall (fun c => is_Some (nodes (w_doc w) !! c)) (children pn) ->
  render j p w = (inr u, w') ->
  exists pn', nodes (w_doc w') !! p = Some pn' /\
    Forall (fun c => next_id (w_doc w) <= c) (children pn') /\
    forall c cn, c ∈ children pn -> c <> p -> nodes (w_doc w) !! c = Some cn ->
      nodes (w_doc w') !! c = Some (set_parent None cn) /\ c ∉ children pn'.
Proof.
  intros Hfr Hp Hpk Hpp Hkids Hr. pose proof (render_run j p pn w Hfr Hp Hpk Hpp Hkids) as H.
  rewrite Hr in H. destruct H as (vs & ins & vss & _ & _ & Hp' & _ & _ & Hins & Hold).
  exists (set_children ins pn). split_and!; [done|done|].
  intros c cn Hc Hcp Hcn. assert (Hlt : c < next_id (w_doc w)) by (apply Hfr; by eexists).
  split.
  - rewrite Hold by done. rewrite bool_decide_true by done. by rewrite Hcn.
  - simpl. intros Hin. eapply Forall_forall in Hins; [|exact Hin]. lia.
Qed.

(** C9. On a live node, [updateElement] returns that same node in every
    branch that completes: the patched node, but also the node it removed
    or replaced, which is then detached from the page. *)
Theorem updateElement_live_returns_old i j p w r w' :
  updateElement (OldNode i) j p w = (inr r, w') -> r = OldNode i.
Proof.
  unfold updateElement, replaceWith. cbn [old_truthy negb as_node]. intros H. run_inv H.
  all: try done.
  all: match goal with
       | E : dom (removeChild _ _) _ = _ |- _ => apply dom_inv in E as [E _]; apply removeChild_ret in E
       | E : dom (replaceChild _ _ _) _ = _ |- _ => apply dom_inv in E as [E _]; apply replaceChild_ret in E
       end; by subst.
Qed.

(** C10. Present to absent: updating a child [i] of [p] against a falsy
    value ([null], [undefined], [false], but also [0] and [""], which
    [createElement] renders as text) removes it: [i] leaves the children
    of [p], whose number decreases by exactly one, [i] loses its parent,
    and nothing else changes. *)
Theorem updateElement_present_to_absent i j p w nd pn :
  truthy j = false -> nodes (w_doc w) !! i = Some nd -> parent nd = Some p ->
  nodes (w_doc w) !! p = Some pn -> i <> p -> NoDup (children pn) -> i ∈ children pn ->
  exists w', updateElement (OldNode i) j p w = (inr (OldNode i), w') /\ w_gen w' = w_gen w /\
    nodes (w_doc w') !! i = Some (set_parent None nd) /\
    (exists pn', nodes (w_doc w') !! p = Some pn' /\ i ∉ children pn' /\
                 length (children pn') = length (children pn) - 1) /\
    forall k, k <> i -> k <> p -> nodes (w_doc w') !! k = nodes (w_doc w) !! k.
Proof.
  intros Hj Hi Hpar Hp Hip Hnd Hin. unfold updateElement. cbn [old_truthy negb as_node]. rewrite Hj.
  cbn [negb]. rewrite bind_run, ret_run. cbn beta iota. rewrite bind_run, (dom_run _ _ _ _ (removeChild_run _ _ _ _ _ Hi Hpar Hp Hip)).
  eexists. split; [reflexivity|]. cbn [w_doc w_gen nodes]. split_and!; [done|apply lookup_insert_eq| |].
  - eexists. rewrite lookup_insert_ne, lookup_insert_eq by congruence. split; [done|]. simpl. split.
    + intros Hf. apply list_elem_of_filter in Hf as [? _]. done.
    + by apply length_filter_neq_NoDup.
  - intros k Hki Hkp. by rewrite !lookup_insert_ne by congruence.
Qed.


(** C11. A text leaf against a live node is always replaced: a live node
    is never [===] a string or a number, so updating the text node that
    holds ["a"] with ["a"] again builds a new text node and substitutes
    it, against the idempotent leaf update of spec section 8. *)
Theorem updateElement_leaf_replaces i j p :
  typeof j = TString \/ typeof j = TNumber -> truthy j = true ->
  updateElement (OldNode i) j p = replaceWith p j (OldNode i).
Proof.
  intros Ht Hj. destruct j; destruct Ht as [Ht|Ht]; try discriminate.
  all: unfold updateElement; cbn [old_truthy negb]; rewrite Hj; reflexivity.
Qed.

(** C12. Same tag: when the live element's [tagName] is the upper-cased
    new [tag], the update changes the attributes of that element and
    nothing else: its children, listeners, style and parent, and every
    other node, stay as they were, raising or not; a completed update
    returns the element itself. *)
Theorem updateElement_same_tag_patch i nd ln fs t p w r w' :
  nodes (w_doc w) !! i = Some nd -> kind nd = NElement ln ->
  get (JObj fs) "tag" = JStr t -> toUpperCase t = toUpperCase ln ->
  updateElement (OldNode i) (JObj fs) p w = (r, w') ->
  attrs_patched i w w' /\ (r = inr (OldNode i) \/ exists e, r = inl e).
Proof.
  intros Hi Hk Ht Hu H. rewrite (updateElement_same_tag_run i nd ln _ fs t p w Hi Hk eq_refl Ht Hu) in H.
  split.
  - eapply (fun HP : preserves (attrs_patched i w) _ => HP w r w' (attrs_patched_refl i w nd Hi) H).
    preserves_tac. apply preserves_forM. intros. apply preserves_patch_prop.
  - apply bind_inv in H as [(e & _ & ->)|(a & s & _ & H)]; [by right; exists e|].
    rewrite ret_run in H. left. congruence.
Qed.

(** C13. A new value that is an object without a [tag], against a live
    element, raises a TypeError: [tag?.toUpperCase()] is [undefined], so
    the code replaces, but [createElement] of a tagless object is [null],
    which [replaceChild] rejects.  The spec's "a malformed side prefers
    full replacement" does not hold; the page is left unchanged. *)
Theorem updateElement_tagless_raises i nd ln fs p w :
  nodes (w_doc w) !! i = Some nd -> kind nd = NElement ln -> assoc "tag" fs = None ->
  updateElement (OldNode i) (JObj fs) p w = (inl (ETypeError "parameter 1 is not of type 'Node'"), w).
Proof.
  intros Hi Hk Ht. unfold updateElement. cbn [old_truthy truthy negb old_typeof typeof old_strict_neq].
  rewrite !bool_decide_false by done. cbn [orb andb].
  rewrite bind_run. cbn [old_tagName]. rewrite bind_run, (dom_run _ _ _ _ (get_node_run _ _ _ Hi)), ret_run.
  cbn beta iota. rewrite bind_run. unfold get at 1. rewrite Ht. cbn [default tag_upper lift_res].
  rewrite ret_run. cbn beta iota. unfold tagName. rewrite Hk. cbn [strict_eq negb].
  unfold replaceWith. rewrite bind_run. unfold createElement.
  rewrite (createElement_absent_run _ _ _ (classify_no_tag _ Ht)). cbn beta iota.
  destruct w as [[]]; reflexivity.
Qed.

(** ** Witnesses *)

Lemma render_refines_witness :
  match render sample 0 demo_world with
  | (inl e, _) => materialize sample = inl e
  | (inr _, w') => exists vs ins vss, materialize sample = inr vs /\
      nodes (w_doc w') !! 0 = Some (set_children ins demo_container) /\
      mapM (view (S (depth sample)) (nodes (w_doc w'))) ins = Some vss /\ vs = concat vss
  end.
Proof.
  apply render_refines; [apply (bool_decide_unpack _); vm_compute; exact I|reflexivity|
                         intros s; discriminate|reflexivity|apply (bool_decide_unpack _); vm_compute; exact I].
Defined.

Lemma render_error_atomic_witness :
  materialize null_props_sample = inl (ETypeError "Cannot convert undefined or null to object") /\
  forall i, i < 3 -> nodes (w_doc (render null_props_sample 0 demo_world).2) !! i = nodes (w_doc demo_world) !! i.
Proof.
  apply (render_error_atomic null_props_sample 0 demo_container demo_world);
    [apply (bool_decide_unpack _); vm_compute; exact I|reflexivity|intros s; discriminate|reflexivity|
     apply (bool_decide_unpack _); vm_compute; exact I|vm_compute; reflexivity].
Defined.

Lemma render_detaches_old_children_witness :
  exists pn', nodes (w_doc (render sample 0 demo_world).2) !! 0 = Some pn' /\
    Forall (fun c => 3 <= c) (children pn') /\
    forall c cn, c ∈ children demo_container -> c <> 0 -> nodes (w_doc demo_world) !! c = Some cn ->
      nodes (w_doc (render sample 0 demo_world).2) !! c = Some (set_parent None cn) /\ c ∉ children pn'.
Proof.
  apply (render_detaches_old_children sample 0 demo_container demo_world tt);
    [apply (bool_decide_unpack _); vm_compute; exact I|reflexivity|intros s; discriminate|reflexivity|
     apply (bool_decide_unpack _); vm_compute; exact I|vm_compute; reflexivity].
Defined.

Lemma updateElement_live_returns_old_witness :
  (exists r, (updateElement (OldNode 1) (JStr "new") 0 demo_world).1 = inr r) /\
  (updateElement (OldNode 1) (JStr "new") 0 demo_world).1 = inr (OldNode 1).
Proof.
  destruct (updateElement (OldNode 1) (JStr "new") 0 demo_world) as [[e|r] w'] eqn:E.
  - vm_compute in E. discriminate E.
  - split; [by exists r|]. cbn. f_equal. exact (updateElement_live_returns_old 1 (JStr "new") 0 demo_world r w' E).
Defined.

Lemma updateElement_present_to_absent_witness :
  exists w', updateElement (OldNode 1) (JNum 0) 0 demo_world = (inr (OldNode 1), w') /\
    w_gen w' = w_gen demo_world /\ nodes (w_doc w') !! 1 = Some (set_parent None demo_text) /\
    (exists pn', nodes (w_doc w') !! 0 = Some pn' /\ 1 ∉ children pn' /\
                 length (children pn') = length (children demo_container) - 1) /\
    forall k, k <> 1 -> k <> 0 -> nodes (w_doc w') !! k = nodes (w_doc demo_world) !! k.
Proof.
  apply (updateElement_present_to_absent 1 (JNum 0) 0 demo_world demo_text demo_container); [reflexivity|reflexivity|reflexivity|reflexivity|lia|
    apply (bool_decide_unpack _); vm_compute; exact I|apply (bool_decide_unpack _); vm_compute; exact I].
Defined.

Lemma updateElement_leaf_replaces_witness :
  updateElement (OldNode 1) (JStr "old") 0 = replaceWith 0 (JStr "old") (OldNode 1).
Proof. apply updateElement_leaf_replaces; [left; reflexivity|reflexivity]. Defined.

Lemma updateElement_same_tag_patch_witness :
  attrs_patched 2 demo_world (updateElement (OldNode 2) (JObj same_tag_sample) 0 demo_world).2 /\
  ((updateElement (OldNode 2) (JObj same_tag_sample) 0 demo_world).1 = inr (OldNode 2) \/
   exists e, (updateElement (OldNode 2) (JObj same_tag_sample) 0 demo_world).1 = inl e).
Proof.
  apply (updateElement_same_tag_patch 2 demo_span "span" same_tag_sample "span" 0 demo_world
           (updateElement (OldNode 2) (JObj same_tag_sample) 0 demo_world).1
           (updateElement (OldNode 2) (JObj same_tag_sample) 0 demo_world).2);
    [reflexivity|reflexivity|reflexivity|reflexivity|apply surjective_pairing].
Defined.

Lemma updateElement_tagless_raises_witness :
  updateElement (OldNode 2) (JObj [("props", JObj [])]) 0 demo_world =
  (inl (ETypeError "parameter 1 is not of type 'Node'"), demo_world).
Proof. apply (updateElement_tagless_raises 2 demo_span "span"); reflexivity. Defined.

End Reconcile.
