(* ===== verification/Store.v ===== *)
(** * The observable store: [class AppState] (src/native-app.js, lines 254-277)

    Module [AppState] models the class: its instance state [app_state]
    (the [state] object and the [listeners] array), [setState] (shallow
    merge, then a synchronous call of every listener), [subscribe], the
    unsubscribe closure it returns ([unsubscribe]), and [getState].

    The store lives inside the state [W] of a whole program, reached
    through the lens [store_of]/[with_store], so that a listener can act on
    the rest of the program (the application's listener re-renders).  A
    listener is a function identity; what calling it does is the section
    variable [call], which receives the [setState] it may call back: the
    recursion between [setState] and the listeners is open, and the fuel
    of [setState_fuel] is the depth of nested [setState] calls (the
    JavaScript call stack, whose overflow is a RangeError). *)

From S2P Require Import Prelude JsValue.

Module AppState.

Record app_state := mkAppState {
  state : list (string * jval);
  listeners : list nat
}.

(** [constructor() { this.state = { activeTab: "all" }; this.listeners = []; }] *)
Definition constructor : app_state := mkAppState [("activeTab", JStr "all")] [].

(** [{ ...st, ...newState }]: the own properties of [newState] copied
    over [st] in order; spreading [null] or [undefined] copies nothing. *)
Definition merge (st : list (string * jval)) (newState : jval) : list (string * jval) :=
  fold_left (fun acc kv => assoc_set kv.1 kv.2 acc) (default [] (entries newState)) st.

Section with_program.
Context {W : Type} (store_of : W -> app_state) (with_store : app_state -> W -> W).
Hypothesis store_of_with : forall s w, store_of (with_store s w) = s.

(** [call sS l st]: the body of listener [l] called with the state
    object [st], where [sS] is the store's [setState]. *)
Variable call : (jval -> M W unit) -> nat -> jval -> M W unit.

Definition modify_store (f : app_state -> app_state) : M W unit :=
  w ← get_st; put_st (with_store (f (store_of w)) w).

(** [setState(newState)]: [this.state] is replaced by the merge, then
    [this.listeners.forEach(l => l(this.state))].  [forEach] visits the
    array as it was when the loop started ([subscribe] pushes past its
    length, [unsubscribe] builds a new array), and [this.state] is read
    at each call. *)
Fixpoint setState_fuel (fuel : nat) (newState : jval) : M W unit :=
  match fuel with
  | 0 => throw EOutOfFuel
  | S f =>
      modify_store (fun s => mkAppState (merge (state s) newState) (listeners s)) ;;
      w ← get_st;
      forM_ (fun l => w' ← get_st; call (setState_fuel f) l (JObj (state (store_of w'))))
            (listeners (store_of w))
  end.

(** [subscribe(listener)]: [this.listeners.push(listener)]. *)
Definition subscribe (l : nat) : M W unit :=
  modify_store (fun s => mkAppState (state s) (listeners s ++ [l])).

(** The closure [subscribe] returns: [this.listeners = this.listeners
    .filter(x => x !== listener)]. *)
Definition unsubscribe (l : nat) : M W unit :=
  modify_store (fun s => mkAppState (state s) (filter (fun x => x <> l) (listeners s))).

(** [getState()]. *)
Definition getState : M W jval :=
  w ← get_st; mret (JObj (state (store_of w))).
End with_program.


(** ** The merge *)

(** The program state: the store and the log of the calls of listeners,
    each with the state object it received. *)
Definition logged := (app_state * list (nat * jval))%type.

Definition log_store (w : logged) : app_state := w.1.
Definition log_with (s : app_state) (w : logged) : logged := (s, w.2).

(** A listener that records its call. *)
Definition log_call (sS : jval -> M logged unit) (l : nat) (st : jval) : M logged unit :=
  fun w => (inr tt, (w.1, w.2 ++ [(l, st)])).

Definition log_setState := setState_fuel log_store log_with log_call.
Definition log_subscribe := subscribe log_store log_with.
Definition log_unsubscribe := unsubscribe log_store log_with.

(** A listener that, on its first call (when the state has no key ["x"]),
    calls [setState({x: 1})], and records every call. *)
Definition reentrant_call (sS : jval -> M logged unit) (l : nat) (st : jval) : M logged unit :=
  log_call sS l st ;;
  if decide (l = 1 /\ get st "x" = JUndefined) then sS (JObj [("x", JNum 1)]) else mret tt.

(** ** Main theorems *)

Lemma fold_assoc_set_lookup k (es st : list (string * jval)) :
  assoc k (fold_left (fun acc kv => assoc_set kv.1 kv.2 acc) es st) =
  match assoc k (reverse es) with Some v => Some v | None => assoc k st end.
Proof.
  revert st. induction es as [|[k' v'] es IH]; intros st; simpl; [done|].
  rewrite IH, reverse_cons, assoc_app, assoc_assoc_set. simpl.
  destruct (assoc k (reverse es)); [done|]. by destruct (String.eqb k k').
Qed.

(** ** A program whose listeners log their calls *)

Lemma log_loop (sS : jval -> M logged unit) st ls0 ls log :
  forM_ (fun l => w' ← get_st; log_call sS l (JObj (state (log_store w')))) ls
        (mkAppState st ls0, log) =
  (inr tt, (mkAppState st ls0, log ++ map (fun l => (l, JObj st)) ls)).
Proof.
  revert log. induction ls as [|l ls IH]; intros log; cbn [forM_ map]; [by rewrite app_nil_r|].
  rewrite !bind_run. cbn. rewrite IH. by rewrite <- app_assoc.
Qed.


Lemma assoc_reverse_NoDup k (fs : list (string * jval)) :
  NoDup fs.*1 -> assoc k (reverse fs) = assoc k fs.
Proof.
  induction fs as [|[k' v'] fs IH]; intros Hnd; [done|]. simpl in Hnd.
  apply NoDup_cons in Hnd as [Hk' Hnd]. rewrite reverse_cons, assoc_app, IH by done. simpl.
  destruct (String.eqb_spec k k') as [->|]; [|by destruct (assoc k fs)].
  by rewrite (proj2 (assoc_None _ _) Hk').
Qed.

(** C14. [setState] merges shallowly: for a partial state object with
    distinct keys, a key it has takes its new value and every other key
    keeps the value it had. *)
Theorem merge_lookup st fs k :
  NoDup fs.*1 ->
  assoc k (merge st (JObj fs)) = match assoc k fs with Some v => Some v | None => assoc k st end.
Proof. intros Hnd. unfold merge. simpl. by rewrite fold_assoc_set_lookup, assoc_reverse_NoDup. Qed.

(** C15. Notification: [setState] calls every subscribed listener once, in
    subscription order, each with the new full state, unconditionally
    (also when the merge changes nothing), and then returns. *)
Theorem setState_notifies f st ls log ns :
  log_setState (S f) ns (mkAppState st ls, log) =
  (inr tt, (mkAppState (merge st ns) ls, log ++ map (fun l => (l, JObj (merge st ns))) ls)).
Proof.
  unfold log_setState. cbn [setState_fuel]. rewrite bind_run. cbn. apply log_loop.
Qed.

(** C16. Unsubscribing removes every occurrence of the listener: after
    [subscribe(l)] and its unsubscribe, [l] is no longer called, even when
    it had been subscribed before, and the others keep their order. *)
Theorem unsubscribe_then_setState f st ls log l ns :
  (log_subscribe l ;; log_unsubscribe l ;; log_setState (S f) ns) (mkAppState st ls, log) =
  (inr tt, (mkAppState (merge st ns) (filter (fun x => x <> l) ls),
            log ++ map (fun x => (x, JObj (merge st ns))) (filter (fun x => x <> l) ls))).
Proof.
  unfold log_subscribe, log_unsubscribe, subscribe, unsubscribe, modify_store.
  rewrite !bind_run. cbn -[filter merge log_setState]. rewrite !bind_run. cbn -[filter merge log_setState].
  rewrite filter_app, filter_cons_False, app_nil_r by tauto.
  unfold log_setState. cbn [setState_fuel]. rewrite bind_run. cbn. apply log_loop.
Qed.

(** A round of listeners that do not call back behaves like [log_loop]. *)
Lemma reentrant_quiet_loop (sS : jval -> M logged unit) st ls0 ls log :
  (forall l, l ∈ ls -> ~ (l = 1 /\ get (JObj st) "x" = JUndefined)) ->
  forM_ (fun l => w' ← get_st; reentrant_call sS l (JObj (state (log_store w')))) ls
        (mkAppState st ls0, log) =
  (inr tt, (mkAppState st ls0, log ++ map (fun l => (l, JObj st)) ls)).
Proof.
  revert log. induction ls as [|l ls IH]; intros log Hq; cbn [forM_ map]; [by rewrite app_nil_r|].
  rewrite !bind_run. cbn -[get]. unfold reentrant_call. rewrite bind_run. cbn -[get].
  rewrite decide_False by (apply Hq; set_solver). cbn -[get]. rewrite IH by set_solver. by rewrite <- app_assoc.
Qed.

Lemma reentrant_call_first sS st w :
  get st "x" = JUndefined ->
  reentrant_call sS 1 st w = sS (JObj [("x", JNum 1)]) (w.1, w.2 ++ [(1, st)]).
Proof. intros Hx. unfold reentrant_call. rewrite bind_run. cbn -[get]. by rewrite decide_True. Qed.

(** One call of [setState] with fuel left: the merge, then the round. *)
Lemma reentrant_round f ns st ls log :
  setState_fuel log_store log_with reentrant_call (S f) ns (mkAppState st ls, log) =
  forM_ (fun l => w' ← get_st; reentrant_call (setState_fuel log_store log_with reentrant_call f)
                                               l (JObj (state (log_store w')))) ls
        (mkAppState (merge st ns) ls, log).
Proof. reflexivity. Qed.

Lemma merge_x_defined st :
  get (JObj (merge st (JObj [("x", JNum 1)]))) "x" = JNum 1.
Proof. unfold get, merge. simpl. by rewrite assoc_assoc_set. Qed.

(** C17. Re-entrancy: when listener 1, first in the order, calls
    [setState({x: 1})] from inside its notification, the nested round runs
    to completion first, and the listeners after it never see the state of
    the outer call: each is called twice, both times with the newer state,
    and listener 1 is called a second time (by the nested round) without
    calling back.  The spec says each call passes "the new full state" but
    does not cover nested calls. *)
Theorem setState_reentrant f st ls log ns :
  1 ∉ ls ->
  get (JObj (merge st ns)) "x" = JUndefined ->
  let s1 := merge st ns in
  let s2 := merge s1 (JObj [("x", JNum 1)]) in
  setState_fuel log_store log_with reentrant_call (S (S f)) ns (mkAppState st (1 :: ls), log) =
  (inr tt, (mkAppState s2 (1 :: ls),
            log ++ [(1, JObj s1); (1, JObj s2)] ++ map (fun l => (l, JObj s2)) ls
                ++ map (fun l => (l, JObj s2)) ls)).
Proof.
  intros Hls Hx s1 s2. rewrite reentrant_round. cbn [forM_]. rewrite !bind_run, get_st_run.
  cbn [state log_store fst snd]. rewrite reentrant_call_first by done.
  cbn [fst snd]. rewrite reentrant_round, reentrant_quiet_loop.
  2:{ intros l Hl [-> Hx']. by rewrite merge_x_defined in Hx'. }
  rewrite reentrant_quiet_loop by (intros l Hl [-> _]; done).
  by rewrite <- !app_assoc.
Qed.

(** ** Witnesses *)

Lemma setState_reentrant_witness :
  (1 ∉ [2] /\ get (JObj (merge [] (JObj [("a", JNum 1)]))) "x" = JUndefined) /\
  setState_fuel log_store log_with reentrant_call 2 (JObj [("a", JNum 1)])
    (mkAppState [] [1; 2], []) =
  (inr tt, (mkAppState [("a", JNum 1); ("x", JNum 1)] [1; 2],
            [(1, JObj [("a", JNum 1)]);
             (1, JObj [("a", JNum 1); ("x", JNum 1)]);
             (2, JObj [("a", JNum 1); ("x", JNum 1)]);
             (2, JObj [("a", JNum 1); ("x", JNum 1)])])).
Proof.
  assert (H : 1 ∉ [2] /\ get (JObj (merge [] (JObj [("a", JNum 1)]))) "x" = JUndefined)
    by (split; [set_solver | vm_compute; reflexivity]).
  split; [exact H|].
  exact (setState_reentrant 0 [] [2] [] (JObj [("a", JNum 1)]) (proj1 H) (proj2 H)).
Defined.

Lemma merge_lookup_witness :
  assoc "activeTab" (merge [("activeTab", JStr "all"); ("x", JNum 1)] (JObj [("activeTab", JStr "hall")])) =
  Some (JStr "hall").
Proof. apply (merge_lookup _ [("activeTab", JStr "hall")]). apply (bool_decide_unpack _). vm_compute. exact I. Defined.

End AppState.
