(* ===== verification/Page.v ===== *)
(** * The page: data and component generators (src/native-app.js, lines 115-666)

    The application part of the program builds, from the store's state, the
    JSON tree the engine renders.  [TABS_initial] is the literal [TABS]
    (lines 116-244), [TABS] the same object after the performance
    multiplier replaced [TABS.all.items] by 64 copies of its items (lines
    246-249), [TABS_KEYS] its keys (line 252).  [createEvent],
    [createHorizontalVirtualizedList] and [createMainComponent] are the
    generators of lines 279-666, as functions to [jval]; the
    [domGenerator] argument only appears inside handlers.

    Event handlers are closures: a handler is a [JFun] whose identity
    names the closure ([handler_id]); what it does when called is
    [handler_action], the [setState] argument it sends. *)

From S2P Require Import Prelude JsValue Dom DomFacts Engine Store.
Import DOMGenerator.

Module Page.

(** ** Data *)

Definition item (icon iconLabel title subtitle : string) : jval :=
  JObj [("icon", JStr icon); ("iconLabel", JStr iconLabel); ("title", JStr title); ("subtitle", JStr subtitle)].

Definition tab (title : string) (items : list jval) : jval :=
  JObj [("title", JStr title); ("items", JArr items)].

Definition TABS_initial : jval :=
  JObj [
    ("all", tab "Все" [
      item "light2" "Освещение" "Xiaomi Yeelight LED Smart Bulb" "Включено";
      item "light" "Освещение" "D-Link Omna 180 Cam" "Включится в 17:00";
      item "temp" "Температура" "Elgato Eve Degree Connected" "Выключено до 17:00";
      item "light" "Освещение" "LIFX Mini Day & Dusk A60 E27" "Включится в 17:00";
      item "light2" "Освещение" "Xiaomi Mi Air Purifier 2S" "Включено";
      item "light" "Освещение" "Philips Zhirui" "Включено";
      item "light" "Освещение" "Philips Zhirui" "Включено";
      item "light2" "Освещение" "Xiaomi Mi Air Purifier 2S" "Включено"]);
    ("kitchen", tab "Кухня" [
      item "light2" "Освещение" "Xiaomi Yeelight LED Smart Bulb" "Включено";
      item "temp" "Температура" "Elgato Eve Degree Connected" "Выключено до 17:00"]);
    ("hall", tab "Зал" [
      item "light" "Освещение" "Philips Zhirui" "Выключено";
      item "light2" "Освещение" "Xiaomi Mi Air Purifier 2S" "Выключено"]);
    ("lights", tab "Лампочки" [
      item "light" "Освещение" "D-Link Omna 180 Cam" "Включится в 17:00";
      item "light" "Освещение" "LIFX Mini Day & Dusk A60 E27" "Включится в 17:00";
      item "light2" "Освещение" "Xiaomi Mi Air Purifier 2S" "Включено";
      item "light" "Освещение" "Philips Zhirui" "Включено"]);
    ("cameras", tab "Камеры" [
      item "light2" "Освещение" "Xiaomi Mi Air Purifier 2S" "Включено"])].

(** [Math.pow(2, 6)]. *)
Definition multiplier : nat := Z.to_nat (Z.pow 2 6).

(** [Array.from({ length: n }, () => xs).flat()]. *)
Definition array_from_flat (n : nat) (xs : list jval) : list jval := concat (repeat xs n).

(** [TABS.all.items = Array.from(...).flat()]: the object is changed in
    place, before anything reads it. *)
Definition TABS : jval :=
  let originalItems := get (get TABS_initial "all") "items" in
  match TABS_initial, get TABS_initial "all", originalItems with
  | JObj fs, JObj all, JArr xs =>
      JObj (assoc_set "all" (JObj (assoc_set "items" (JArr (array_from_flat multiplier xs)) all)) fs)
  | _, _, _ => TABS_initial
  end.

(** [Object.keys(TABS)]. *)
Definition TABS_KEYS : list string :=
  match TABS with JObj fs => fs.*1 | _ => [] end.

(** ** Handlers *)

Fixpoint index_of (k : string) (l : list string) : nat :=
  match l with
  | [] => 0
  | k' :: l' => if String.eqb k k' then 0 else S (index_of k l')
  end.

(** The closures of the page, by function identity: the scroll arrow's
    [onclick] (line 362), the select's [onchange] (line 626), and the
    [onclick] of the tab of each key (line 653). *)
Definition scroll_handler : jval := JFun 0.
Definition select_handler : jval := JFun 1.
Definition tab_handler (key : string) : jval := JFun (2 + index_of key TABS_KEYS).

(** What calling a handler does to the store: the argument of its
    [appState.setState], given the [event.target.value] of the event.  The
    scroll arrow only scrolls (layout is not modelled). *)
Definition handler_action (f : nat) (target_value : jval) : option jval :=
  if f =? 1 then Some (JObj [("activeTab", target_value)])
  else if 2 <=? f then key ← TABS_KEYS !! (f - 2); Some (JObj [("activeTab", JStr key)])
  else None.

(** ** Generators *)

Definition el (tag : string) (props : list (string * jval)) (children : list jval) : jval :=
  JObj [("tag", JStr tag); ("props", JObj props); ("children", JArr children)].

(** An element written without [children]. *)
Definition leaf (tag : string) (props : list (string * jval)) : jval :=
  JObj [("tag", JStr tag); ("props", JObj props)].

(** [createEvent({ icon, iconLabel, title, subtitle, slim = false })]
    (lines 279-323). *)
Definition createEvent (arg : jval) : jval :=
  let icon := get arg "icon" in
  let iconLabel := get arg "iconLabel" in
  let title := get arg "title" in
  let subtitle := get arg "subtitle" in
  let slim := default_undefined (get arg "slim") (JBool false) in
  el "li" [("className", JStr ("event" +:+ (if truthy slim then " event_slim" else "")))]
    [el "button" [("className", JStr "event__button")]
       ([leaf "span" [("className", JStr ("event__icon event__icon_" +:+ to_string icon));
                      ("role", JStr "img"); ("aria-label", iconLabel)];
         el "h3" [("className", JStr "event__title")] [title]] ++
        (if truthy subtitle then [el "span" [("className", JStr "event__subtitle")] [subtitle]] else []))].

(** [{ ...item, key: index }]. *)
Definition with_key (item : jval) (index : nat) : jval :=
  JObj (assoc_set "key" (JNum (Z.of_nat index)) (default [] (entries item))).

(** The panel of lines 328-380, around the list of events. *)
Definition panel_of (activeTab : jval) (events : list jval) : jval :=
  el "div" [("className", JStr "section__panel-wrapper")]
        [JObj [("tag", JStr "div");
               ("props", JObj [("className", JStr "section__panel"); ("role", JStr "tabpanel");
                               ("id", JStr ("panel_" +:+ to_string activeTab));
                               ("aria-labelledby", JStr ("tab_" +:+ to_string activeTab))]);
               ("ref", JStr "horizontalList");
               ("children", JArr [el "ul" [("className", JStr "section__panel-list")]
                                     events])];
         el "button" [("className", JStr "section__arrow"); ("onclick", scroll_handler)]
           [leaf "img" [("className", JStr "section__arrow_icon");
                        ("src", JStr "assets/images/arrow-left.svg")]]].

(** [createHorizontalVirtualizedList(activeTab, domGenerator)] (lines
    325-381): [TABS[activeTab]?.items ?? []], then [items.map(...)], which
    raises on a value that is not an array. *)
Definition createHorizontalVirtualizedList (activeTab : jval) : exn + jval :=
  let items := match get (get TABS (to_string activeTab)) "items" with
               | JUndefined | JNull => JArr []
               | v => v
               end in
  match items with
  | JArr xs => inr (panel_of activeTab (imap (fun index item => createEvent (with_key item index)) xs))
  | _ => inl (ETypeError "items.map is not a function")
  end.

(** The [<option>]s of the select (lines 617-627). *)
Definition select_options (activeTab : jval) : list jval :=
  map (fun key =>
         el "option" ([("value", JStr key)] ++
                      (if strict_eq (JStr key) activeTab then [("selected", JBool true)] else []))
           [get (get TABS key) "title"]) TABS_KEYS.

(** One tab of the tablist (lines 638-657). *)
Definition tab_item (activeTab : jval) (key : string) : jval :=
  let active := strict_eq (JStr key) activeTab in
  el "li" ([("className", JStr ("section__tab" +:+ (if active then " section__tab_active" else "")));
            ("role", JStr "tab");
            ("aria-selected", JStr (if active then "true" else "false"))] ++
           (if active then [("tabindex", JStr "0")] else []) ++
           [("id", JStr ("tab_" +:+ key)); ("aria-controls", JStr ("panel_" +:+ key));
            ("onclick", tab_handler key)])
    [get (get TABS key) "title"].

(** The tabs of the tablist (lines 636-658). *)
Definition tab_items (activeTab : jval) : list jval := map (tab_item activeTab) TABS_KEYS.

Definition hero_item (title details : string) (extra : list jval) : jval :=
  el "li" [("className", JStr "hero-dashboard__item")]
    [el "div" [("className", JStr "hero-dashboard__item-title")] [JStr title];
     el "div" [("className", JStr "hero-dashboard__item-details")]
       ([JStr details; el "span" [("className", JStr "a11y-hidden")] [JStr "°"]] ++ extra)].

Definition event (icon iconLabel title : string) (subtitle : option string) (slim : bool) : jval :=
  JObj ((if slim then [("slim", JBool true)] else []) ++
        [("icon", JStr icon); ("iconLabel", JStr iconLabel); ("title", JStr title)] ++
        match subtitle with Some s => [("subtitle", JStr s)] | None => [] end).

(** The hero section "Главное" (lines 392-543). *)
Definition hero_section : jval :=
  el "section" [("className", JStr "section main__general")]
    [el "h2" [("className", JStr "section__title section__title-header section__main-title")] [JStr "Главное"];
     el "div" [("className", JStr "hero-dashboard")]
       [el "div" [("className", JStr "hero-dashboard__primary")]
          [el "h3" [("className", JStr "hero-dashboard__title")] [JStr "Привет, Геннадий!"];
           el "p" [("className", JStr "hero-dashboard__subtitle")]
             [JStr "Двери и окна закрыты, сигнализация включена."];
           el "ul" [("className", JStr "hero-dashboard__info")]
             [hero_item "Дома" "+23" [];
              hero_item "За окном" "+19"
                [leaf "div" [("className", JStr "hero-dashboard__icon hero-dashboard__icon_rain");
                             ("role", JStr "img"); ("aria-label", JStr "Дождь")]]]];
        el "ul" [("className", JStr "hero-dashboard__schedule")]
          [createEvent (event "temp" "Температура" "Philips Cooler" (Some "Начнет охлаждать в 16:30") false);
           createEvent (event "light" "Освещение" "Xiaomi Yeelight LED Smart Bulb" (Some "Включится в 17:00") false);
           createEvent (event "light" "Освещение" "Xiaomi Yeelight LED Smart Bulb" (Some "Включится в 17:00") false)]]].

(** The "Избранные сценарии" section (lines 544-598). *)
Definition scripts_section : jval :=
  el "section" [("className", JStr "section main__scripts")]
    [el "h2" [("className", JStr "section__title section__title-header")] [JStr "Избранные сценарии"];
     el "ul" [("className", JStr "event-grid")]
       [createEvent (event "light2" "Освещение" "Выключить весь свет в доме и во дворе" None true);
        createEvent (event "schedule" "Расписание" "Я ухожу" None true);
        createEvent (event "light2" "Освещение" "Включить свет в коридоре" None true);
        createEvent (event "temp2" "Температура" "Набрать горячую ванну" (Some "Начнётся в 18:00") true);
        createEvent (event "temp2" "Температура" "Сделать пол тёплым во всей квартире" None true)]].

(** The "Избранные устройства" section (lines 599-664): the select, the
    tablist and the list of the active tab. *)
Definition devices_section (activeTab : jval) (list : jval) : jval :=
  el "section" [("className", JStr "section main__devices")]
    [el "div" [("className", JStr "section__title")]
       [el "h2" [("className", JStr "section__title-header")] [JStr "Избранные устройства"];
        el "select" [("className", JStr "section__select"); ("onchange", select_handler)]
          (select_options activeTab);
        el "ul" [("className", JStr "section__tabs"); ("role", JStr "tablist")] (tab_items activeTab)];
     list].

(** [createMainComponent(appState, domGenerator)] (lines 383-666). *)
Definition createMainComponent (appState : AppState.app_state) : exn + jval :=
  let activeTab := get (JObj (AppState.state appState)) "activeTab" in
  match createHorizontalVirtualizedList activeTab with
  | inl e => inl e
  | inr list =>
  inr (el "main" [("className", JStr "main")]
    [hero_section;
     scripts_section;
     devices_section activeTab list])
  end.

(** ** Reading the page *)

(** A tab of the tablist is shown active. *)
Definition is_active_tab (j : jval) : bool :=
  match get (get j "props") "className" with
  | JStr s => String.eqb s "section__tab section__tab_active"
  | _ => false
  end.

(** The page of a store whose active tab is [k]. *)
Definition page_state (k : string) : AppState.app_state := AppState.mkAppState [("activeTab", JStr k)] [].

(** ** Facts *)

Lemma TABS_KEYS_eq : TABS_KEYS = ["all"; "kitchen"; "hall"; "lights"; "cameras"].
Proof. vm_compute. reflexivity. Qed.

Lemma count_eq_NoDup (l : list string) a :
  NoDup l -> length (filter (fun k => k = a) l) = if bool_decide (a ∈ l) then 1 else 0.
Proof.
  induction l as [|k l IH]; intros Hnd; [done|]. apply NoDup_cons in Hnd as [Hk Hnd].
  rewrite filter_cons. destruct (decide (k = a)) as [Hka|Hka]; cbn [length]; rewrite IH by done.
  - subst k. rewrite (bool_decide_false (a ∈ l)), (bool_decide_true (a ∈ a :: l)) by set_solver. done.
  - do 2 case_bool_decide; set_solver.
Qed.

Lemma tab_item_active a key : is_active_tab (tab_item (JStr a) key) = bool_decide (key = a).
Proof.
  unfold is_active_tab, tab_item. cbn [strict_eq]. destruct (String.eqb_spec key a) as [->|Hne].
  - rewrite bool_decide_true by done. reflexivity.
  - rewrite bool_decide_false by done. reflexivity.
Qed.

Lemma TABS_obj : exists fs, TABS = JObj fs /\ TABS_KEYS = fs.*1.
Proof. exists (match TABS with JObj fs => fs | _ => [] end). split; reflexivity. Qed.

Lemma get_TABS_absent a : a ∉ TABS_KEYS -> get TABS a = JUndefined.
Proof.
  destruct TABS_obj as (fs & E & Hk). rewrite Hk, E. intros H. unfold get.
  by rewrite (proj2 (assoc_None _ _) H).
Qed.

Lemma page_materializes k :
  k ∈ TABS_KEYS -> exists page vs, createMainComponent (page_state k) = inr page /\
                                   materialize page = inr vs /\ vs <> [].
Proof.
  rewrite TABS_KEYS_eq. intros Hk.
  repeat (apply elem_of_cons in Hk as [->|Hk]); [..|by apply elem_of_nil in Hk].
  all: match goal with |- context [page_state ?k] =>
         set (pg := match createMainComponent (page_state k) with inr p => p | inl _ => JNull end);
         exists pg, (match materialize pg with inr vs => vs | inl _ => [] end) end.
  all: split_and!; [vm_compute; reflexivity|vm_compute; reflexivity|vm_compute; discriminate].
Qed.

(** ** Main theorems *)

(** C18. The page of every tab is built and created without raising:
    [createMainComponent] gives a tree for each key of [TABS], and from a
    fresh document [createElement] turns it into one element, the
    [<main>] of the page. *)
Theorem page_renders_every_tab k w :
  k ∈ TABS_KEYS -> doc_fresh (w_doc w) ->
  exists page, createMainComponent (page_state k) = inr page /\
    exists n, (createElement page w).1 = inr (Some n).
Proof.
  intros Hk Hfr. destruct (page_materializes k Hk) as (page & vs & Hp & Hm & Hne).
  exists page. split; [done|]. unfold createElement. unfold materialize in Hm.
  destruct (createElement_fuel _ page w) as [[e|[n|]] w'] eqn:Hrun;
    destruct (createElement_fuel_ok _ page w _ _ Hfr Hrun) as (_ & _ & Hr).
  - congruence.
  - by exists n.
  - destruct Hr as (vs' & Hm' & Hok). simpl in Hok. congruence.
Qed.

(** C19. Exactly one tab of the tablist is marked active when the active
    tab is a key of [TABS], and none otherwise. *)
Theorem tabs_one_active a :
  length (filter (fun j => is_active_tab j = true) (tab_items (JStr a))) =
  if bool_decide (a ∈ TABS_KEYS) then 1 else 0.
Proof.
  unfold tab_items. rewrite <- (count_eq_NoDup TABS_KEYS a)
    by (rewrite TABS_KEYS_eq; repeat constructor; set_solver).
  generalize TABS_KEYS as l. induction l as [|key l IH]; [done|]. cbn [map].
  rewrite !filter_cons, tab_item_active. destruct (decide (key = a)) as [->|Hne].
  - rewrite bool_decide_true, !decide_True by done. simpl. by rewrite IH.
  - rewrite bool_decide_false, !decide_False by done. done.
Qed.

(** C20. An active tab that is not a key of [TABS] gives the panel an
    empty list of events: [TABS[activeTab]?.items ?? []] does not raise. *)
Theorem hvl_unknown_tab a :
  a ∉ TABS_KEYS -> createHorizontalVirtualizedList (JStr a) = inr (panel_of (JStr a) []).
Proof. intros H. unfold createHorizontalVirtualizedList. cbn [to_string]. by rewrite get_TABS_absent. Qed.

(** ** Witnesses *)

Lemma page_renders_every_tab_witness :
  exists page, createMainComponent (page_state "kitchen") = inr page /\
    exists n, (createElement page empty_world).1 = inr (Some n).
Proof.
  apply page_renders_every_tab; [apply (bool_decide_unpack _); vm_compute; exact I|].
  apply (bool_decide_unpack _). vm_compute. exact I.
Defined.

Lemma hvl_unknown_tab_witness :
  createHorizontalVirtualizedList (JStr "garage") = inr (panel_of (JStr "garage") []).
Proof. apply hvl_unknown_tab. apply (bool_decide_unpack _). vm_compute. exact I. Defined.

End Page.
