(* ===== verification/App.v ===== *)
(** * The application: [class SmartHomeApp] and the bootstrap (src/native-app.js, lines 669-721)

    Module [SmartHomeApp] puts the components together.  The program state
    [app] holds the engine's world (document and [DOMGenerator]), the
    store, the container and the queue of pending [setTimeout] callbacks.
    The operations are the methods of the class:

    - [SmartHomeApp_new] is the constructor (lines 671-692): the tab of
      the URL when it is a key of [TABS], the subscription of the listener
      [app_listener] (whose body [app_call] is [this.render();
      this.updateScrollButton()]), then a first render;
    - [render_app] is [render()] (lines 694-697): [createMainComponent] of
      the store's state, then [DOMGenerator.render] into the container;
    - [updateScrollButton] (lines 699-713) queues the callback
      [ScrollCheck], whose body [scrollCheck] reads the ref
      [horizontalList] and the first [.section__arrow] of the container
      and sets the arrow's [style.display] from the list's [scrollLeft]
      (state [a_scroll]) and its layout boxes, a parameter [layout] of
      the model (layout is not modelled);
    - [arrow_onclick] is the scroll arrow's [onclick] (lines 359-368):
      [scrollTo] the list 400 pixels further, clamped to its scrolling
      area;
    - [bootstrap] is lines 715-721: wait for [DOMContentLoaded] while the
      document is loading, otherwise construct at once.

    What happens afterwards is driven by the user and the event loop:
    [step] is the transition relation of the running page on the events
    [DOMContentLoaded], a click on a node, a change of the select, and a
    pending timer firing.  A click or change is dispatched along the
    event path fixed at dispatch time; each listener of the event's type
    on each node of the path runs its handler ([invoke]: the
    [handler_action] of [Page], that is [appState.setState(...)]), and an
    exception in a listener is reported without stopping the dispatch
    ([report]).  The value of a change event is the select's value, one
    of its options' values, which are the keys of [TABS]. *)

From S2P Require Import Prelude JsValue Dom DomFacts Browser Engine Reconcile Store Page.
Import DOMGenerator Reconcile Browser Page.

Module SmartHomeApp.

(** ** State *)

(** A pending [setTimeout] callback: the only one the page schedules. *)
Inductive timer := ScrollCheck.

Record app := mkApp {
  a_world : world;
  a_store : AppState.app_state;
  a_container : nat;
  a_timers : list timer;
  a_scroll : gmap nat Z
}.

Definition with_world (w : world) (a : app) : app :=
  mkApp w (a_store a) (a_container a) (a_timers a) (a_scroll a).
Definition with_store (s : AppState.app_state) (a : app) : app :=
  mkApp (a_world a) s (a_container a) (a_timers a) (a_scroll a).
Definition with_timers (ts : list timer) (a : app) : app :=
  mkApp (a_world a) (a_store a) (a_container a) ts (a_scroll a).
Definition with_scroll (sc : gmap nat Z) (a : app) : app :=
  mkApp (a_world a) (a_store a) (a_container a) (a_timers a) sc.

(** ** Layout

    The box of an element, given by the layout engine: [scrollWidth],
    [offsetWidth] (with borders and scrollbar) and [clientWidth] (without
    them). *)
Definition layout_fn := doc -> nat -> Z * Z * Z.

(** [element.scrollLeft]: 0 until the element is scrolled. *)
Definition scroll_left (a : app) (i : nat) : Z := default 0%Z (a_scroll a !! i).

(** The largest [scrollLeft] of an element: [scrollWidth - clientWidth]. *)
Definition max_scroll_left (layout : layout_fn) (d : doc) (i : nat) : Z :=
  let '(scrollWidth, _, clientWidth) := layout d i in Z.max 0 (scrollWidth - clientWidth).

(** [element.scrollTo({ left })] (CSSOM View, "scroll an element"): the
    position is clamped to the scrolling area.  A smooth scroll is
    modelled by the position it ends at. *)
Definition scrollTo (layout : layout_fn) (i : nat) (left : Z) : M app unit :=
  fun a => (inr tt, with_scroll (<[i := Z.max 0 (Z.min left (max_scroll_left layout (w_doc (a_world a)) i))]>
                                  (a_scroll a)) a).

(** An engine operation run on the app's world. *)
Definition on_world {A} (m : M world A) : M app A :=
  fun a => let '(r, w') := m (a_world a) in (r, with_world w' a).

(** The identity of the listener the constructor subscribes. *)
Definition app_listener : nat := 0.

(** ** Methods *)

(** [render()]: [createMainComponent(this.appState, this.domGenerator)],
    then [this.domGenerator.render(appJson, this.container)]. *)
Definition render_app : M app unit :=
  a ← get_st;
  appJson ← lift_res (createMainComponent (a_store a));
  on_world (render appJson (a_container a)).

(** [updateScrollButton()]: [setTimeout(callback, 0)]. *)
Definition updateScrollButton : M app unit :=
  fun a => (inr tt, with_timers (a_timers a ++ [ScrollCheck]) a).

(** The callback of [updateScrollButton] (lines 701-711). *)
Definition scrollCheck (layout : layout_fn) : M app unit :=
  a ← get_st;
  let d := w_doc (a_world a) in
  match refs (w_gen (a_world a)) !! "horizontalList",
        querySelector_class d (a_container a) "section__arrow" with
  | Some listElement, Some arrowElement =>
      let '(scrollWidth, offsetWidth, _) := layout d listElement in
      let scrollLeft := scroll_left a listElement in
      let hasRightScroll := Z.ltb (offsetWidth + scrollLeft) scrollWidth in
      on_world (dom (update_node arrowElement
        (node_assignStyle [("display", JStr (if hasRightScroll then "block" else "none"))])))
  | _, _ => mret tt
  end.

(** The subscribed listener [() => { this.render(); this.updateScrollButton(); }]. *)
Definition app_call (sS : jval -> M app unit) (l : nat) (st : jval) : M app unit :=
  if Nat.eqb l app_listener then render_app ;; updateScrollButton else mret tt.

(** [this.appState.setState(partial)]: the listener does not call
    [setState] again, so one level of nesting is enough. *)
Definition app_setState (partial : jval) : M app unit :=
  AppState.setState_fuel a_store with_store app_call 1 partial.

(** The scroll arrow's [onclick] (lines 359-368): scroll the list ref
    400 pixels further. *)
Definition arrow_onclick (layout : layout_fn) : M app unit :=
  a ← get_st;
  match refs (w_gen (a_world a)) !! "horizontalList" with
  | Some listElement => scrollTo layout listElement (scroll_left a listElement + 400)
  | None => mret tt
  end.

(** Calling a listener function with an event whose [target.value] is
    [value]. *)
Definition invoke (layout : layout_fn) (f : jval) (value : jval) : M app unit :=
  if bool_decide (f = scroll_handler) then arrow_onclick layout else
  match f with
  | JFun id => match handler_action id value with
               | Some partial => app_setState partial
               | None => mret tt
               end
  | _ => mret tt
  end.

(** "Report the exception": an exception in a listener does not stop
    the dispatch. *)
Definition report (m : M app unit) : M app unit :=
  fun a => let '(_, a') := m a in (inr tt, a').

(** [target.dispatchEvent(event)] of an event of [type]: the path is
    fixed first, each node's listeners are read when the event reaches
    it. *)
Definition dispatch (layout : layout_fn) (type : string) (target : nat) (value : jval) : M app unit :=
  a ← get_st;
  forM_ (fun i => a' ← get_st;
                  forM_ (fun f => report (invoke layout f value)) (listeners_of (w_doc (a_world a')) type i))
        (event_path (w_doc (a_world a)) target).

(** The constructor: [new AppState()], [new DOMGenerator()], the
    container [#app], then the body of lines 675-691. *)
Definition app_initial (d : doc) (container : nat) : app :=
  mkApp (mkWorld d DOMGenerator.constructor) AppState.constructor container [] ∅.

Definition SmartHomeApp_new (search : string) : M app unit :=
  (match params_get (url_search_params search) "tab" with
   | Some tabFromUrl =>
       if truthy (JStr tabFromUrl) && bool_decide (tabFromUrl ∈ TABS_KEYS)
       then app_setState (JObj [("activeTab", JStr tabFromUrl)])
       else mret tt
   | None => mret tt
   end) ;;
  AppState.subscribe a_store with_store app_listener ;;
  render_app ;;
  updateScrollButton.

(** ** The page over time *)

Inductive readyState := Loading | Interactive | Complete.

(** The page: waiting for [DOMContentLoaded], running, or stopped by an
    exception of the constructor. *)
Inductive sys :=
| Waiting (d : doc)
| Started (a : app)
| Failed (e : exn) (a : app).

Definition start (d : doc) (container : nat) (search : string) : sys :=
  match SmartHomeApp_new search (app_initial d container) with
  | (inr _, a) => Started a
  | (inl e, a) => Failed e a
  end.

(** Lines 715-721. *)
Definition bootstrap (rs : readyState) (d : doc) (container : nat) (search : string) : sys :=
  match rs with
  | Loading => Waiting d
  | _ => start d container search
  end.

Inductive ui_event :=
| DOMContentLoaded
| Click (target : nat)
| Change (target : nat) (value : string)
| TimerFires.

Section steps.
Variable layout : layout_fn.
Variable container : nat.
Variable search : string.

Inductive step : sys -> ui_event -> sys -> Prop :=
| step_loaded d :
    step (Waiting d) DOMContentLoaded (start d container search)
| step_click a n r a' :
    dispatch layout "click" n JUndefined a = (r, a') ->
    step (Started a) (Click n) (Started a')
| step_change a n v r a' :
    v ∈ TABS_KEYS ->
    dispatch layout "change" n (JStr v) a = (r, a') ->
    step (Started a) (Change n v) (Started a')
| step_timer a rest r a' :
    a_timers a = ScrollCheck :: rest ->
    scrollCheck layout (with_timers rest a) = (r, a') ->
    step (Started a) TimerFires (Started a').

Definition reachable (s0 s : sys) : Prop := rtc (fun s s' => exists ev, step s ev s') s0 s.
End steps.

End SmartHomeApp.
