(* ===== verification/AppFacts.v ===== *)
(** * Invariants of the running application

    The facts about [SmartHomeApp] that the theorems of [AppTheorems] use:

    - which listeners the page installs ([allowedb]: the scroll arrow's and
      each tab's [click] handler, the select's [change] handler), kept by
      every DOM operation ([DomFacts.listeners_inv]) and by [createElement]
      of a page whose properties ask for no other ([prop_okb],
      [Engine.json_propsb]);
    - what the user sees in the container ([screen]) up to the [display]
      style the scroll check writes ([erase]);
    - the page of each tab, evaluated once ([page_facts]);
    - [app_inv], the invariant of the running page: the document is
      well-formed, holds only allowed listeners, the container is a root
      with existing children, the store holds exactly one active tab that
      is a key of [TABS] and the subscribed listener, and the container
      shows the page of the store's state. *)

From S2P Require Import Prelude JsValue Dom DomFacts Browser Engine Reconcile Store Page App.
Import DOMGenerator Reconcile Browser Page SmartHomeApp.

Module AppFacts.

(** ** Listeners *)

(** The listeners the page's JSON asks for. *)
Definition allowedb (type : string) (f : jval) : bool :=
  (String.eqb type "click" &&
     (bool_decide (f = scroll_handler) || existsb (fun k => bool_decide (f = tab_handler k)) TABS_KEYS)) ||
  (String.eqb type "change" && bool_decide (f = select_handler)).

Definition listeners_okb (ls : list (string * jval)) : Prop :=
  forallb (fun tl => allowedb tl.1 tl.2) ls = true.

Definition listeners_ok (d : doc) : Prop := listeners_inv listeners_okb d.

Definition is_object (v : jval) : bool :=
  match v with JFun _ | JObj _ | JArr _ => true | _ => false end.

(** A property whose handler, if it installs one, is allowed. *)
Definition prop_okb (kv : string * jval) : bool :=
  let '(key, value) := kv in
  if String.eqb key "className" then true
  else if String.eqb key "onclick" || startsWith key "on" then
    allowedb (toLowerCase (slice key 2)) value || negb (is_object value)
  else true.

(** ** What the user sees *)

(** A view without the [display] style property. *)
Fixpoint erase (v : vnode) : vnode :=
  match v with
  | VText s => VText s
  | VElement ln a st l kids => VElement ln a (filter (fun kv => kv.1 <> "display") st) l (map erase kids)
  end.

Definition node_erase (nd : node) : node := set_style (filter (fun kv => kv.1 <> "display") (style nd)) nd.

(** The children of the container, read back. *)
Definition screen (fuel : nat) (ns : gmap nat node) (c : nat) : option (list vnode) :=
  cn ← ns !! c; ks ← mapM (view fuel ns) (children cn); Some (concat ks).

(** ** The invariant *)

Definition container_ok (d : doc) (c : nat) : Prop :=
  exists cn, nodes d !! c = Some cn /\ (forall s, kind cn <> NText s) /\ parent cn = None /\
    Forall (fun x => is_Some (nodes d !! x)) (children cn).

Definition tab_state (k : string) (ls : list nat) : AppState.app_state :=
  AppState.mkAppState [("activeTab", JStr k)] ls.

Definition shows (a : app) : Prop :=
  exists page vs, createMainComponent (a_store a) = inr page /\ materialize page = inr vs /\
    fmap (map erase) (screen (S (depth page)) (nodes (w_doc (a_world a))) (a_container a)) = Some vs.

Definition doc_ok (d : doc) (c : nat) : Prop := doc_fresh d /\ listeners_ok d /\ container_ok d c.

Definition app_inv (a : app) : Prop :=
  doc_ok (w_doc (a_world a)) (a_container a) /\
  (exists k, k ∈ TABS_KEYS /\ a_store a = tab_state k [app_listener]) /\ shows a.

(** The events the page receives: a click, or a change whose
    [target.value] is one of the select's options. *)
Definition event_ok (type : string) (value : jval) : Prop :=
  type = "click" \/ (type = "change" /\ exists v, value = JStr v /\ v ∈ TABS_KEYS).

(** The tab the constructor selects: the URL's [tab] parameter when it
    is a key of [TABS], otherwise the store's initial ["all"]. *)
Definition initial_tab (search : string) : string :=
  match params_get (url_search_params search) "tab" with
  | Some t => if bool_decide (t ∈ TABS_KEYS) then t else "all"
  | None => "all"
  end.

(** The page before [DOMContentLoaded] or while the application runs,
    never stopped by an exception. *)
Definition sys_inv (d : doc) (s : sys) : Prop :=
  s = Waiting d \/ exists a, s = Started a /\ app_inv a.

(** ** Decidability of the invariant of the document *)

#[export] Instance listeners_ok_dec d : Decision (listeners_ok d).
Proof. unfold listeners_ok, listeners_inv, listeners_okb. apply _. Defined.

#[export] Instance container_ok_dec d c : Decision (container_ok d c).
Proof.
  unfold container_ok. destruct (nodes d !! c) as [cn|] eqn:Hc; [|right; naive_solver].
  destruct (kind cn) eqn:Hk;
    try (right; intros (cn' & Hc' & Hnt & _); simplify_eq; by eapply Hnt).
  all: destruct (decide (parent cn = None /\ Forall (fun x => is_Some (nodes d !! x)) (children cn)))
         as [H|H]; [left; exists cn; rewrite Hk; naive_solver|right; naive_solver].
Defined.

#[export] Instance doc_ok_dec d c : Decision (doc_ok d c).
Proof. unfold doc_ok. apply _. Defined.

(** ** Listeners: lemmas *)

Lemma create_prop_allowed kv nd nd' :
  prop_okb kv = true -> create_prop kv nd = inr nd' ->
  listeners_okb (listeners nd) -> listeners_okb (listeners nd').
Proof.
  destruct kv as [key value]. intros Hok Hc Hl.
  destruct (create_prop_listeners _ _ _ _ Hc) as [->|(Hcl & Hon & -> & Hv)]; [done|].
  unfold listeners_okb in *. rewrite forallb_app, Hl. simpl.
  unfold prop_okb in Hok. rewrite Hcl, Hon in Hok.
  destruct value; try done; simpl in Hok; rewrite orb_false_r in Hok; by rewrite Hok.
Qed.

(** ** Erasing the [display] style *)

Lemma mapM_fmap_comm {A B C} (g : A -> option B) (g' : A -> option C) (h : B -> C) (l : list A) :
  (forall x, g' x = h <$> g x) -> mapM g' l = map h <$> mapM g l.
Proof.
  intros Hg. induction l as [|x l IH]; [done|]. simpl. rewrite Hg, IH.
  destruct (g x); simpl; [|done]. by destruct (mapM g l).
Qed.

Lemma view_erase f ns i : view f (node_erase <$> ns) i = map erase <$> view f ns i.
Proof.
  revert i. induction f as [|f IH]; intros i; [done|]. rewrite !view_unfold, lookup_fmap.
  destruct (ns !! i) as [nd|]; [|done]. cbn [fmap option_fmap option_map mbind option_bind].
  rewrite (mapM_fmap_comm (view f ns) (view f (node_erase <$> ns)) (map erase)) by apply IH.
  destruct nd as [k a st l cs p]. unfold node_erase. cbn.
  destruct k; [|done|]; destruct (mapM (view f ns) cs); simpl; try done; by rewrite concat_map.
Qed.

Lemma screen_erase f ns c : fmap (map erase) (screen f ns c) = screen f (node_erase <$> ns) c.
Proof.
  unfold screen. rewrite lookup_fmap. destruct (ns !! c) as [cn|]; [|done]. simpl.
  rewrite (mapM_fmap_comm (view f ns) (view f (node_erase <$> ns)) (map erase)) by apply view_erase.
  destruct (mapM (view f ns) (children cn)); simpl; [by rewrite concat_map|done].
Qed.

Lemma filter_display_attr_set v st :
  filter (fun kv : string * string => kv.1 <> "display") (attr_set "display" v st) =
  filter (fun kv : string * string => kv.1 <> "display") st.
Proof.
  induction st as [|[n w] st IH]; simpl.
  - by rewrite filter_cons_False by (simpl; tauto).
  - destruct (String.eqb_spec n "display") as [->|Hn].
    + rewrite !filter_cons_False by (simpl; tauto). done.
    + rewrite !filter_cons_True by done. by rewrite IH.
Qed.

(** Writing [style.display] on a node changes nothing the erased screen
    shows. *)
Lemma screen_set_display f ns c i nd v :
  ns !! i = Some nd ->
  fmap (map erase) (screen f (<[i := set_style (attr_set "display" v (style nd)) nd]> ns) c) =
  fmap (map erase) (screen f ns c).
Proof.
  intros Hi. rewrite !screen_erase, fmap_insert.
  replace (node_erase (set_style (attr_set "display" v (style nd)) nd)) with (node_erase nd).
  - rewrite insert_id; [done|]. by rewrite lookup_fmap, Hi.
  - unfold node_erase. destruct nd. cbn. by rewrite filter_display_attr_set.
Qed.

(** ** The page of each tab *)

Lemma page_facts k ls :
  k ∈ TABS_KEYS -> exists page vs, createMainComponent (tab_state k ls) = inr page /\
    materialize page = inr vs /\ map erase vs = vs /\ json_propsb prop_okb (S (depth page)) page = true.
Proof.
  change (createMainComponent (tab_state k ls)) with (createMainComponent (page_state k)).
  rewrite TABS_KEYS_eq. intros Hk.
  repeat (apply elem_of_cons in Hk as [->|Hk]); [..|by apply elem_of_nil in Hk].
  all: match goal with |- context [page_state ?k] =>
         set (pg := match createMainComponent (page_state k) with inr p => p | inl _ => JNull end);
         exists pg, (match materialize pg with inr vs => vs | inl _ => [] end) end.
  all: split_and!; vm_compute; reflexivity.
Qed.

(** ** Rendering keeps the invariant of the document *)

Lemma preserves_render_listeners j c :
  json_propsb prop_okb (S (depth j)) j = true ->
  preserves (fun w => listeners_ok (w_doc w)) (render j c).
Proof.
  intros Hj. unfold render, createElement. apply preserves_bind.
  - by apply (createElement_fuel_listeners listeners_okb eq_refl prop_okb create_prop_allowed).
  - intros res. apply preserves_bind; [|intros _; by apply preserves_appendChild_opt_doc].
    apply preserves_dom_doc. by apply preserves_clearChildren.
Qed.

Lemma mapM_view_some f ns ins vss :
  mapM (view f ns) ins = Some vss -> Forall (fun x => is_Some (ns !! x)) ins.
Proof.
  revert vss. induction ins as [|x ins IH]; intros vss H; [done|]. simpl in H.
  destruct (view f ns x) as [v|] eqn:Hx; [|done]. simpl in H.
  destruct (mapM (view f ns) ins) as [vs|]; [|done]. constructor; [|by eapply IH].
  destruct f as [|f]; [done|]. rewrite view_unfold in Hx. by destruct (ns !! x).
Qed.

(** [render()] from a well-formed document and a store holding a tab
    shows that tab's page in the container. *)
Lemma render_app_ok a k ls :
  doc_ok (w_doc (a_world a)) (a_container a) -> k ∈ TABS_KEYS -> a_store a = tab_state k ls ->
  exists w', render_app a = (inr tt, with_world w' a) /\
    doc_ok (w_doc w') (a_container a) /\ shows (with_world w' a).
Proof.
  intros (Hfr & Hl & cn & Hc & Hk & Hp & Hkids) Hkey Hst.
  destruct (page_facts k ls Hkey) as (page & vs & Hpage & Hm & He & Hj).
  unfold render_app. rewrite bind_run, get_st_run. cbn beta iota.
  rewrite bind_run, Hst, Hpage. cbn [lift_res]. rewrite ret_run. cbn beta iota. unfold on_world.
  pose proof (render_run page (a_container a) cn (a_world a) Hfr Hc Hk Hp Hkids) as Hr.
  destruct (render page (a_container a) (a_world a)) as [[e|[]] w'] eqn:Hrun.
  { destruct Hr as [Hm' _]. congruence. }
  destruct Hr as (vs' & ins & vss & Hm' & Hfr' & Hc' & Hv & Hvs & _).
  rewrite Hm in Hm'. injection Hm' as <-. subst vs.
  exists w'. split; [done|]. split; [split; [done|split]|].
  - by eapply (preserves_render_listeners page (a_container a) Hj).
  - exists (set_children ins cn). unfold set_children; cbn [kind parent children]. split_and!; [exact Hc'|exact Hk|exact Hp|by eapply mapM_view_some].
  - exists page, (concat vss). cbn [a_store a_world with_world a_container]. rewrite Hst.
    split_and!; [done|done|]. unfold screen. rewrite Hc'. cbn [mbind option_bind children set_children].
    rewrite Hv. simpl. by rewrite He.
Qed.

(** ** [setState] *)

(** With the subscribed listener, [setState] of a tab merges it into the
    state, then calls [render()] and [updateScrollButton()]. *)
Lemma app_setState_run a k k' :
  a_store a = tab_state k [app_listener] ->
  app_setState (JObj [("activeTab", JStr k')]) a =
    ((render_app ;; updateScrollButton) ;; mret tt) (with_store (tab_state k' [app_listener]) a).
Proof.
  intros Hst. unfold app_setState. cbn [AppState.setState_fuel]. unfold AppState.modify_store.
  rewrite !bind_run, get_st_run. cbn beta iota. rewrite Hst. unfold put_st. cbn beta iota.
  rewrite bind_run, get_st_run. cbn beta iota. cbn [with_store a_store tab_state AppState.listeners forM_].
  rewrite bind_run, bind_run, get_st_run. cbn beta iota.
  cbn [with_store a_store tab_state AppState.listeners AppState.state].
  unfold app_call. cbn [Nat.eqb app_listener]. reflexivity.
Qed.

(** Before [subscribe], [setState] only changes the state. *)
Lemma app_setState_unsubscribed a k k' :
  a_store a = tab_state k [] ->
  app_setState (JObj [("activeTab", JStr k')]) a = (inr tt, with_store (tab_state k' []) a).
Proof.
  intros Hst. unfold app_setState. cbn [AppState.setState_fuel]. unfold AppState.modify_store.
  rewrite !bind_run, get_st_run. cbn beta iota. rewrite Hst. unfold put_st. cbn beta iota.
  rewrite bind_run, get_st_run. reflexivity.
Qed.

Lemma app_setState_ok a k k' :
  doc_ok (w_doc (a_world a)) (a_container a) -> a_store a = tab_state k [app_listener] -> k' ∈ TABS_KEYS ->
  exists w', app_setState (JObj [("activeTab", JStr k')]) a =
    (inr tt, mkApp w' (tab_state k' [app_listener]) (a_container a) (a_timers a ++ [ScrollCheck]) (a_scroll a)) /\
    app_inv (mkApp w' (tab_state k' [app_listener]) (a_container a) (a_timers a ++ [ScrollCheck]) (a_scroll a)).
Proof.
  intros Hd Hst Hk'. rewrite (app_setState_run _ _ _ Hst).
  destruct (render_app_ok (with_store (tab_state k' [app_listener]) a) k' [app_listener])
    as (w' & Hr & Hd' & Hs); [done|done|done|].
  exists w'. rewrite !bind_run, Hr. split; [done|]. split_and!; [done| |done].
  by exists k'.
Qed.

Lemma truthy_key t : t ∈ TABS_KEYS -> truthy (JStr t) = true.
Proof.
  rewrite TABS_KEYS_eq. intros Hk.
  by repeat (apply elem_of_cons in Hk as [->|Hk]); [..|apply elem_of_nil in Hk].
Qed.

(** The constructor, up to its first render. *)
Lemma SmartHomeApp_new_run search a :
  a_store a = AppState.constructor ->
  SmartHomeApp_new search a =
    (render_app ;; updateScrollButton) (with_store (tab_state (initial_tab search) [app_listener]) a).
Proof.
  intros Hst. unfold SmartHomeApp_new, initial_tab.
  assert (Hsub : forall a' k, a_store a' = tab_state k [] ->
    (AppState.subscribe a_store with_store app_listener ;; (render_app ;; updateScrollButton)) a' =
    (render_app ;; updateScrollButton) (with_store (tab_state k [app_listener]) a')).
  { intros a' k Hk. unfold AppState.subscribe, AppState.modify_store.
    rewrite !bind_run, get_st_run. cbn beta iota. rewrite Hk. reflexivity. }
  rewrite bind_run. destruct (params_get _ _) as [t|].
  - destruct (bool_decide (t ∈ TABS_KEYS)) eqn:Hb.
    + apply bool_decide_eq_true in Hb. rewrite truthy_key by done. cbn [andb].
      rewrite (app_setState_unsubscribed _ "all") by done. cbn beta iota.
      by rewrite (Hsub _ t).
    + rewrite andb_false_r, ret_run. cbn beta iota. by apply Hsub.
  - rewrite ret_run. cbn beta iota. by apply Hsub.
Qed.

Lemma initial_tab_key search : initial_tab search ∈ TABS_KEYS.
Proof.
  unfold initial_tab. destruct (params_get _ _) as [t|]; [case_bool_decide; [done|]|];
    rewrite TABS_KEYS_eq; apply elem_of_cons; by left.
Qed.

(** ** Handlers *)

Lemma tab_handler_action k v :
  k ∈ TABS_KEYS -> handler_action (2 + index_of k TABS_KEYS) v = Some (JObj [("activeTab", JStr k)]).
Proof.
  rewrite TABS_KEYS_eq. intros Hk.
  by repeat (apply elem_of_cons in Hk as [->|Hk]); [..|apply elem_of_nil in Hk].
Qed.

Lemma listeners_of_allowed d type i f :
  listeners_ok d -> f ∈ listeners_of d type i -> allowedb type f = true.
Proof.
  intros Hl Hf. unfold listeners_of in Hf. destruct (nodes d !! i) as [nd|] eqn:Hi; [|set_solver].
  apply list_elem_of_fmap in Hf as ([t g] & -> & Hin). apply list_elem_of_filter in Hin as [Ht Hin].
  simpl in Ht |- *. subst t. specialize (Hl i nd Hi). unfold listeners_okb in Hl.
  apply (proj1 (forallb_forall _ _) Hl (type, g)). by apply list_elem_of_In.
Qed.

Lemma app_inv_setState k :
  k ∈ TABS_KEYS -> preserves app_inv (app_setState (JObj [("activeTab", JStr k)])).
Proof.
  intros Hk a r a' (Hd & (k0 & _ & Hst) & _) Hrun.
  destruct (app_setState_ok a k0 k Hd Hst Hk) as (w' & Hr & Hinv). rewrite Hr in Hrun. by injection Hrun as <- <-.
Qed.

Lemma app_inv_timers a ts : app_inv a -> app_inv (with_timers ts a).
Proof. by destruct a. Qed.

Lemma app_inv_scroll a sc : app_inv a -> app_inv (with_scroll sc a).
Proof. by destruct a. Qed.

Lemma app_inv_arrow layout : preserves app_inv (arrow_onclick layout).
Proof.
  unfold arrow_onclick. apply preserves_get_bind. intros a0 _. case_match; [|apply preserves_ret].
  intros a r a' Ha Hrun. unfold scrollTo in Hrun. injection Hrun as _ <-. by apply app_inv_scroll.
Qed.

Lemma app_inv_invoke layout type f value :
  allowedb type f = true -> event_ok type value -> preserves app_inv (invoke layout f value).
Proof.
  unfold allowedb, event_ok, invoke. intros Hf [->|(-> & v & -> & Hv)];
    apply orb_true_iff in Hf as [Hf|Hf]; apply andb_true_iff in Hf as [Ht Hf];
    try (vm_compute in Ht; discriminate Ht).
  - apply orb_true_iff in Hf as [Hf|Hf].
    + apply bool_decide_eq_true in Hf as ->. rewrite bool_decide_true by done. apply app_inv_arrow.
    + apply existsb_exists in Hf as (k & Hk & Hf). apply bool_decide_eq_true in Hf as ->.
      rewrite bool_decide_false by (unfold tab_handler, scroll_handler; by intros [=]).
      unfold tab_handler. rewrite tab_handler_action by by apply list_elem_of_In.
      apply app_inv_setState. by apply list_elem_of_In.
  - apply bool_decide_eq_true in Hf as ->. rewrite bool_decide_false by done. by apply app_inv_setState.
Qed.

Lemma preserves_report (P : app -> Prop) (m : M app unit) : preserves P m -> preserves P (report m).
Proof. intros Hm s r s' HP Hrun. unfold report in Hrun. destruct (m s) eqn:E. simplify_eq. by eapply Hm. Qed.

Lemma app_inv_dispatch layout type target value :
  event_ok type value -> preserves app_inv (dispatch layout type target value).
Proof.
  intros Hev. unfold dispatch. apply preserves_get_bind. intros a0 _.
  apply preserves_forM. intros i _. apply preserves_get_bind. intros a1 (Hd & _).
  apply preserves_forM. intros f Hf. apply preserves_report.
  apply (app_inv_invoke layout type); [|done]. eapply listeners_of_allowed; [apply Hd|exact Hf].
Qed.

(** ** The scroll check *)

(** [arrow.style.display = s] on a node of the document, or a raise that
    leaves the document as it was. *)
Lemma update_node_display_run d i s :
  (exists r, update_node i (node_assignStyle [("display", JStr s)]) d = (r, d)) \/
  exists nd, nodes d !! i = Some nd /\ (exists ln, kind nd = NElement ln) /\
    update_node i (node_assignStyle [("display", JStr s)]) d =
      (inr tt, mkDoc (<[i := set_style (attr_set "display" s (style nd)) nd]> (nodes d)) (next_id d)).
Proof.
  unfold update_node. rewrite bind_run. unfold get_node.
  destruct (nodes d !! i) as [nd|] eqn:Hi; cbn beta iota; [|left; eauto].
  unfold node_assignStyle. destruct (kind nd) eqn:Hk; try (left; eauto; fail).
  right. exists nd. split_and!; [done|eauto|reflexivity].
Qed.

Lemma is_Some_insert_Forall {A} (m : gmap nat A) i x l :
  Forall (fun c => is_Some (m !! c)) l -> Forall (fun c => is_Some (<[i := x]> m !! c)) l.
Proof. intros H. eapply Forall_impl; [exact H|]. intros c Hc. apply lookup_insert_is_Some'. by right. Qed.

Lemma doc_ok_set_style d c i nd st :
  doc_ok d c -> nodes d !! i = Some nd ->
  doc_ok (mkDoc (<[i := set_style st nd]> (nodes d)) (next_id d)) c.
Proof.
  intros (Hfr & Hl & cn & Hc & Hk & Hp & Hkids) Hi. split_and!.
  - apply insert_fresh; [done|]. by eapply fresh_lookup.
  - unfold listeners_ok, listeners_inv. cbn [nodes]. apply map_Forall_insert_2; [|done].
    destruct nd. exact (Hl i _ Hi).
  - destruct (decide (i = c)) as [->|Hne].
    + rewrite Hc in Hi. injection Hi as <-. exists (set_style st cn). cbn [nodes].
      rewrite lookup_insert_eq. split_and!; [done|exact Hk|exact Hp|].
      by apply is_Some_insert_Forall.
    + exists cn. cbn [nodes]. rewrite lookup_insert_ne by done. split_and!; [done..|].
      by apply is_Some_insert_Forall.
Qed.

Lemma app_inv_restyle i s :
  preserves app_inv (on_world (dom (update_node i (node_assignStyle [("display", JStr s)])))).
Proof.
  intros a r a' Hinv Hrun. unfold on_world in Hrun.
  destruct (update_node_display_run (w_doc (a_world a)) i s) as [(r0 & Hu)|(nd & Hi & _ & Hu)];
    rewrite (dom_run _ _ _ _ Hu) in Hrun; injection Hrun as <- <-.
  - by destruct a as [[d g] st c ts sc].
  - destruct Hinv as (Hd & Hst & page & vs & Hp & Hm & Hscr). split_and!; [by apply doc_ok_set_style|done|].
    exists page, vs. split_and!; [done|done|]. cbn [w_doc a_world with_world nodes a_container].
    by rewrite screen_set_display.
Qed.

Lemma app_inv_scrollCheck layout : preserves app_inv (scrollCheck layout).
Proof.
  unfold scrollCheck. apply preserves_get_bind. intros a0 _.
  cbv zeta. repeat case_match; first [apply preserves_ret|apply app_inv_restyle].
Qed.

(** The scroll check only writes the document: the store, the container
    and the pending timers stay. *)
Lemma scrollCheck_frame layout a r a' :
  scrollCheck layout a = (r, a') ->
  a_store a' = a_store a /\ a_container a' = a_container a /\ a_timers a' = a_timers a /\
  a_scroll a' = a_scroll a.
Proof.
  unfold scrollCheck. rewrite bind_run, get_st_run. cbv zeta. repeat case_match; subst.
  all: try (rewrite ret_run; intros [= <- <-]; done).
  all: unfold on_world; destruct (dom _ _); by intros [= <- <-].
Qed.

(** ** The constructor and the page over time *)

Lemma start_ok d c search :
  doc_ok d c -> exists a, start d c search = Started a /\ app_inv a /\
    a_store a = tab_state (initial_tab search) [app_listener] /\ a_timers a = [ScrollCheck] /\
    a_container a = c.
Proof.
  intros Hd. unfold start. rewrite SmartHomeApp_new_run by done.
  destruct (render_app_ok (with_store (tab_state (initial_tab search) [app_listener]) (app_initial d c))
              (initial_tab search) [app_listener]) as (w' & Hr & Hd' & Hs);
    [exact Hd|apply initial_tab_key|done|].
  rewrite bind_run, Hr. cbn beta iota. eexists. split; [reflexivity|].
  split; [|split_and!; done]. split; [done|]. split; [|done].
  exists (initial_tab search). split; [apply initial_tab_key|done].
Qed.

Lemma sys_inv_step layout c search d s ev s' :
  doc_ok d c -> step layout c search s ev s' -> sys_inv d s -> sys_inv d s'.
Proof.
  intros Hd Hst Hs. destruct Hst as [d0|a n r a' Hrun|a n v r a' Hv Hrun|a rest r a' Hts Hrun];
    destruct Hs as [Hs|(a0 & Hs & Hinv)]; simplify_eq; right.
  - destruct (start_ok d c search Hd) as (a & -> & Ha & _). by exists a.
  - exists a'. split; [done|]. by eapply (app_inv_dispatch layout "click"); [left| |].
  - exists a'. split; [done|]. eapply (app_inv_dispatch layout "change"); [right; eauto| |done]. done.
  - exists a'. split; [done|]. eapply app_inv_scrollCheck; [|done]. by apply app_inv_timers.
Qed.

Lemma scrollCheck_run layout a l ar sw ow cw :
  refs (w_gen (a_world a)) !! "horizontalList" = Some l ->
  querySelector_class (w_doc (a_world a)) (a_container a) "section__arrow" = Some ar ->
  layout (w_doc (a_world a)) l = (sw, ow, cw) ->
  scrollCheck layout a =
    on_world (dom (update_node ar (node_assignStyle
      [("display", JStr (if Z.ltb (ow + scroll_left a l) sw then "block" else "none"))]))) a.
Proof. intros Hl Har Hm. unfold scrollCheck. rewrite bind_run, get_st_run. cbv zeta. by rewrite Hl, Har, Hm. Qed.

(** The scroll check on a page with the list ref and an arrow: the
    arrow's [display] becomes ["block"] or ["none"], nothing else
    changes. *)
Lemma scrollCheck_sets layout a l ar sw ow cw :
  refs (w_gen (a_world a)) !! "horizontalList" = Some l ->
  querySelector_class (w_doc (a_world a)) (a_container a) "section__arrow" = Some ar ->
  layout (w_doc (a_world a)) l = (sw, ow, cw) ->
  exists nd a', nodes (w_doc (a_world a)) !! ar = Some nd /\ scrollCheck layout a = (inr tt, a') /\
    nodes (w_doc (a_world a')) =
      <[ar := set_style (attr_set "display" (if Z.ltb (ow + scroll_left a l) sw then "block" else "none")
                          (style nd)) nd]> (nodes (w_doc (a_world a))) /\
    a_store a' = a_store a /\ a_timers a' = a_timers a /\ a_scroll a' = a_scroll a /\
    w_gen (a_world a') = w_gen (a_world a) /\ a_container a' = a_container a.
Proof.
  intros Hl Har Hm. rewrite (scrollCheck_run _ _ _ _ _ _ _ Hl Har Hm).
  destruct (querySelector_class_some _ _ _ _ Har) as (nd & ln & Hnd & Hk & _).
  exists nd. unfold on_world, update_node. rewrite dom_run with (d := mkDoc
    (<[ar := set_style (attr_set "display" (if Z.ltb (ow + scroll_left a l) sw then "block" else "none")
                          (style nd)) nd]> (nodes (w_doc (a_world a))))
    (next_id (w_doc (a_world a)))) (r := inr tt).
  - eexists. split_and!; [done|reflexivity|done..].
  - rewrite bind_run. unfold get_node. rewrite Hnd. cbn beta iota.
    unfold node_assignStyle. by rewrite Hk.
Qed.

End AppFacts.
