(* ===== verification/AppTheorems.v ===== *)
(** * Theorems about the running application

    The correctness of [SmartHomeApp] over time (src/native-app.js,
    lines 669-721):

    - from the bootstrap, every reachable page is waiting for
      [DOMContentLoaded] or running with the invariant [app_inv]: the
      constructor never raises, and the container always shows the page of
      the store's tab, up to the [display] the scroll check writes;
    - the constructor selects the URL's tab when it is a key of [TABS];
    - the handlers of the tabs and of the select make their key the active
      tab and re-render;
    - the scroll check writes [display: block] on the arrow exactly when
      [offsetWidth + scrollLeft < scrollWidth] and [none] otherwise, and
      pending timers always drain.

    The samples at the top are the small documents the witnesses use. *)

From S2P Require Import Prelude JsValue Dom DomFacts Browser Engine Reconcile Store Page App AppFacts.
Import DOMGenerator Reconcile Browser Page SmartHomeApp AppFacts.

Module AppTheorems.

(** ** Samples *)

(** A document holding only the container [#app]. *)
Definition sample_doc : doc :=
  mkDoc (<[0 := mkNode (NElement "div") [("id", "app")] [] [] [] None]> ∅) 1.

Definition sample_app (k : string) : app :=
  mkApp (mkWorld sample_doc DOMGenerator.constructor) (tab_state k [app_listener]) 0 [] ∅.

(** A container holding the arrow, and the list registered as a ref. *)
Definition arrow_doc : doc :=
  mkDoc (<[1 := mkNode (NElement "div") [("class", "section__arrow")] [] [] [] (Some 0)]>
        (<[0 := mkNode (NElement "div") [("id", "app")] [] [] [1] None]> ∅)) 2.

Definition arrow_app : app :=
  mkApp (mkWorld arrow_doc (set_ref "horizontalList" 0 DOMGenerator.constructor))
        (tab_state "all" [app_listener]) 0 [ScrollCheck] ∅.

(** A list 1200 pixels wide in a 400-pixel box without borders. *)
Definition wide_list : layout_fn := fun d i => (1200%Z, 400%Z, 400%Z).

(** ** Helper lemmas *)

Lemma sys_inv_reachable layout c search d s0 s :
  doc_ok d c -> sys_inv d s0 -> reachable layout c search s0 s -> sys_inv d s.
Proof.
  intros Hd Hs0 Hr. induction Hr as [s|s1 s2 s3 [ev Hst] _ IH]; [done|].
  apply IH. by eapply sys_inv_step.
Qed.

Lemma sys_inv_bootstrap rs d c search : doc_ok d c -> sys_inv d (bootstrap rs d c search).
Proof.
  intros Hd. destruct rs; [by left| |];
    destruct (start_ok d c search Hd) as (a & Hs & Ha & _); right; exists a; cbn [bootstrap]; by rewrite Hs.
Qed.

Lemma doc_ok_sample : doc_ok sample_doc 0.
Proof. apply (bool_decide_unpack _). vm_compute. exact I. Qed.

(** ** Main theorems *)

(** C22. From the bootstrap on a well-formed document, every page the
    events can reach is either still waiting for [DOMContentLoaded] or
    running with the invariant [app_inv]: the constructor never raises,
    the document holds only the page's own listeners, the store holds one
    active tab that is a key of [TABS], and the container shows the page
    of that tab (up to the arrow's [display]). *)
Theorem bootstrap_reachable_inv layout rs d c search s :
  doc_ok d c -> reachable layout c search (bootstrap rs d c search) s ->
  s = Waiting d \/ exists a, s = Started a /\ app_inv a.
Proof. intros Hd Hr. eapply sys_inv_reachable; [exact Hd|by apply sys_inv_bootstrap|exact Hr]. Qed.

(** C23. The constructor selects the URL's [tab] parameter when it is a
    key of [TABS], and "all" otherwise; it subscribes the render listener,
    renders that tab and queues one scroll check. *)
Theorem start_selects_url_tab d c search :
  doc_ok d c -> exists a, start d c search = Started a /\ app_inv a /\
    a_store a = tab_state (initial_tab search) [app_listener] /\ a_timers a = [ScrollCheck].
Proof. intros Hd. destruct (start_ok d c search Hd) as (a & ? & ? & ? & ? & _). by exists a. Qed.

(** C24. Clicking a tab's [<li>] makes its key the active tab: the
    handler's [setState] merges it into the state, the subscribed listener
    re-renders the page of that tab and queues one scroll check. *)
Theorem tab_click_selects layout a k0 k v :
  doc_ok (w_doc (a_world a)) (a_container a) -> a_store a = tab_state k0 [app_listener] -> k ∈ TABS_KEYS ->
  exists w', invoke layout (tab_handler k) v a =
    (inr tt, mkApp w' (tab_state k [app_listener]) (a_container a) (a_timers a ++ [ScrollCheck]) (a_scroll a)) /\
    app_inv (mkApp w' (tab_state k [app_listener]) (a_container a) (a_timers a ++ [ScrollCheck]) (a_scroll a)).
Proof.
  intros Hd Hst Hk. unfold invoke. rewrite bool_decide_false by (unfold tab_handler, scroll_handler; by intros [=]).
  unfold tab_handler. rewrite tab_handler_action by done.
  by apply (app_setState_ok a k0 k).
Qed.

(** C25. Choosing an option of the select makes its value the active tab
    and re-renders the page of that tab. *)
Theorem select_change_selects layout a k0 v :
  doc_ok (w_doc (a_world a)) (a_container a) -> a_store a = tab_state k0 [app_listener] -> v ∈ TABS_KEYS ->
  exists w', invoke layout select_handler (JStr v) a =
    (inr tt, mkApp w' (tab_state v [app_listener]) (a_container a) (a_timers a ++ [ScrollCheck]) (a_scroll a)) /\
    app_inv (mkApp w' (tab_state v [app_listener]) (a_container a) (a_timers a ++ [ScrollCheck]) (a_scroll a)).
Proof.
  intros Hd Hst Hv. unfold invoke. rewrite bool_decide_false by done. by apply (app_setState_ok a k0 v).
Qed.

(** C26. The scroll check writes [display: block] on the arrow exactly
    when [offsetWidth + scrollLeft < scrollWidth], the comparison the code
    makes, and [display: none] otherwise; it changes nothing else: the
    other nodes, the store, the pending timers and the scroll positions
    stay.  (Since [offsetWidth] counts the borders and the scroll range
    is bounded by [clientWidth], this comparison is not the same as "the
    list can still scroll right": see [AppScroll].) *)
Theorem scrollCheck_sets_display layout a l ar sw ow cw :
  refs (w_gen (a_world a)) !! "horizontalList" = Some l ->
  querySelector_class (w_doc (a_world a)) (a_container a) "section__arrow" = Some ar ->
  layout (w_doc (a_world a)) l = (sw, ow, cw) ->
  exists nd v a', nodes (w_doc (a_world a)) !! ar = Some nd /\ scrollCheck layout a = (inr tt, a') /\
    ((v = "block" /\ (ow + scroll_left a l < sw)%Z) \/ (v = "none" /\ (sw <= ow + scroll_left a l)%Z)) /\
    nodes (w_doc (a_world a')) = <[ar := set_style (attr_set "display" v (style nd)) nd]> (nodes (w_doc (a_world a))) /\
    a_store a' = a_store a /\ a_timers a' = a_timers a /\ a_scroll a' = a_scroll a.
Proof.
  intros Hl Har Hm. destruct (scrollCheck_sets layout a l ar sw ow cw Hl Har Hm) as (nd & a' & Hnd & Hrun & Hns & Hst & Ht & Hsc & _).
  exists nd, (if Z.ltb (ow + scroll_left a l) sw then "block" else "none"), a'. split_and!; try done.
  destruct (Z.ltb_spec (ow + scroll_left a l) sw); [left|right]; split; auto with lia.
Qed.

(** C27. Pending timers always drain: from any running state, as many
    [TimerFires] events as there are pending callbacks run them all, and
    the scroll check never queues another one. *)
Theorem timers_drain layout c search a :
  exists a', nsteps (fun s s' => step layout c search s TimerFires s') (length (a_timers a)) (Started a) (Started a') /\
    a_timers a' = [] /\ a_store a' = a_store a.
Proof.
  remember (a_timers a) as ts eqn:Hts. revert a Hts.
  induction ts as [|[] rest IH]; intros a Hts.
  - exists a. split_and!; [constructor|done|done].
  - destruct (scrollCheck layout (with_timers rest a)) as [r a1] eqn:Hrun.
    destruct (scrollCheck_frame _ _ _ _ Hrun) as (Hs1 & _ & Ht1 & _).
    destruct (IH a1) as (a' & Hsteps & Ht' & Hs'); [done|].
    exists a'. split_and!; [|done|by rewrite Hs', Hs1].
    econstructor; [|exact Hsteps]. by eapply step_timer.
Qed.

(** ** Witnesses *)

Lemma bootstrap_reachable_inv_witness :
  doc_ok sample_doc 0 /\
  (Waiting sample_doc = Waiting sample_doc \/ exists a, Waiting sample_doc = Started a /\ app_inv a).
Proof.
  split; [exact doc_ok_sample|].
  apply (bootstrap_reachable_inv wide_list Loading sample_doc 0 ""); [exact doc_ok_sample|apply rtc_refl].
Defined.

Lemma start_selects_url_tab_witness :
  exists a, start sample_doc 0 "?tab=kitchen" = Started a /\ app_inv a /\
    a_store a = tab_state (initial_tab "?tab=kitchen") [app_listener] /\ a_timers a = [ScrollCheck].
Proof. apply start_selects_url_tab. exact doc_ok_sample. Defined.

Lemma tab_click_selects_witness :
  exists w', invoke wide_list (tab_handler "lights") JUndefined (sample_app "all") =
    (inr tt, mkApp w' (tab_state "lights" [app_listener]) 0 ([] ++ [ScrollCheck]) ∅) /\
    app_inv (mkApp w' (tab_state "lights" [app_listener]) 0 ([] ++ [ScrollCheck]) ∅).
Proof.
  apply (tab_click_selects wide_list (sample_app "all") "all"); [exact doc_ok_sample|reflexivity|].
  apply (bool_decide_unpack _). vm_compute. exact I.
Defined.

Lemma select_change_selects_witness :
  exists w', invoke wide_list select_handler (JStr "cameras") (sample_app "all") =
    (inr tt, mkApp w' (tab_state "cameras" [app_listener]) 0 ([] ++ [ScrollCheck]) ∅) /\
    app_inv (mkApp w' (tab_state "cameras" [app_listener]) 0 ([] ++ [ScrollCheck]) ∅).
Proof.
  apply (select_change_selects wide_list (sample_app "all") "all"); [exact doc_ok_sample|reflexivity|].
  apply (bool_decide_unpack _). vm_compute. exact I.
Defined.

Lemma scrollCheck_sets_display_witness :
  exists nd v a', nodes (w_doc (a_world arrow_app)) !! 1 = Some nd /\ scrollCheck wide_list arrow_app = (inr tt, a') /\
    ((v = "block" /\ (400 + scroll_left arrow_app 0 < 1200)%Z) \/ (v = "none" /\ (1200 <= 400 + scroll_left arrow_app 0)%Z)) /\
    nodes (w_doc (a_world a')) = <[1 := set_style (attr_set "display" v (style nd)) nd]> (nodes (w_doc (a_world arrow_app))) /\
    a_store a' = a_store arrow_app /\ a_timers a' = a_timers arrow_app /\ a_scroll a' = a_scroll arrow_app.
Proof. apply (scrollCheck_sets_display wide_list arrow_app 0 1 1200 400 400); vm_compute; reflexivity. Defined.

End AppTheorems.
