(* ===== verification/AppScroll.v ===== *)
(** * The scroll arrow

    The arrow button of the horizontal list (src/native-app.js, lines
    359-368) scrolls the list ref 400 pixels further with
    [element.scrollTo]; the scroll check of [updateScrollButton] (lines
    701-711) shows the arrow while [scrollWidth > offsetWidth +
    scrollLeft].  This file proves what a user clicking the arrow sees:

    - a click clamps the list's [scrollLeft] to the scrolling area, and
      enough clicks reach its end;
    - a click changes neither the document nor the pending timers: the
      arrow keeps its [display] until the next state change queues a
      scroll check;
    - the check compares with [offsetWidth], which counts the borders and
      the scrollbar, so with a border it hides the arrow a few pixels
      before the end, while it is exact without one. *)

From S2P Require Import Prelude JsValue Dom DomFacts Browser Engine Reconcile Store Page App AppFacts.
Import DOMGenerator Reconcile Browser Page SmartHomeApp AppFacts.

Module AppScroll.

(** ** Samples *)

(** The arrow sample of [AppTheorems], scrolled by [s] pixels. *)
Definition scrolled_doc : doc :=
  mkDoc (<[1 := mkNode (NElement "button") [("class", "section__arrow")] [] [] [] (Some 0)]>
        (<[0 := mkNode (NElement "div") [("id", "app")] [] [] [1] None]> ∅)) 2.

Definition scrolled_app (s : Z) : app :=
  mkApp (mkWorld scrolled_doc (set_ref "horizontalList" 0 DOMGenerator.constructor))
        (tab_state "all" [app_listener]) 0 [] {[0 := s]}.

(** A list 1200 pixels wide in a 400-pixel box without borders. *)
Definition plain_list : layout_fn := fun d i => (1200%Z, 400%Z, 400%Z).

(** A list 1200 pixels wide in a 410-pixel box with 5-pixel borders. *)
Definition bordered_list : layout_fn := fun d i => (1200%Z, 410%Z, 400%Z).

(** ** Lemmas *)

Lemma max_scroll_left_nonneg layout d i : (0 <= max_scroll_left layout d i)%Z.
Proof. unfold max_scroll_left. destruct (layout d i) as [[sw ow] cw]. lia. Qed.

Lemma scroll_left_insert a sc i x : scroll_left (with_scroll (<[i := x]> sc) a) i = x.
Proof. unfold scroll_left. cbn [a_scroll with_scroll]. by rewrite lookup_insert_eq. Qed.

(** One click on the arrow. *)
Lemma arrow_onclick_run layout a l :
  refs (w_gen (a_world a)) !! "horizontalList" = Some l ->
  arrow_onclick layout a =
    (inr tt, with_scroll (<[l := Z.max 0 (Z.min (scroll_left a l + 400)
                                  (max_scroll_left layout (w_doc (a_world a)) l))]> (a_scroll a)) a).
Proof. intros Hl. unfold arrow_onclick. rewrite bind_run, get_st_run. cbn beta iota. by rewrite Hl. Qed.

(** [n] clicks from a position [s] at most [400 * n] pixels before the
    end reach it, and change nothing but the position. *)
Lemma arrow_clicks_reach layout l n : forall a,
  refs (w_gen (a_world a)) !! "horizontalList" = Some l ->
  (0 <= scroll_left a l <= max_scroll_left layout (w_doc (a_world a)) l)%Z ->
  (max_scroll_left layout (w_doc (a_world a)) l - scroll_left a l <= 400 * Z.of_nat n)%Z ->
  exists a', repeatM n (arrow_onclick layout) a = (inr tt, a') /\
    scroll_left a' l = max_scroll_left layout (w_doc (a_world a)) l /\
    a_world a' = a_world a /\ a_store a' = a_store a /\ a_timers a' = a_timers a /\
    a_container a' = a_container a.
Proof.
  induction n as [|n IH]; intros a Hl Hs Hn; cbn [repeatM].
  - exists a. rewrite ret_run. split_and!; [done|lia|done..].
  - rewrite bind_run, (arrow_onclick_run _ _ _ Hl). cbn beta iota.
    set (a1 := with_scroll _ a).
    destruct (IH a1) as (a' & Hrun & Hend & Hw & Hst & Ht & Hc); [done| | |].
    + unfold a1. rewrite scroll_left_insert. cbn [with_scroll a_world].
      pose proof (max_scroll_left_nonneg layout (w_doc (a_world a)) l). lia.
    + unfold a1. rewrite scroll_left_insert. cbn [with_scroll a_world]. lia.
    + exists a'. rewrite Hrun. split_and!; [done|by rewrite Hend|by rewrite Hw|by rewrite Hst|by rewrite Ht|by rewrite Hc].
Qed.

Lemma ceil_div_400 x : (0 <= x)%Z -> (x <= 400 * Z.of_nat (Z.to_nat ((x + 399) / 400)))%Z.
Proof.
  intros Hx. pose proof (Z.div_mod (x + 399) 400 ltac:(lia)).
  pose proof (Z.mod_pos_bound (x + 399) 400 ltac:(lia)).
  assert (0 <= (x + 399) / 400)%Z by (apply Z.div_pos; lia). rewrite Z2Nat.id by lia. lia.
Qed.

(** ** Main theorems *)

(** C28. A click on the arrow moves the list 400 pixels to the right but
    never past the end of its scrolling area: the new [scrollLeft] is
    [min(scrollLeft + 400, scrollWidth - clientWidth)], between 0 and the
    largest position; other elements keep their positions. *)
Theorem arrow_click_clamps layout a l :
  refs (w_gen (a_world a)) !! "horizontalList" = Some l -> (0 <= scroll_left a l)%Z ->
  exists a', arrow_onclick layout a = (inr tt, a') /\
    scroll_left a' l = Z.min (scroll_left a l + 400) (max_scroll_left layout (w_doc (a_world a)) l) /\
    (0 <= scroll_left a' l <= max_scroll_left layout (w_doc (a_world a)) l)%Z /\
    (forall i, i <> l -> scroll_left a' i = scroll_left a i).
Proof.
  intros Hl Hs. rewrite (arrow_onclick_run _ _ _ Hl). eexists. split; [reflexivity|].
  pose proof (max_scroll_left_nonneg layout (w_doc (a_world a)) l).
  rewrite scroll_left_insert. split_and!; [lia|lia|lia|].
  intros i Hi. unfold scroll_left. cbn [with_scroll a_scroll]. by rewrite lookup_insert_ne.
Qed.

(** C29. Clicking the arrow eventually reaches the end of the list:
    [ceil((scrollWidth - clientWidth - scrollLeft) / 400)] clicks bring
    [scrollLeft] to the largest position. *)
Theorem arrow_clicks_reach_end layout a l :
  refs (w_gen (a_world a)) !! "horizontalList" = Some l ->
  (0 <= scroll_left a l <= max_scroll_left layout (w_doc (a_world a)) l)%Z ->
  exists a', repeatM (Z.to_nat ((max_scroll_left layout (w_doc (a_world a)) l - scroll_left a l + 399) / 400))
               (arrow_onclick layout) a = (inr tt, a') /\
    scroll_left a' l = max_scroll_left layout (w_doc (a_world a)) l.
Proof.
  intros Hl Hs. destruct (arrow_clicks_reach layout l (Z.to_nat ((max_scroll_left layout (w_doc (a_world a)) l - scroll_left a l + 399) / 400)) a Hl Hs) as (a' & Hrun & Hend & _).
  - apply ceil_div_400. lia.
  - by exists a'.
Qed.

(** C30. The arrow is never updated by scrolling: a user who clicks a
    shown arrow until the list's end still sees the arrow with the same
    style, and no scroll check is pending for it, although a scroll check
    run at that point would hide it.  Only a change of the store queues a
    new check. *)
Theorem arrow_stays_shown_at_end layout a l ar nd sw ow cw n :
  refs (w_gen (a_world a)) !! "horizontalList" = Some l ->
  querySelector_class (w_doc (a_world a)) (a_container a) "section__arrow" = Some ar ->
  nodes (w_doc (a_world a)) !! ar = Some nd ->
  layout (w_doc (a_world a)) l = (sw, ow, cw) -> (cw <= ow)%Z ->
  (0 <= scroll_left a l <= max_scroll_left layout (w_doc (a_world a)) l)%Z ->
  (max_scroll_left layout (w_doc (a_world a)) l - scroll_left a l <= 400 * Z.of_nat n)%Z ->
  exists a', repeatM n (arrow_onclick layout) a = (inr tt, a') /\
    scroll_left a' l = max_scroll_left layout (w_doc (a_world a)) l /\
    nodes (w_doc (a_world a')) !! ar = Some nd /\ a_timers a' = a_timers a /\
    exists a'', scrollCheck layout a' = (inr tt, a'') /\
      nodes (w_doc (a_world a'')) !! ar = Some (set_style (attr_set "display" "none" (style nd)) nd).
Proof.
  intros Hl Har Hnd Hlay Hcw Hs Hn.
  destruct (arrow_clicks_reach layout l n a Hl Hs Hn) as (a' & Hrun & Hend & Hw & Hst & Ht & Hc).
  exists a'. split_and!; [done|done|by rewrite Hw|done|].
  destruct (scrollCheck_sets layout a' l ar sw ow cw) as (nd' & a'' & Hnd' & Hrun' & Hns & _);
    [by rewrite Hw|by rewrite Hw, Hc|by rewrite Hw|].
  rewrite Hw, Hnd in Hnd'. injection Hnd' as <-. exists a''. split; [done|].
  rewrite Hns, Hw, lookup_insert_eq. do 3 f_equal.
  rewrite Hend. unfold max_scroll_left. rewrite Hlay.
  destruct (Z.ltb_spec (ow + Z.max 0 (sw - cw)) sw); [lia|done].
Qed.

(** C31. The scroll check compares with [offsetWidth], which counts the
    borders and the scrollbar, instead of [clientWidth]: when the list
    has a border ([clientWidth < offsetWidth]) and is less than the
    border's width from its end, the check hides the arrow although the
    list can still scroll to the right. *)
Theorem scrollCheck_hides_before_end layout a l ar sw ow cw :
  refs (w_gen (a_world a)) !! "horizontalList" = Some l ->
  querySelector_class (w_doc (a_world a)) (a_container a) "section__arrow" = Some ar ->
  layout (w_doc (a_world a)) l = (sw, ow, cw) ->
  (sw - ow <= scroll_left a l < sw - cw)%Z ->
  (scroll_left a l < max_scroll_left layout (w_doc (a_world a)) l)%Z /\
  exists nd a', nodes (w_doc (a_world a)) !! ar = Some nd /\ scrollCheck layout a = (inr tt, a') /\
    nodes (w_doc (a_world a')) !! ar = Some (set_style (attr_set "display" "none" (style nd)) nd).
Proof.
  intros Hl Har Hlay Hs. split; [unfold max_scroll_left; rewrite Hlay; lia|].
  destruct (scrollCheck_sets layout a l ar sw ow cw Hl Har Hlay) as (nd & a' & Hnd & Hrun & Hns & _).
  exists nd, a'. split_and!; [done|done|]. rewrite Hns, lookup_insert_eq.
  destruct (Z.ltb_spec (ow + scroll_left a l) sw); [lia|done].
Qed.

(** C32. Without borders or scrollbar ([offsetWidth = clientWidth]) the
    check is exact: on a position of the scrolling area it shows the
    arrow exactly when the list can still scroll to the right. *)
Theorem scrollCheck_exact_without_border layout a l ar sw cw :
  refs (w_gen (a_world a)) !! "horizontalList" = Some l ->
  querySelector_class (w_doc (a_world a)) (a_container a) "section__arrow" = Some ar ->
  layout (w_doc (a_world a)) l = (sw, cw, cw) ->
  (0 <= scroll_left a l <= max_scroll_left layout (w_doc (a_world a)) l)%Z ->
  exists nd a' v, nodes (w_doc (a_world a)) !! ar = Some nd /\ scrollCheck layout a = (inr tt, a') /\
    nodes (w_doc (a_world a')) !! ar = Some (set_style (attr_set "display" v (style nd)) nd) /\
    (v = "block" <-> (scroll_left a l < max_scroll_left layout (w_doc (a_world a)) l)%Z) /\
    (v = "none" <-> scroll_left a l = max_scroll_left layout (w_doc (a_world a)) l).
Proof.
  intros Hl Har Hlay Hs.
  destruct (scrollCheck_sets layout a l ar sw cw cw Hl Har Hlay) as (nd & a' & Hnd & Hrun & Hns & _).
  exists nd, a', (if Z.ltb (cw + scroll_left a l) sw then "block" else "none"). split_and!; [done|done|by rewrite Hns, lookup_insert_eq| |];
    unfold max_scroll_left in *; rewrite Hlay in *;
    destruct (Z.ltb_spec (cw + scroll_left a l) sw); split; intros; try done; lia.
Qed.

(** ** Witnesses *)

Lemma arrow_click_clamps_witness :
  exists a', arrow_onclick plain_list (scrolled_app 600) = (inr tt, a') /\
    scroll_left a' 0 = Z.min (scroll_left (scrolled_app 600) 0 + 400)
                             (max_scroll_left plain_list (w_doc (a_world (scrolled_app 600))) 0) /\
    (0 <= scroll_left a' 0 <= max_scroll_left plain_list (w_doc (a_world (scrolled_app 600))) 0)%Z /\
    (forall i, i <> 0 -> scroll_left a' i = scroll_left (scrolled_app 600) i).
Proof. apply arrow_click_clamps; vm_compute; [reflexivity|discriminate]. Defined.

Lemma arrow_clicks_reach_end_witness :
  exists a', repeatM (Z.to_nat ((max_scroll_left plain_list (w_doc (a_world (scrolled_app 100))) 0
                                 - scroll_left (scrolled_app 100) 0 + 399) / 400))
               (arrow_onclick plain_list) (scrolled_app 100) = (inr tt, a') /\
    scroll_left a' 0 = max_scroll_left plain_list (w_doc (a_world (scrolled_app 100))) 0.
Proof. apply arrow_clicks_reach_end; vm_compute; [reflexivity|split; discriminate]. Defined.

Lemma arrow_stays_shown_at_end_witness :
  exists a', repeatM 2 (arrow_onclick plain_list) (scrolled_app 100) = (inr tt, a') /\
    scroll_left a' 0 = max_scroll_left plain_list (w_doc (a_world (scrolled_app 100))) 0 /\
    nodes (w_doc (a_world a')) !! 1 = nodes scrolled_doc !! 1 /\ a_timers a' = [] /\
    exists a'', scrollCheck plain_list a' = (inr tt, a'') /\
      nodes (w_doc (a_world a'')) !! 1 =
        Some (set_style (attr_set "display" "none" (style (mkNode (NElement "button") [("class", "section__arrow")] [] [] [] (Some 0))))
                        (mkNode (NElement "button") [("class", "section__arrow")] [] [] [] (Some 0))).
Proof.
  apply (arrow_stays_shown_at_end plain_list (scrolled_app 100) 0 1 _ 1200 400 400 2);
    vm_compute; repeat split; first [reflexivity|intros ?; discriminate].
Defined.

Lemma scrollCheck_hides_before_end_witness :
  (scroll_left (scrolled_app 795) 0 < max_scroll_left bordered_list (w_doc (a_world (scrolled_app 795))) 0)%Z /\
  exists nd a', nodes (w_doc (a_world (scrolled_app 795))) !! 1 = Some nd /\
    scrollCheck bordered_list (scrolled_app 795) = (inr tt, a') /\
    nodes (w_doc (a_world a')) !! 1 = Some (set_style (attr_set "display" "none" (style nd)) nd).
Proof. apply (scrollCheck_hides_before_end _ _ 0 1 1200 410 400); vm_compute; repeat split; first [reflexivity|intros ?; discriminate]. Defined.

Lemma scrollCheck_exact_without_border_witness :
  exists nd a' v, nodes (w_doc (a_world (scrolled_app 800))) !! 1 = Some nd /\
    scrollCheck plain_list (scrolled_app 800) = (inr tt, a') /\
    nodes (w_doc (a_world a')) !! 1 = Some (set_style (attr_set "display" v (style nd)) nd) /\
    (v = "block" <-> (scroll_left (scrolled_app 800) 0 < max_scroll_left plain_list (w_doc (a_world (scrolled_app 800))) 0)%Z) /\
    (v = "none" <-> scroll_left (scrolled_app 800) 0 = max_scroll_left plain_list (w_doc (a_world (scrolled_app 800))) 0).
Proof. apply (scrollCheck_exact_without_border _ _ 0 1 1200 400); vm_compute; repeat split; first [reflexivity|intros ?; discriminate]. Defined.

End AppScroll.
